(** * Trading-card inventory: the inference client and the listing view

    A shallow embedding of the parts of the application that carry its
    design decisions:

    - [tryWithFallback], [analyzeCard] and [generateListingCopy]
      (services/geminiService.ts);
    - the construction of a new card in [startAnalysis] (Scanner) and the
      merge of a regrade in [handleRegrade] (CardDetails.tsx);
    - [filteredCards] and [stats] (ListingsManager.tsx);
    - [fetchMarketData] (marketDataService) and [uploadImage] (apiService).

    Asynchronous calls are modelled by explicit state passing over a world
    [W]: an awaited call takes the world and returns its completion and the
    next world.  A JavaScript exception is the [Throw] completion. *)

From Stdlib Require Import List String Ascii ZArith QArith Bool Lia.
From Stdlib Require Import DecimalString OrderedTypeEx Permutation Sorted.
Import ListNotations.

Open Scope list_scope.
Open Scope string_scope.

(* ================================================================== *)
(** ** JavaScript values and built-ins                                 *)
(* ================================================================== *)

Module Js.

(** The result of running a piece of code: a value or a thrown error. *)
Inductive Completion (A E : Type) : Type :=
| Return (a : A)
| Throw (e : E).
Arguments Return {A E} a.
Arguments Throw {A E} e.

Definition bind {A B E} (c : Completion A E) (k : A -> Completion B E)
  : Completion B E :=
  match c with
  | Return a => k a
  | Throw e => Throw e
  end.

Declare Scope js_scope.
Delimit Scope js_scope with js.
Notation "'let*' x ':=' c 'in' k" := (bind c (fun x => k))
  (at level 10, x name, c at level 100, k at level 200) : js_scope.

(** [String.prototype.includes]: does [sub] occur in [s]? *)
Fixpoint startsWith (s sub : string) : bool :=
  match sub, s with
  | EmptyString, _ => true
  | String c sub', String d s' => Ascii.eqb c d && startsWith s' sub'
  | String _ _, EmptyString => false
  end.

Fixpoint includes (s sub : string) : bool :=
  startsWith s sub ||
  match s with
  | EmptyString => false
  | String _ s' => includes s' sub
  end.

(** [sub] occurs somewhere in [s]. *)
Definition Substring (sub s : string) : Prop :=
  exists pre post, s = pre ++ sub ++ post.

(** [Array.prototype.join]. *)
Fixpoint join (sep : string) (xs : list string) : string :=
  match xs with
  | [] => ""
  | [x] => x
  | x :: rest => x ++ sep ++ join sep rest
  end.

(** [a || b] on optional strings: [undefined] and the empty string are
    falsy. *)
Definition strTruthy (s : option string) : bool :=
  match s with
  | Some s => negb (s =? "")
  | None => false
  end.

Definition orStr (a b : option string) : option string :=
  if strTruthy a then a else b.

(** [o || d] where [d] is a string literal: the result is a string. *)
Definition orLit (a : option string) (d : string) : string :=
  match a with
  | Some s => if s =? "" then d else s
  | None => d
  end.

(** Decimal rendering of an integer, as [String(n)] gives it. *)
Definition Z_toString (n : Z) : string :=
  NilZero.string_of_int (Z.to_int n).

#[local] Set Warnings "-register-all".

(** A value that came out of [JSON.parse], or [undefined]. *)
Inductive JsVal : Type :=
| JUndefined
| JNull
| JBool (b : bool)
| JNum (q : Q)
| JStr (s : string)
| JArr (xs : list JsVal)
| JObj (props : list (string * JsVal)).

(** ToBoolean. *)
Definition truthy (v : JsVal) : bool :=
  match v with
  | JUndefined | JNull => false
  | JBool b => b
  | JNum q => negb (Qeq_bool q 0)
  | JStr s => negb (s =? "")
  | JArr _ | JObj _ => true
  end.

(** [a || b]. *)
Definition or (a b : JsVal) : JsVal := if truthy a then a else b.

Fixpoint lookup (k : string) (props : list (string * JsVal)) : JsVal :=
  match props with
  | [] => JUndefined
  | (k', v) :: rest => if k' =? k then v else lookup k rest
  end.

(** Defining property [k] on an object: an existing key keeps its place and
    takes the new value, a new key is added at the end. *)
Fixpoint define (k : string) (v : JsVal) (props : list (string * JsVal))
  : list (string * JsVal) :=
  match props with
  | [] => [(k, v)]
  | (k', v') :: rest =>
      if k' =? k then (k, v) :: rest else (k', v') :: define k v rest
  end.

(** An error object: what [catch (error)] binds.  [name] is the error
    class; [status] and [code] hold a number or a string when present, and a
    message is a string when present. *)
Inductive Code : Type :=
| CNum (n : Z)
| CStr (s : string).

Record InnerError : Type := mkInner {
  inner_code : option Code;
  inner_message : option string
}.

Record Error : Type := mkError {
  name : string;
  message : option string;
  status : option Code;
  code : option Code;
  error : option InnerError
}.

(** [new Error(msg)], [new TypeError(msg)] and [new SyntaxError(msg)]. *)
Definition newError (msg : string) : Error :=
  mkError "Error" (Some msg) None None None.
Definition TypeError (msg : string) : Error :=
  mkError "TypeError" (Some msg) None None None.
Definition SyntaxError (msg : string) : Error :=
  mkError "SyntaxError" (Some msg) None None None.

(** [o.k]: reading a property of [undefined] or [null] throws; a primitive
    or an array has none of the names this program reads. *)
Definition get (o : JsVal) (k : string) : Completion JsVal Error :=
  match o with
  | JUndefined | JNull => Throw (TypeError "Cannot read properties")
  | JObj props => Return (lookup k props)
  | _ => Return JUndefined
  end.

(** [a || b] where evaluating [b] may throw: [b] is evaluated only when [a]
    is falsy. *)
Definition orElse (a : JsVal) (b : Completion JsVal Error)
  : Completion JsVal Error :=
  if truthy a then Return a else b.

(** Own enumerable properties copied by [{...v}]: none for [undefined],
    [null], booleans and numbers, the indexed elements of a string or an
    array, the properties of an object. *)
Fixpoint indexed (i : nat) (xs : list JsVal) : list (string * JsVal) :=
  match xs with
  | [] => []
  | x :: rest => (Z_toString (Z.of_nat i), x) :: indexed (S i) rest
  end.

Fixpoint chars (s : string) : list JsVal :=
  match s with
  | EmptyString => []
  | String c s' => JStr (String c EmptyString) :: chars s'
  end.

Definition spread (v : JsVal) : list (string * JsVal) :=
  match v with
  | JObj props => props
  | JArr xs => indexed 0 xs
  | JStr s => indexed 0 (chars s)
  | _ => []
  end.

End Js.

(* ================================================================== *)
(** ** The fallback invoker (services/geminiService.ts)                *)
(* ================================================================== *)

Module Fallback.
Import Js.

(** Available models with fallback order. *)
Definition ANALYSIS_MODELS : list string :=
  [ "gemini-2.5-flash";
    "gemini-3-flash-preview";
    "gemini-2.0-flash-lite";
    "gemini-2.5-flash-preview-09-2025";
    "gemini-2.5-flash-lite-preview-09-2025" ].

Definition LISTING_MODELS : list string :=
  [ "gemini-2.5-flash";
    "gemini-3-flash-preview";
    "gemini-2.0-flash-lite";
    "gemini-2.5-flash-preview-09-2025";
    "gemini-2.5-flash-lite-preview-09-2025" ].

(** Truthiness of an optional status or message. *)
Definition codeTruthy (c : option Code) : bool :=
  match c with
  | Some (CNum n) => negb (n =? 0)%Z
  | Some (CStr s) => negb (s =? "")
  | None => false
  end.

Definition orCode (a b : option Code) : option Code :=
  if codeTruthy a then a else b.

(** [error?.status || error?.code || error?.error?.code] *)
Definition extractStatus (e : Error) : option Code :=
  orCode (orCode (status e) (code e))
         (match error e with Some i => inner_code i | None => None end).

(** [error?.message || error?.error?.message] *)
Definition rawMessage (e : Error) : option string :=
  orStr (message e)
        (match error e with Some i => inner_message i | None => None end).

(** [error?.message || error?.error?.message || ''] *)
Definition extractMessage (e : Error) : string :=
  orLit (rawMessage e) "".

(** [status === n] for a number literal [n]. *)
Definition strictEqNum (c : option Code) (n : Z) : bool :=
  match c with
  | Some (CNum m) => (m =? n)%Z
  | _ => false
  end.

Definition isRetryable (e : Error) : bool :=
  let status := extractStatus e in
  let message := extractMessage e in
  strictEqNum status 404 ||
  strictEqNum status 429 ||
  includes message "not found" ||
  includes message "quota" ||
  includes message "NOT_FOUND" ||
  includes message "exceeded".

(** [status || 0], the entry pushed on [retryableErrors]. *)
Definition recordedCode (e : Error) : Code :=
  match extractStatus e with
  | Some c => if codeTruthy (Some c) then c else CNum 0
  | None => CNum 0
  end.

Definition codeEqb (a b : Code) : bool :=
  match a, b with
  | CNum n, CNum m => (n =? m)%Z
  | CStr s, CStr t => (s =? t)
  | _, _ => false
  end.

(** [[...new Set(xs)]]: the distinct entries in order of first insertion. *)
Fixpoint setAdd (seen : list Code) (c : Code) : list Code :=
  match seen with
  | [] => [c]
  | d :: rest => if codeEqb d c then seen else d :: setAdd rest c
  end.

Definition distinct (xs : list Code) : list Code :=
  fold_left setAdd xs [].

Definition codeToString (c : Code) : string :=
  match c with
  | CNum n => Z_toString n
  | CStr s => s
  end.

Definition errorSummary (retryableErrors : list Code) : string :=
  if (0 <? List.length retryableErrors)%nat
  then "Errors encountered: " ++ join ", " (map codeToString (distinct retryableErrors))
  else "Unknown errors".

(** The error thrown after the loop. *)
Definition allFailed (lastError : option Error) (retryableErrors : list Code)
  : Error :=
  newError ("All models failed. " ++ errorSummary retryableErrors ++
            ". Last error: " ++
            orLit (match lastError with
                   | Some e => rawMessage e
                   | None => None
                   end) "Unknown error").

Section Invoker.
Context {T W : Type}.

(** [operation model]: an awaited call to the provider. *)
Variable operation : string -> W -> Completion T Error * W.

(** The [for (const model of models)] loop, with its two locals. *)
Fixpoint tryLoop (models : list string) (lastError : option Error)
         (retryableErrors : list Code) (w : W)
  : Completion (T * string) Error * W :=
  match models with
  | [] => (Throw (allFailed lastError retryableErrors), w)
  | model :: rest =>
      match operation model w with
      | (Return result, w') => (Return (result, model), w')
      | (Throw error, w') =>
          if isRetryable error
          then tryLoop rest (Some error)
                       (retryableErrors ++ [recordedCode error])%list w'
          else (Throw error, w')
      end
  end.

Definition tryWithFallback (models : list string) (w : W)
  : Completion (T * string) Error * W :=
  tryLoop models None [] w.

(** What the provider answers when every model of a list is called in
    turn: the completions, and the world after the last call. *)
Fixpoint attempts (models : list string) (w : W)
  : list (Completion T Error) * W :=
  match models with
  | [] => ([], w)
  | model :: rest =>
      let '(c, w') := operation model w in
      let '(cs, w'') := attempts rest w' in
      (c :: cs, w'')
  end.
End Invoker.

(** A call failed and the loop moves on to the next model. *)
Definition failsRetryable {T} (c : Completion T Error) : bool :=
  match c with
  | Return _ => false
  | Throw e => isRetryable e
  end.

(** The errors of a list of failed calls, in order. *)
Fixpoint thrown {T} (cs : list (Completion T Error)) : list Error :=
  match cs with
  | [] => []
  | Return _ :: rest => thrown rest
  | Throw e :: rest => e :: thrown rest
  end.

(** The value of [lastError] after a run of failed calls. *)
Definition lastThrown (lastError : option Error) (es : list Error)
  : option Error :=
  fold_left (fun _ e => Some e) es lastError.

(** An operation that also writes the model it was called with to a log,
    to observe which candidates the invoker calls. *)
Definition logged {T W} (operation : string -> W -> Completion T Error * W)
  : string -> W * list string -> Completion T Error * (W * list string) :=
  fun model '(w, log) =>
    let '(c, w') := operation model w in
    (c, (w', (log ++ [model])%list)).

(** The list of candidates: the preferred model first, when one is given. *)
Definition candidates (preferredModel : option string) (defaults : list string)
  : list string :=
  match preferredModel with
  | Some p =>
      if p =? "" then defaults
      else p :: filter (fun m => negb (m =? p)) defaults
  | None => defaults
  end.

End Fallback.

(* ================================================================== *)
(** ** Parsing a response and building cards from it                   *)
(* ================================================================== *)

Module Reconcile.
Import Js.
Open Scope js_scope.

Inductive StrictnessLevel : Type := relaxed | standard | strict.

Definition strictnessName (s : StrictnessLevel) : string :=
  match s with
  | relaxed => "relaxed"
  | standard => "standard"
  | strict => "strict"
  end.

(** The text of a provider response, identified with what [JSON.parse]
    makes of it: the value it denotes, or no value when the text is not a
    JSON document (or is missing). *)
Inductive ResponseText : Type :=
| JsonText (v : JsVal)
| NotJson (raw : string).

Record GenerateContentResponse : Type := mkResponse { text : ResponseText }.

Definition JSON_parse (t : ResponseText) : Completion JsVal Error :=
  match t with
  | JsonText v => Return v
  | NotJson _ => Throw (SyntaxError "Unexpected token in JSON")
  end.

(** The end of [analyzeCard]:
    [const data = JSON.parse(response.text);
     return { ...data, strictness, groundingSources }] with
    [groundingSources = []]. *)
Definition analyzeCard_result (strictness : StrictnessLevel)
           (response : GenerateContentResponse) : Completion JsVal Error :=
  let* data := JSON_parse (text response) in
  Return (JObj (define "groundingSources" (JArr [])
               (define "strictness" (JStr (strictnessName strictness))
               (spread data)))).

Definition agent (id name persona : string) : JsVal :=
  JObj [ ("id", JStr id); ("name", JStr name); ("persona", JStr persona);
         ("price", JNum 0); ("reasoning", JStr ""); ("confidence", JNum 0) ].

Definition defaultGrading : JsVal :=
  JObj [ ("centering", JStr "NM"); ("centeringReasoning", JStr "");
         ("corners", JStr "NM"); ("cornersReasoning", JStr "");
         ("edges", JStr "NM"); ("edgesReasoning", JStr "");
         ("surface", JStr "NM"); ("surfaceReasoning", JStr "");
         ("overallCondition", JStr "NM"); ("overallNotes", JStr "") ].

Definition defaultSuggestedPrice : JsVal :=
  JObj [ ("low", JNum 0); ("mid", JNum 0); ("high", JNum 0) ].

Definition defaultAgents : JsVal :=
  JObj [ ("conservative", agent "1" "Shopkeeper" "Conservative");
         ("market", agent "2" "Collector" "Market");
         ("speculative", agent "3" "Investor" "Speculative") ].

(** The object literal [newCard] of [startAnalysis].  [id] stands for the
    random identifier, [capturedImages] for the images of the scan. *)
Definition newCard (id : string) (capturedImages : list string)
           (strictness : StrictnessLevel) (result : JsVal)
  : Completion JsVal Error :=
  let* game := get result "game" in
  let* name := get result "name" in
  let* set := get result "set" in
  let* cardNumber := get result "cardNumber" in
  let* rarity := get result "rarity" in
  let* isHolo := get result "isHolo" in
  let* grading := get result "grading" in
  let* suggestedPrice := get result "suggestedPrice" in
  let* agents := get result "agents" in
  let* historicalData := get result "historicalData" in
  let* groundingSources := get result "groundingSources" in
  let* cardIdentifier := get result "cardIdentifier" in
  Return (JObj
    [ ("id", JStr id);
      ("game", or game (JStr "Unknown TCG"));
      ("name", or name (JStr "Unknown Card"));
      ("set", or set (JStr "Unknown Set"));
      ("cardNumber", or cardNumber (JStr "???"));
      ("rarity", or rarity (JStr "Common"));
      ("isHolo", or isHolo (JBool false));
      ("strictness", JStr (strictnessName strictness));
      ("grading", or grading defaultGrading);
      ("images", JArr (map JStr capturedImages));
      ("status", JStr "inventory");
      ("tags", JArr []);
      ("suggestedPrice", or suggestedPrice defaultSuggestedPrice);
      ("agents", or agents defaultAgents);
      ("historicalData", or historicalData (JArr []));
      ("groundingSources", or groundingSources (JArr []));
      ("cardIdentifier", or cardIdentifier (JStr "")) ]).

(** From the provider's response to the new card, as [startAnalysis] does
    inside its [try]. *)
Definition reconcile (id : string) (capturedImages : list string)
           (strictness : StrictnessLevel) (response : GenerateContentResponse)
  : Completion JsVal Error :=
  let* result := analyzeCard_result strictness response in
  newCard id capturedImages strictness result.

(** A top-level field of the parsed response is absent or [null]. *)
Definition missing (k : string) (data : JsVal) : Prop :=
  lookup k (spread data) = JUndefined \/ lookup k (spread data) = JNull.

(** The object literal [updatedCard] of [handleRegrade]:
    [{ ...editedCard, grading: result.grading || editedCard.grading,
       suggestedPrice: result.suggestedPrice || editedCard.suggestedPrice,
       agents: result.agents || editedCard.agents }]. *)
Definition updatedCard (editedCard result : JsVal) : Completion JsVal Error :=
  let* newGrading := get result "grading" in
  let* grading := orElse newGrading (get editedCard "grading") in
  let* newPrice := get result "suggestedPrice" in
  let* suggestedPrice := orElse newPrice (get editedCard "suggestedPrice") in
  let* newAgents := get result "agents" in
  let* agents := orElse newAgents (get editedCard "agents") in
  Return (JObj (define "agents" agents
               (define "suggestedPrice" suggestedPrice
               (define "grading" grading
               (spread editedCard))))).

End Reconcile.

(* ================================================================== *)
(** ** The data model (types.ts)                                       *)
(* ================================================================== *)

Module Types.

Definition StrictnessLevel := Reconcile.StrictnessLevel.

Inductive TCGPlayerCondition : Type := NM | LP | MP | HP | DMG.

Definition conditionName (c : TCGPlayerCondition) : string :=
  match c with
  | NM => "NM" | LP => "LP" | MP => "MP" | HP => "HP" | DMG => "DMG"
  end.

Record CardGrading : Type := mkGrading {
  centering : TCGPlayerCondition;
  centeringReasoning : string;
  corners : TCGPlayerCondition;
  cornersReasoning : string;
  edges : TCGPlayerCondition;
  edgesReasoning : string;
  surface : TCGPlayerCondition;
  surfaceReasoning : string;
  overallCondition : TCGPlayerCondition;
  overallNotes : string
}.

Record AgentOpinion : Type := mkAgent {
  agent_id : string;
  agent_name : string;
  persona : string;
  agent_price : Q;
  reasoning : string;
  confidence : Q
}.

Record PricePoint : Type := mkPricePoint {
  pp_date : string;
  pp_price : Q;
  pp_source : string;
  pp_condition : option TCGPlayerCondition
}.

Record TcgPrices : Type := mkTcgPrices {
  tcg_low : option Q;
  tcg_mid : option Q;
  tcg_high : option Q;
  tcg_market : option Q;
  tcg_directLow : option Q
}.

Record Sale : Type := mkSale {
  sale_date : string;
  sale_price : Q;
  sale_condition : TCGPlayerCondition;
  sale_quantity : option Z
}.

Record TcgPlayerData : Type := mkTcgPlayer {
  productId : option Z;
  tcg_url : option string;
  prices : option TcgPrices;
  historicalPrices : option (list PricePoint);
  recentSales : option (list Sale);
  tcg_lastUpdated : option string
}.

Record SearchLink : Type := mkLink {
  url : option string;
  lastUpdated : option string
}.

Record MarketData : Type := mkMarketData {
  tcgplayer : option TcgPlayerData;
  ebay : option SearchLink;
  cardmarket : option SearchLink;
  cacheExpiry : option string
}.

Inductive Status : Type := inventory | listing | sold.

Definition statusName (s : Status) : string :=
  match s with
  | inventory => "inventory"
  | listing => "listing"
  | sold => "sold"
  end.

Definition statusEqb (a b : Status) : bool :=
  match a, b with
  | inventory, inventory | listing, listing | sold, sold => true
  | _, _ => false
  end.

Record ListingCopy : Type := mkListingCopy {
  title : option string;
  copy_ebay : option string;
  copy_tcg : option string
}.

Record ListingInfo : Type := mkListingInfo {
  listedDate : option string;
  soldDate : option string;
  listingPrice : option Q;
  soldPrice : option Q;
  platforms : option (list string);
  listingUrls : option (list (string * string));
  listingCopy : option ListingCopy;
  notes : option string
}.

Record SuggestedPrice : Type := mkSuggested { low : Q; mid : Q; high : Q }.

Record Agents : Type := mkAgents {
  conservative : AgentOpinion;
  market : AgentOpinion;
  speculative : AgentOpinion
}.

Record CardMetadata : Type := mkCard {
  id : string;
  game : string;
  name : string;
  set : string;
  cardNumber : string;
  rarity : string;
  isHolo : bool;
  grading : CardGrading;
  strictness : StrictnessLevel;
  images : list string;
  status : Status;
  tags : list string;
  suggestedPrice : SuggestedPrice;
  agents : Agents;
  historicalData : list PricePoint;
  groundingSources : list (string * string);
  cardIdentifier : option string;
  marketData : option MarketData;
  listingInfo : option ListingInfo
}.

End Types.

(* ================================================================== *)
(** ** Listing copy (services/geminiService.ts)                        *)
(* ================================================================== *)

Module CopyService.
Import Js Fallback Reconcile Types.

Definition newline : string := String (ascii_of_nat 10) EmptyString.

(** The request sent for one candidate: the model, the prompt and the
    fields the response schema declares as required. *)
Record Request : Type := mkRequest {
  model : string;
  contents : string;
  required : list string
}.

Definition prompt (card : CardMetadata) : string :=
  "Generate sales copy for: " ++ name card ++ " (" ++ set card ++ " #" ++
  cardNumber card ++ "). " ++ newline ++
  "  Overall Condition: " ++ conditionName (overallCondition (grading card)) ++
  " (TCGPlayer). Notes: " ++ overallNotes (grading card) ++ "." ++ newline ++
  "  Strictness used: " ++ strictnessName (strictness card) ++ "." ++ newline ++
  "  Return JSON with title, ebay (HTML), and tcg fields.".

Section Generate.
Context {W : Type}.

(** [ai.models.generateContent]. *)
Variable generateContent :
  Request -> W -> Completion GenerateContentResponse Error * W.

Definition generateListingCopy (card : CardMetadata)
           (preferredModel : option string) (w : W)
  : Completion JsVal Error * W :=
  let models := candidates preferredModel LISTING_MODELS in
  let operation := fun model =>
    generateContent (mkRequest model (prompt card) ["title"; "ebay"; "tcg"]) in
  match tryWithFallback operation models w with
  | (Return (response, usedModel), w') => (JSON_parse (text response), w')
  | (Throw e, w') => (Throw e, w')
  end.
End Generate.

End CopyService.

(* ================================================================== *)
(** ** The listing view (components/ListingsManager.tsx)               *)
(* ================================================================== *)

Module View.
Import Js Types.

Inductive StatusFilter : Type :=
| all
| only (s : Status).

Inductive SortField : Type := byName | byPrice | byDate | byStatus.

Inductive SortDirection : Type := asc | desc.

(** [Array.prototype.sort] with a comparator.  The language requires the
    sort to be stable; for a consistent comparator every stable sort gives
    the same list, computed here by insertion from the right. *)
Section Sort.
Context {A : Type}.
Variable compareFn : A -> A -> Z.

Fixpoint insert (x : A) (sorted : list A) : list A :=
  match sorted with
  | [] => [x]
  | y :: rest =>
      if (compareFn x y <=? 0)%Z then x :: y :: rest
      else y :: insert x rest
  end.

Fixpoint sort (xs : list A) : list A :=
  match xs with
  | [] => []
  | x :: rest => insert x (sort rest)
  end.
End Sort.

(** [<] on numbers. *)
Definition Qltb (a b : Q) : bool :=
  match (a ?= b)%Q with
  | Lt => true
  | _ => false
  end.

(** [card.listingInfo?.listingPrice || card.suggestedPrice.mid] *)
Definition priceOf (card : CardMetadata) : Q :=
  match listingInfo card with
  | Some info =>
      match listingPrice info with
      | Some p => if Qeq_bool p 0 then mid (suggestedPrice card) else p
      | None => mid (suggestedPrice card)
      end
  | None => mid (suggestedPrice card)
  end.

(** [card.listingInfo?.listedDate || card.listingInfo?.soldDate || ''] *)
Definition dateOf (card : CardMetadata) : string :=
  match listingInfo card with
  | Some info => orLit (orStr (listedDate info) (soldDate info)) ""
  | None => ""
  end.

(** The tail of the comparator:
    [if (aVal < bVal) return sortDirection === 'asc' ? -1 : 1;
     if (aVal > bVal) return sortDirection === 'asc' ? 1 : -1;
     return 0;] *)
Definition outcome {K : Type} (ltb : K -> K -> bool)
           (sortDirection : SortDirection) (aVal bVal : K) : Z :=
  if ltb aVal bVal then
    match sortDirection with asc => -1 | desc => 1 end
  else if ltb bVal aVal then
    match sortDirection with asc => 1 | desc => -1 end
  else 0.

Definition compareCards (sortField : SortField) (sortDirection : SortDirection)
           (a b : CardMetadata) : Z :=
  match sortField with
  | byName => outcome String.ltb sortDirection (name a) (name b)
  | byPrice => outcome Qltb sortDirection (priceOf a) (priceOf b)
  | byDate => outcome String.ltb sortDirection (dateOf a) (dateOf b)
  | byStatus =>
      outcome String.ltb sortDirection
              (statusName (status a)) (statusName (status b))
  end.

Definition passesStatus (statusFilter : StatusFilter) (card : CardMetadata)
  : bool :=
  match statusFilter with
  | all => true
  | only s => statusEqb (status card) s
  end.

Section Filter.

(** [String.prototype.toLowerCase], a built-in of the language. *)
Variable toLowerCase : string -> string.

(** The predicate of the search filter, [query] being the lower-cased
    search text. *)
Definition matchesQuery (query : string) (card : CardMetadata) : bool :=
  includes (toLowerCase (name card)) query ||
  includes (toLowerCase (set card)) query ||
  includes (toLowerCase (cardNumber card)) query ||
  includes (toLowerCase (game card)) query.

(** The cards left after the status filter and the search filter. *)
Definition filtered (inventory : list CardMetadata)
           (statusFilter : StatusFilter) (searchQuery : string)
  : list CardMetadata :=
  let filtered := inventory in
  let filtered :=
    match statusFilter with
    | all => filtered
    | only s => filter (fun card => statusEqb (status card) s) filtered
    end in
  if searchQuery =? "" then filtered
  else
    let query := toLowerCase searchQuery in
    filter (matchesQuery query) filtered.

Definition filteredCards (inventory : list CardMetadata)
           (statusFilter : StatusFilter) (searchQuery : string)
           (sortField : SortField) (sortDirection : SortDirection)
  : list CardMetadata :=
  sort (compareCards sortField sortDirection)
       (filtered inventory statusFilter searchQuery).
End Filter.

(** The result of [stats].  [Number] is the type of the values of the
    language's numbers. *)
Record Stats (Number : Type) : Type := mkStats {
  stat_all : nat;
  stat_inventory : nat;
  stat_listing : nat;
  stat_sold : nat;
  totalValue : Number
}.

Arguments mkStats {Number} _ _ _ _ _.
Arguments stat_all {Number} _.
Arguments stat_inventory {Number} _.
Arguments stat_listing {Number} _.
Arguments stat_sold {Number} _.
Arguments totalValue {Number} _.

Definition countStatus (s : Status) (cards : list CardMetadata) : nat :=
  List.length (filter (fun c => statusEqb (status c) s) cards).

Section Aggregate.
Context {Number : Type}.

(** [number q] is the number whose value is [q], and [plus] is [+] on
    numbers: the addition of doubles, which rounds its result. *)
Variable number : Q -> Number.
Variable plus : Number -> Number -> Number.

(** [filteredCards.reduce((sum, c) => sum + (...), 0)] adds from the left,
    in the order of the view. *)
Definition stats (filteredCards : list CardMetadata) : Stats Number :=
  mkStats (List.length filteredCards)
          (countStatus inventory filteredCards)
          (countStatus listing filteredCards)
          (countStatus sold filteredCards)
          (fold_left (fun sum c => plus sum (number (priceOf c)))
                     filteredCards (number 0)).
End Aggregate.

(** The two sort keys are tied: neither is smaller than the other. *)
Definition tied (sortField : SortField) (a b : CardMetadata) : bool :=
  (compareCards sortField asc a b =? 0)%Z.

(** [a] may stand before [b] in a list sorted by [sortField] in the given
    direction. *)
Definition inOrder (sortField : SortField) (sortDirection : SortDirection)
           (a b : CardMetadata) : Prop :=
  match sortDirection with
  | asc => (compareCards sortField asc a b <= 0)%Z
  | desc => (compareCards sortField asc a b >= 0)%Z
  end.

End View.

(* ================================================================== *)
(** ** Market data (services/marketDataService.ts)                     *)
(* ================================================================== *)

Module Market.
Import Js Types.

(** Cache duration: 24 hours for market data. *)
Definition CACHE_DURATION_MS : Z := 24 * 60 * 60 * 1000.

Section Fetch.
Context {W : Type}.

(** The clock and the date built-ins: [Date.now()], the time value of
    [new Date(s)] ([None] for an invalid date, whose time is NaN),
    [toISOString] and [encodeURIComponent]. *)
Variable Date_now : W -> Z.
Variable Date_parse : string -> option Z.
Variable toISOString : Z -> string.
Variable encodeURIComponent : string -> string.

(** The two calls to the price provider.  Each catches its own errors and
    answers [null] on failure. *)
Variable searchTCGPlayerProduct :
  string -> string -> string -> W -> option Z * W.
Variable getTCGPlayerPricing : Z -> W -> option TcgPlayerData * W.

Definition getEbaySearchUrl (card : CardMetadata) : string :=
  let query :=
    encodeURIComponent (name card ++ " " ++ set card ++ " " ++ cardNumber card) in
  "https://www.ebay.com/sch/i.html?_nkw=" ++ query.

Definition getCardmarketSearchUrl (card : CardMetadata) : string :=
  let query := encodeURIComponent (name card ++ " " ++ set card) in
  "https://www.cardmarket.com/en/" ++ game card ++
  "/Products/Search?searchString=" ++ query.

(** [expiry > Date.now()]; a comparison with NaN is false. *)
Definition inFuture (expiry : option Z) (w : W) : bool :=
  match expiry with
  | Some t => (Date_now w <? t)%Z
  | None => false
  end.

(** The part of [fetchMarketData] after the cache check. *)
Definition refetch (card : CardMetadata) (w : W) : MarketData * W :=
  let cacheExpiry := toISOString (Date_now w + CACHE_DURATION_MS) in
  let '(productId, w1) :=
    searchTCGPlayerProduct (name card) (set card) (game card) w in
  let '(tcgplayer, w2) :=
    match productId with
    | Some p =>
        if (p =? 0)%Z then (None, w1) else getTCGPlayerPricing p w1
    | None => (None, w1)
    end in
  let ebay := mkLink (Some (getEbaySearchUrl card))
                     (Some (toISOString (Date_now w2))) in
  let cardmarket := mkLink (Some (getCardmarketSearchUrl card))
                           (Some (toISOString (Date_now w2))) in
  (mkMarketData tcgplayer (Some ebay) (Some cardmarket) (Some cacheExpiry), w2).

Definition fetchMarketData (card : CardMetadata) (forceRefresh : bool) (w : W)
  : MarketData * W :=
  match marketData card with
  | Some cached =>
      if negb forceRefresh && strTruthy (cacheExpiry cached) then
        let expiry :=
          match cacheExpiry cached with
          | Some s => Date_parse s
          | None => None
          end in
        if inFuture expiry w then (cached, w) else refetch card w
      else refetch card w
  | None => refetch card w
  end.

Definition fetchMarketDataServer (card : CardMetadata) (forceRefresh : bool)
  : W -> MarketData * W :=
  fetchMarketData card forceRefresh.
End Fetch.

(** A call to the price provider. *)
Inductive ProviderCall : Type :=
| Search (cardName setName game : string)
| Pricing (productId : Z).

(** The provider calls, writing each call to a log. *)
Definition loggedSearch {W}
           (search : string -> string -> string -> W -> option Z * W)
  : string -> string -> string -> W * list ProviderCall ->
    option Z * (W * list ProviderCall) :=
  fun cardName setName game '(w, log) =>
    let '(r, w') := search cardName setName game w in
    (r, (w', (log ++ [Search cardName setName game])%list)).

Definition loggedPricing {W}
           (pricing : Z -> W -> option TcgPlayerData * W)
  : Z -> W * list ProviderCall ->
    option TcgPlayerData * (W * list ProviderCall) :=
  fun productId '(w, log) =>
    let '(r, w') := pricing productId w in
    (r, (w', (log ++ [Pricing productId])%list)).

End Market.

(* ================================================================== *)
(** ** The client of the card server (services/apiService.ts)          *)
(* ================================================================== *)

Module Api.
Import Js.

Record File : Type := mkFile {
  bits : string;
  filename : string;
  type : string
}.

Definition size (f : File) : nat := String.length (bits f).

(** [s.split(c)] for a one-character separator. *)
Fixpoint split (sep : ascii) (s : string) : list string :=
  match s with
  | EmptyString => [EmptyString]
  | String c s' =>
      if Ascii.eqb c sep then EmptyString :: split sep s'
      else
        match split sep s' with
        | [] => [String c EmptyString]
        | first :: rest => String c first :: rest
        end
  end.

Definition isLineTerminator (c : ascii) : bool :=
  Ascii.eqb c (ascii_of_nat 10) || Ascii.eqb c (ascii_of_nat 13).

(** The capture of [/:(.*?);/]: after the first colon that is followed, on
    the same line, by a semicolon, the text up to that semicolon. *)
Fixpoint upToSemicolon (s : string) : option string :=
  match s with
  | EmptyString => None
  | String c s' =>
      if Ascii.eqb c ";" then Some EmptyString
      else if isLineTerminator c then None
      else option_map (String c) (upToSemicolon s')
  end.

Fixpoint mimeMatch (s : string) : option string :=
  match s with
  | EmptyString => None
  | String c s' =>
      if Ascii.eqb c ":" then
        match upToSemicolon s' with
        | Some m => Some m
        | None => mimeMatch s'
        end
      else mimeMatch s'
  end.

(** [s.replace(/^https?:\/\//, '')] and [s.replace(/\/$/, '')]. *)
Fixpoint dropPrefix (p s : string) : option string :=
  match p, s with
  | EmptyString, _ => Some s
  | String c p', String d s' =>
      if Ascii.eqb c d then dropPrefix p' s' else None
  | String _ _, EmptyString => None
  end.

Definition stripScheme (s : string) : string :=
  match dropPrefix "http://" s with
  | Some rest => rest
  | None =>
      match dropPrefix "https://" s with
      | Some rest => rest
      | None => s
      end
  end.

Fixpoint stripTrailingSlash (s : string) : string :=
  match s with
  | EmptyString => EmptyString
  | String c EmptyString => if Ascii.eqb c "/" then EmptyString else s
  | String c s' => String c (stripTrailingSlash s')
  end.

(** [getBaseUrl], from the saved server address. *)
Definition getBaseUrl (saved : option string) : string :=
  let savedIp := orLit saved "localhost" in
  let savedIp := stripScheme savedIp in
  let savedIp := stripTrailingSlash savedIp in
  let savedIp :=
    if includes savedIp ":" then hd EmptyString (split ":" savedIp)
    else savedIp in
  "http://" ++ savedIp ++ ":3001".

(** The response of [fetch]: [res.ok] and the completion of [res.json()]. *)
Record Response : Type := mkResponse {
  ok : bool;
  json : Completion JsVal Error
}.

Section Client.
Context {W : Type}.

(** [atob] ([None] when it throws), [Date.now()], the saved server
    address in local storage, and the upload request. *)
Variable atob : string -> option string.
Variable Date_now : W -> Z.
Variable localStorage_getItem : string -> W -> option string.
Variable fetch : string -> File -> W -> Completion Response Error * W.

Definition errorFile : File := mkFile "" "error.jpg" "image/jpeg".

(** Helper to convert base64 to a File object for uploading. *)
Definition base64ToFile (dataurl filename : string) : File :=
  let attempt : Completion File Error :=
    let arr := split "," dataurl in
    if (List.length arr <? 2)%nat then Throw (newError "Invalid base64 string")
    else
      let mime :=
        match mimeMatch (nth 0 arr EmptyString) with
        | Some m => m
        | None => "image/png"
        end in
      match atob (nth 1 arr EmptyString) with
      | Some bstr => Return (mkFile bstr filename mime)
      | None => Throw (mkError "InvalidCharacterError" None None None None)
      end in
  match attempt with
  | Return file => file
  | Throw _ => errorFile
  end.

(** The body of the [try] of [uploadImage]. *)
Definition upload (base64Image : string) (w : W)
  : Completion JsVal Error * W :=
  let file :=
    base64ToFile base64Image
                 ("scan-" ++ Z_toString (Date_now w) ++ ".jpg") in
  if (size file =? 0)%nat then (Return (JStr base64Image), w)
  else
    let url :=
      getBaseUrl (localStorage_getItem "pokesell_server_ip" w) ++ "/api/upload" in
    match fetch url file w with
    | (Throw e, w') => (Throw e, w')
    | (Return res, w') =>
        if negb (ok res) then (Throw (newError "Upload failed"), w')
        else
          (bind (json res) (fun data => get data "url"), w')
    end.

(** Upload an image and get the URL back. *)
Definition uploadImage (base64Image : string) (w : W)
  : Completion JsVal Error * W :=
  match upload base64Image w with
  | (Return v, w') => (Return v, w')
  | (Throw _, w') => (Return (JStr base64Image), w')
  end.

(** [card.images.map(img => api.uploadImage(img))] of
    [handleCardAnalyzed], one upload after the other. *)
Fixpoint uploadImages (images : list string) (w : W)
  : Completion (list JsVal) Error * W :=
  match images with
  | [] => (Return [], w)
  | img :: rest =>
      match uploadImage img w with
      | (Throw e, w') => (Throw e, w')
      | (Return v, w') =>
          match uploadImages rest w' with
          | (Return vs, w'') => (Return (v :: vs), w'')
          | (Throw e, w'') => (Throw e, w'')
          end
      end
  end.

(** [finalCard = { ...card, images: uploadedImages }], the card that
    [handleCardAnalyzed] saves. *)
Definition finalCard (card : JsVal) (uploadedImages : list JsVal) : JsVal :=
  JObj (define "images" (JArr uploadedImages) (spread card)).
End Client.

End Api.

(* ================================================================== *)
(** ** Sample runs                                                     *)
(* ================================================================== *)

Module Samples.
Import Js Fallback.

Definition notFound : Error :=
  mkError "ApiError" (Some "model is not available") (Some (CNum 404)) None None.

Definition overQuota : Error :=
  mkError "ApiError" (Some "Resource has been exhausted") None None
          (Some (mkInner (Some (CNum 429)) (Some "quota exceeded"))).

Definition badKey : Error :=
  mkError "ApiError" (Some "API key not valid") (Some (CNum 400)) None None.

(** A provider where the first model is unknown, the second is over quota,
    the third and fourth answer, and any other call is refused. *)
Definition provider (model : string) (w : unit) : Completion Z Error * unit :=
  if model =? "m1" then (Throw notFound, w)
  else if model =? "m2" then (Throw overQuota, w)
  else if model =? "m3" then (Return 7%Z, w)
  else if model =? "m4" then (Return 9%Z, w)
  else (Throw badKey, w).

End Samples.

(** A listed card and the result of grading it again. *)
Module RegradeSample.
Import Js Reconcile.

Definition gradingOf (overall : string) : JsVal :=
  JObj [ ("centering", JStr overall); ("centeringReasoning", JStr "");
         ("corners", JStr overall); ("cornersReasoning", JStr "");
         ("edges", JStr overall); ("edgesReasoning", JStr "");
         ("surface", JStr overall); ("surfaceReasoning", JStr "");
         ("overallCondition", JStr overall); ("overallNotes", JStr "") ].

Definition priceOf (low mid high : Q) : JsVal :=
  JObj [ ("low", JNum low); ("mid", JNum mid); ("high", JNum high) ].

Definition editedCard : list (string * JsVal) :=
  [ ("id", JStr "k3x9");
    ("name", JStr "Blue-Eyes White Dragon");
    ("grading", gradingOf "NM");
    ("images", JArr [JStr "http://host/uploads/1.jpg";
                     JStr "http://host/uploads/2.jpg"]);
    ("status", JStr "listing");
    ("suggestedPrice", priceOf 10 20 30);
    ("agents", defaultAgents);
    ("cardIdentifier", JStr "LOB-001");
    ("marketData", JObj [("cacheExpiry", JStr "2030-01-01T00:00:00.000Z")]);
    ("listingInfo", JObj [("listedDate", JStr "2024-01-01T00:00:00.000Z")]) ].

Definition result : list (string * JsVal) :=
  [ ("name", JStr "Blue-Eyes White Dragon");
    ("grading", gradingOf "LP");
    ("suggestedPrice", priceOf 5 8 12);
    ("agents", defaultAgents);
    ("cardIdentifier", JStr "SDK-001");
    ("strictness", JStr "standard");
    ("groundingSources", JArr []) ].

End RegradeSample.

(** Cards of the typed model, and a provider of listing copy. *)
Module CardSamples.
Import Js Reconcile Types.

Definition nmGrading : CardGrading :=
  mkGrading NM "" NM "" NM "" NM "" NM "".

Definition noOpinion (id name persona : string) : AgentOpinion :=
  mkAgent id name persona 0 "" 0.

Definition noAgents : Agents :=
  mkAgents (noOpinion "1" "Shopkeeper" "Conservative")
           (noOpinion "2" "Collector" "Market")
           (noOpinion "3" "Investor" "Speculative").

(** A card with the given identity, status, mid price and listing record. *)
Definition card (id name : string) (status : Status) (mid : Q)
           (listingInfo : option ListingInfo) : CardMetadata :=
  mkCard id "Pokemon" name "Base Set" "58/102" "Common" false nmGrading
         standard [] status [] (mkSuggested 0 mid 0) noAgents [] [] None None
         listingInfo.

Definition listedOn (date : string) : option ListingInfo :=
  Some (mkListingInfo (Some date) None None None None None None None).

Definition pricedAt (price : Q) : option ListingInfo :=
  Some (mkListingInfo None None (Some price) None None None None None).

Definition pikachu : CardMetadata := card "c1" "Pikachu" inventory 12 None.

(** A provider whose answer has a title and an eBay text and no TCG notes. *)
Definition twoFields : JsVal :=
  JObj [ ("title", JStr "Pikachu 58/102 NM"); ("ebay", JStr "<p>Pikachu</p>") ].

Definition copyProvider (request : CopyService.Request) (w : unit)
  : Completion GenerateContentResponse Error * unit :=
  (Return (mkResponse (JsonText twoFields)), w).

End CardSamples.

(** A card with cached market data, a clock and a price provider. *)
Module MarketSample.
Import Js Reconcile Types.

Definition expiryText : string := "2030-01-01T00:00:00.000Z".
Definition expiryTime : Z := 1893456000000.

(** One hour before the expiry. *)
Definition Date_now (w : unit) : Z := expiryTime - 3600000.

Definition Date_parse (s : string) : option Z :=
  if s =? expiryText then Some expiryTime else None.

Definition toISOString (t : Z) : string := Z_toString t.

Definition encodeURIComponent (s : string) : string := s.

Definition search (cardName setName game : string) (w : unit)
  : option Z * unit := (Some 42%Z, w).

Definition pricing (productId : Z) (w : unit) : option TcgPlayerData * unit :=
  (Some (mkTcgPlayer (Some productId) None None None None None), w).

Definition cached : MarketData :=
  mkMarketData None None None (Some expiryText).

Definition card : CardMetadata :=
  mkCard "c1" "Pokemon" "Pikachu" "Base Set" "58/102" "Common" false
         CardSamples.nmGrading standard [] listing [] (mkSuggested 0 12 0)
         CardSamples.noAgents [] [] None (Some cached) None.

End MarketSample.

(** A browser whose upload request fails: the server cannot be reached. *)
Module UploadSample.
Import Js Api.

Definition atob (s : string) : option string :=
  if s =? "" then Some "" else Some "JFIF".

Definition Date_now (w : unit) : Z := 1700000000000.

Definition localStorage_getItem (key : string) (w : unit) : option string :=
  Some "http://192.168.1.20:3001/".

Definition fetch (url : string) (body : File) (w : unit)
  : Completion Response Error * unit :=
  (Throw (TypeError "Failed to fetch"), w).

Definition image : string := "data:image/jpeg;base64,SkZJRg==".

End UploadSample.

(** The cards of two scenarios of the listing view, and a lower-casing for
    texts of ASCII letters. *)
Module ViewSample.
Import Types CardSamples.

Definition lowerChar (c : ascii) : ascii :=
  let n := nat_of_ascii c in
  if (65 <=? n)%nat && (n <=? 90)%nat then ascii_of_nat (n + 32) else c.

Fixpoint asciiLower (s : string) : string :=
  match s with
  | EmptyString => EmptyString
  | String c s' => String (lowerChar c) (asciiLower s')
  end.

Definition cardA : CardMetadata :=
  card "A" "Abra" listing 5 (listedOn "2024-01-01").
Definition cardB : CardMetadata :=
  card "B" "Bulbasaur" inventory 7 None.
Definition cardC : CardMetadata :=
  card "C" "Charmander" listing 9 (listedOn "2024-01-01").

Definition five : list CardMetadata :=
  [ card "1" "Abra" inventory 1 None;
    card "2" "Bulbasaur" inventory 2 None;
    card "3" "Charmander" listing 4 (listedOn "2024-02-01");
    card "4" "Diglett" sold 8 (pricedAt 10);
    card "5" "Eevee" sold 16 None ].

End ViewSample.

(* ================================================================== *)
(** ** The scanner and the dashboard (components)                      *)
(* ================================================================== *)

Module Scanner.

(** [xs.filter((_, i) => keep(i))], the index counted from [i]. *)
Fixpoint filterIndex {A : Type} (keep : nat -> bool) (i : nat) (xs : list A)
  : list A :=
  match xs with
  | [] => []
  | x :: rest =>
      if keep i then x :: filterIndex keep (S i) rest
      else filterIndex keep (S i) rest
  end.

(** [setCapturedImages(prev => prev.filter((_, i) => i !== index))] *)
Definition removeImage (index : nat) (prev : list string) : list string :=
  filterIndex (fun i => negb (i =? index)%nat) 0 prev.

End Scanner.

Module Dashboard.
Import Types.

(** [xs.slice(-n)]: the last [n] elements, all of them when there are fewer. *)
Definition sliceLast {A : Type} (n : nat) (xs : list A) : list A :=
  skipn (List.length xs - n) xs.

(** [inventory.slice(-4).reverse()] *)
Definition recentCards (inventory : list CardMetadata) : list CardMetadata :=
  rev (sliceLast 4 inventory).

End Dashboard.

(* ================================================================== *)
(** ** Editing a card (components/CardDetails.tsx)                     *)
(* ================================================================== *)

Module Details.
Import Js Types.

Definition conditionOptions : list TCGPlayerCondition := [NM; LP; MP; HP; DMG].

(** The place of a condition in [conditionOptions], best first. *)
Definition conditionRank (c : TCGPlayerCondition) : nat :=
  match c with
  | NM => 0 | LP => 1 | MP => 2 | HP => 3 | DMG => 4
  end.

(** [a >= b] on numbers. *)
Definition Qgeb (a b : Q) : bool := Qle_bool b a.

(** [getConditionValue]: a condition name is kept, a numeric grade of the
    old scale is converted, anything else reads as NM. *)
Definition getConditionValue (value : JsVal) : TCGPlayerCondition :=
  match value with
  | JStr s =>
      if s =? "NM" then NM
      else if s =? "LP" then LP
      else if s =? "MP" then MP
      else if s =? "HP" then HP
      else if s =? "DMG" then DMG
      else NM
  | JNum value =>
      if Qgeb value 9 then NM
      else if Qgeb value 7.5 then LP
      else if Qgeb value 6 then MP
      else if Qgeb value 4 then HP
      else DMG
  | _ => NM
  end.

(** [handleGradeChange]:
    [{ ...prev, grading: { ...prev.grading, [field]: value } }] *)
Definition handleGradeChange (field : string) (value : JsVal) (prev : JsVal)
  : Completion JsVal Error :=
  bind (get prev "grading") (fun grading =>
  Return (JObj (define "grading" (JObj (define field value (spread grading)))
                       (spread prev)))).

End Details.

(** Cards for the dashboard and the grade editor. *)
Module DetailsSample.
Import Js Types.

Definition graded : list (string * JsVal) :=
  [ ("id", JStr "k3x9");
    ("grading", JObj [ ("centering", JStr "NM"); ("corners", JNum 8);
                       ("overallCondition", JStr "NM") ]);
    ("status", JStr "inventory") ].

End DetailsSample.

(* ================================================================== *)
(** ** Selection and bulk actions (components/ListingsManager.tsx)     *)
(* ================================================================== *)

Module Manager.
Import Js Types.

(** A [Set<string>]: its members in order of insertion, each once. *)
Definition IdSet : Type := list string.

Definition has (id : string) (s : IdSet) : bool := existsb (String.eqb id) s.

Definition add (id : string) (s : IdSet) : IdSet :=
  if has id s then s else (s ++ [id])%list.

Definition delete (id : string) (s : IdSet) : IdSet :=
  filter (fun x => negb (x =? id)) s.

Definition size (s : IdSet) : nat := List.length s.

(** [new Set(ids)] *)
Definition fromList (ids : list string) : IdSet :=
  fold_left (fun s id => add id s) ids [].

Definition toggleSelect (id : string) (selectedIds : IdSet) : IdSet :=
  let newSelected := selectedIds in
  if has id newSelected then delete id newSelected else add id newSelected.

Definition toggleSelectAll (selectedIds : IdSet)
           (filteredCards : list CardMetadata) : IdSet :=
  if (size selectedIds =? List.length filteredCards)%nat then []
  else fromList (map id filteredCards).

Definition getSelectedCards (selectedIds : IdSet)
           (filteredCards : list CardMetadata) : list CardMetadata :=
  filter (fun card => has (id card) selectedIds) filteredCards.

(** [{ ...card, status, listingInfo }] *)
Definition withListing (card : CardMetadata) (newStatus : Status)
           (info : option ListingInfo) : CardMetadata :=
  mkCard (id card) (game card) (name card) (set card) (cardNumber card)
         (rarity card) (isHolo card) (grading card) (strictness card)
         (images card) newStatus (tags card) (suggestedPrice card)
         (agents card) (historicalData card) (groundingSources card)
         (cardIdentifier card) (marketData card) info.

(** [{ ...card.listingInfo }], which is [{}] when the card has none. *)
Definition infoOf (card : CardMetadata) : ListingInfo :=
  match listingInfo card with
  | Some info => info
  | None => mkListingInfo None None None None None None None None
  end.

(** The card that [bulkMarkAsListed] builds from a selected card; [now] is
    [new Date().toISOString()]. *)
Definition markAsListed (now : string) (card : CardMetadata) : CardMetadata :=
  let info := infoOf card in
  let listed :=
    orLit (match listingInfo card with
           | Some i => listedDate i
           | None => None
           end) now in
  withListing card listing
    (Some (mkListingInfo (Some listed) (soldDate info) (listingPrice info)
                         (soldPrice info) (platforms info) (listingUrls info)
                         (listingCopy info) (notes info))).

(** The card that [bulkMarkAsSold] builds from a selected card. *)
Definition markAsSold (now : string) (card : CardMetadata) : CardMetadata :=
  let info := infoOf card in
  let soldOn :=
    orLit (match listingInfo card with
           | Some i => soldDate i
           | None => None
           end) now in
  withListing card sold
    (Some (mkListingInfo (listedDate info) (Some soldOn) (listingPrice info)
                         (soldPrice info) (platforms info) (listingUrls info)
                         (listingCopy info) (notes info))).

(** The card that [bulkMarkAsInventory] builds from a selected card. *)
Definition markAsInventory (card : CardMetadata) : CardMetadata :=
  withListing card inventory (listingInfo card).

End Manager.

(* ================================================================== *)
(** ** The server address in the settings (components/Settings.tsx)    *)
(* ================================================================== *)

Module Settings.
Import Js Api.

(** [cleanIp]: the address without scheme, trailing slash and port. *)
Definition cleanIp (input : string) : string :=
  let clean := stripScheme input in
  let clean := stripTrailingSlash clean in
  if includes clean ":" then hd EmptyString (split ":" clean) else clean.

End Settings.

(* ================================================================== *)
(** ** The other calls of the client (services/apiService.ts)          *)
(* ================================================================== *)

Module Client.
Import Js Api.

(** A request of the client: the method, the URL and the JSON body. *)
Record Request : Type := mkRequest {
  method : string;
  url : string;
  body : option JsVal
}.

Section Calls.
Context {W : Type}.

(** [Date.now()], [toISOString], the saved server address, [fetch], and the
    text that a template literal makes of a value. *)
Variable Date_now : W -> Z.
Variable toISOString : Z -> string.
Variable localStorage_getItem : string -> W -> option string.
Variable fetch : Request -> W -> Completion Response Error * W.
Variable String_of : JsVal -> string.

Definition baseUrl (w : W) : string :=
  getBaseUrl (localStorage_getItem "pokesell_server_ip" w).


(** Get all cards. *)
Definition getCards (w : W) : Completion JsVal Error * W :=
  match fetch (mkRequest "GET" (baseUrl w ++ "/api/cards") None) w with
  | (Return res, w') =>
      if negb (ok res) then (Return (JArr []), w')
      else
        match json res with
        | Return cards => (Return cards, w')
        | Throw _ => (Return (JArr []), w')
        end
  | (Throw _, w') => (Return (JArr []), w')
  end.

(** Save a new card. *)
Definition saveCard (card : JsVal) (w : W) : Completion JsVal Error * W :=
  match fetch (mkRequest "POST" (baseUrl w ++ "/api/cards") (Some card)) w with
  | (Return res, w') =>
      if negb (ok res) then (Throw (newError "Save failed"), w')
      else (json res, w')
  | (Throw e, w') => (Throw e, w')
  end.

(** Update a card. *)
Definition updateCard (card : JsVal) (w : W) : Completion JsVal Error * W :=
  match get card "id" with
  | Throw e => (Throw e, w)
  | Return id =>
      match fetch (mkRequest "PUT" (baseUrl w ++ "/api/cards/" ++ String_of id)
                             (Some card)) w with
      | (Return res, w') =>
          if negb (ok res) then (Throw (newError "Update failed"), w')
          else (json res, w')
      | (Throw e, w') => (Throw e, w')
      end
  end.

(** Fetch market data for a card, through the server. *)
Definition fetchMarketData (card : JsVal) (forceRefresh : bool) (w : W)
  : Completion JsVal Error * W :=
  let fallback (w' : W) : JsVal :=
    JObj [("cacheExpiry",
           JStr (toISOString (Date_now w' + 24 * 60 * 60 * 1000)%Z))] in
  match fetch (mkRequest "POST"
                 (baseUrl w ++ "/api/market-data?force=" ++
                  (if forceRefresh then "true" else "false"))
                 (Some card)) w with
  | (Return res, w') =>
      if negb (ok res) then (Return (fallback w'), w')
      else
        match json res with
        | Return marketData => (Return marketData, w')
        | Throw _ => (Return (fallback w'), w')
        end
  | (Throw _, w') => (Return (fallback w'), w')
  end.
End Calls.

End Client.

(** A server at a saved address that answers two requests and no other. *)
Module ClientSample.
Import Js Api Client.

Definition Date_now (w : unit) : Z := 1700000000000.
Definition toISOString (t : Z) : string := Z_toString t.
Definition localStorage_getItem (key : string) (w : unit) : option string :=
  if key =? "pokesell_server_ip" then Some "192.168.1.20" else None.

Definition stored : JsVal := JArr [JObj [("id", JStr "c1")]].

Definition prices : JsVal :=
  JObj [("cacheExpiry", JStr "2030-01-01T00:00:00.000Z")].

Definition fetch (request : Request) (w : unit)
  : Completion Response Error * unit :=
  if (method request =? "GET") &&
     (url request =? "http://192.168.1.20:3001/api/cards")
  then (Return (Api.mkResponse true (Return stored)), w)
  else if (method request =? "POST") &&
          (url request =?
           "http://192.168.1.20:3001/api/market-data?force=true")
  then (Return (Api.mkResponse true (Return prices)), w)
  else (Throw (TypeError "Failed to fetch"), w).

End ClientSample.

(* ================================================================== *)
(** ** The provider token (services/marketDataService.ts)              *)
(* ================================================================== *)

Module Token.
Import Js Api Reconcile.

(** [tokenCache]: the token and its expiry, [None] for an expiry that is
    NaN. *)
Record TokenCache : Type := mkTokenCache {
  token : JsVal;
  expires : option Q
}.

Section Token.
Context {W : Type}.

(** [Date.now()]; whether [window.localStorage] exists; the saved keys, as
    the text that [JSON.parse] reads; the keys of the environment; the
    number that [*] makes of a value that is no number ([None] for NaN);
    the request for a token. *)
Variable Date_now : W -> Z.
Variable hasLocalStorage : W -> bool.
Variable savedKeys : W -> option ResponseText.
Variable envPublicKey : W -> JsVal.
Variable envPrivateKey : W -> JsVal.
Variable ToNumber : JsVal -> option Q.
Variable fetchToken : JsVal -> JsVal -> W -> Completion Response Error * W.

(** Get TCGPlayer credentials from environment or localStorage. *)
Definition getTCGPlayerConfig (w : W) : JsVal :=
  let fromEnv :=
    JObj [("publicKey", envPublicKey w); ("privateKey", envPrivateKey w)] in
  if hasLocalStorage w then
    match savedKeys w with
    | Some (JsonText v) => v
    | Some (NotJson _) => fromEnv
    | None => fromEnv
    end
  else fromEnv.

(** [x * 1000] *)
Definition timesThousand (x : JsVal) : option Q :=
  match x with
  | JNum q => Some (q * 1000)%Q
  | _ => option_map (fun q => (q * 1000)%Q) (ToNumber x)
  end.

(** [tokenCache && tokenCache.expires > Date.now()] *)
Definition cacheValid (tokenCache : option TokenCache) (w : W) : bool :=
  match tokenCache with
  | Some c =>
      match expires c with
      | Some t => View.Qltb (inject_Z (Date_now w)) t
      | None => false
      end
  | None => false
  end.

(** The body of the [try]: the request, and the new cache. *)
Definition requestToken (publicKey privateKey : JsVal) (w : W)
  : Completion TokenCache Error * W :=
  match fetchToken publicKey privateKey w with
  | (Throw e, w') => (Throw e, w')
  | (Return response, w') =>
      if negb (ok response)
      then (Throw (newError "TCGPlayer auth failed"), w')
      else
        (bind (json response) (fun data =>
         bind (get data "expires_in") (fun expires_in =>
         let expiresIn := timesThousand (or expires_in (JNum 3600)) in
         bind (get data "access_token") (fun access_token =>
         Return (mkTokenCache access_token
                   (option_map
                      (fun ms => (inject_Z (Date_now w') + ms - 60000)%Q)
                      expiresIn))))), w')
  end.

(** Get TCGPlayer bearer token: the answer, the cache afterwards and the
    world afterwards. *)
Definition getTCGPlayerToken (tokenCache : option TokenCache) (w : W)
  : Completion JsVal Error * option TokenCache * W :=
  let config := getTCGPlayerConfig w in
  match get config "publicKey" with
  | Throw e => (Throw e, tokenCache, w)
  | Return publicKey =>
      if negb (truthy publicKey) then (Return JNull, tokenCache, w)
      else
        match get config "privateKey" with
        | Throw e => (Throw e, tokenCache, w)
        | Return privateKey =>
            if negb (truthy privateKey) then (Return JNull, tokenCache, w)
            else if cacheValid tokenCache w then
              match tokenCache with
              | Some c => (Return (token c), tokenCache, w)
              | None => (Return JNull, tokenCache, w)
              end
            else
              match requestToken publicKey privateKey w with
              | (Return c, w') => (Return (token c), Some c, w')
              | (Throw _, w') => (Return JNull, tokenCache, w')
              end
        end
  end.
End Token.

End Token.

(** A provider of tokens that last one hour. *)
Module TokenSample.
Import Js Api Reconcile Token.

Definition Date_now (w : Z) : Z := w.
Definition hasLocalStorage (w : Z) : bool := true.
Definition savedKeys (w : Z) : option ResponseText :=
  Some (JsonText (JObj [("publicKey", JStr "pk"); ("privateKey", JStr "sk")])).
Definition noKeys (w : Z) : option ResponseText :=
  Some (JsonText (JObj [("publicKey", JStr ""); ("privateKey", JStr "sk")])).
Definition envKey (w : Z) : JsVal := JUndefined.
Definition ToNumber (v : JsVal) : option Q := None.

(** The answer takes 200 ms. *)
Definition fetchToken (publicKey privateKey : JsVal) (w : Z)
  : Completion Response Error * Z :=
  (Return (Api.mkResponse true
             (Return (JObj [("access_token", JStr "tok-1");
                            ("expires_in", JNum 3600)]))),
   (w + 200)%Z).

End TokenSample.

(* ================================================================== *)
(** ** The card routes of the server (server.js)                       *)
(* ================================================================== *)

Module Server.
Import Js.

(** The answer to a request: the status and the JSON or text sent. *)
Inductive Reply : Type :=
| Json (status : Z) (body : JsVal)
| Text (status : Z) (message : string).

(** [a === b] where [b] is a string. *)
Definition eqString (a : JsVal) (b : string) : bool :=
  match a with
  | JStr s => s =? b
  | _ => false
  end.

(** [cards.findIndex(c => c.id === id)], counting from [i]; [None] is -1. *)
Fixpoint findIndex (id : string) (i : nat) (cards : list JsVal)
  : Completion (option nat) Error :=
  match cards with
  | [] => Return None
  | c :: rest =>
      bind (get c "id") (fun cid =>
        if eqString cid id then Return (Some i)
        else findIndex id (S i) rest)
  end.

(** [cards[index] = value] for an index inside the list. *)
Fixpoint assignAt (index : nat) (value : JsVal) (cards : list JsVal)
  : list JsVal :=
  match cards, index with
  | [], _ => []
  | _ :: rest, O => value :: rest
  | c :: rest, S k => c :: assignAt k value rest
  end.

(** GET all cards. *)
Definition getCards (cards : list JsVal) : Reply * list JsVal :=
  (Json 200 (JArr cards), cards).

(** POST new card. *)
Definition postCard (body : JsVal) (cards : list JsVal) : Reply * list JsVal :=
  (Json 200 body, (cards ++ [body])%list).

(** UPDATE card; a throw is a handler that fails before it answers. *)
Definition putCard (id : string) (body : JsVal) (cards : list JsVal)
  : Completion (Reply * list JsVal) Error :=
  bind (findIndex id 0 cards) (fun index =>
    match index with
    | Some i => Return (Json 200 body, assignAt i body cards)
    | None => Return (Text 404 "Card not found", cards)
    end).

End Server.

(* ================================================================== *)
(** ** The inventory of the application (App.tsx)                      *)
(* ================================================================== *)

Module App.
Import Js Types.

Inductive ViewMode : Type :=
| DASHBOARD | SCANNER | INVENTORY | LISTINGS | DETAILS | SETTINGS.

Record State : Type := mkState {
  view : ViewMode;
  inventory : list CardMetadata;
  selectedCard : option CardMetadata
}.

(** [{ ...card, images: uploadedImages }] *)
Definition withImages (card : CardMetadata) (uploadedImages : list string)
  : CardMetadata :=
  mkCard (id card) (game card) (name card) (set card) (cardNumber card)
         (rarity card) (isHolo card) (grading card) (strictness card)
         uploadedImages (status card) (tags card) (suggestedPrice card)
         (agents card) (historicalData card) (groundingSources card)
         (cardIdentifier card) (marketData card) (listingInfo card).

(** [prev.map(c => c.id === updatedCard.id ? updatedCard : c)] *)
Definition replaceById (updatedCard : CardMetadata) (prev : list CardMetadata)
  : list CardMetadata :=
  map (fun c => if id c =? id updatedCard then updatedCard else c) prev.

(** [new Map(updatedCards.map(c => [c.id, c])).get(key)]: the last of the
    cards with that id. *)
Fixpoint mapGet (key : string) (updatedCards : list CardMetadata)
  : option CardMetadata :=
  match updatedCards with
  | [] => None
  | c :: rest =>
      match mapGet key rest with
      | Some later => Some later
      | None => if id c =? key then Some c else None
      end
  end.

(** [prev.map(c => updatedMap.get(c.id) || c)] *)
Definition replaceAll (updatedCards : list CardMetadata)
           (prev : list CardMetadata) : list CardMetadata :=
  map (fun c => match mapGet (id c) updatedCards with
                | Some u => u
                | None => c
                end) prev.

Section Handlers.
Context {W : Type}.

(** The calls of the client.  [uploadImage] catches every error of the
    upload and answers the image itself then, so it never rejects. *)
Variable uploadImage : string -> W -> string * W.
Variable saveCard : CardMetadata -> W -> Completion CardMetadata Error * W.
Variable updateCard : CardMetadata -> W -> Completion CardMetadata Error * W.

(** [Promise.all(card.images.map(img => api.uploadImage(img)))]: every upload
    is started, in the order of the images; the result is the list of the
    answers in that order. *)
Fixpoint uploadAll (images : list string) (w : W) : list string * W :=
  match images with
  | [] => ([], w)
  | img :: rest =>
      let (url, w') := uploadImage img w in
      let (urls, w'') := uploadAll rest w' in
      (url :: urls, w'')
  end.

Definition handleCardAnalyzed (card : CardMetadata) (s : State) (w : W)
  : State * W :=
  let (uploadedImages, w') := uploadAll (images card) w in
  let finalCard := withImages card uploadedImages in
  match saveCard finalCard w' with
  | (Return _, w'') =>
      (mkState DETAILS (inventory s ++ [finalCard])%list (Some finalCard), w'')
  | (Throw _, w'') => (s, w'')
  end.

Definition handleUpdateCard (updatedCard : CardMetadata) (s : State) (w : W)
  : State * W :=
  match updateCard updatedCard w with
  | (Return _, w') =>
      (mkState (view s) (replaceById updatedCard (inventory s))
               (selectedCard s), w')
  | (Throw _, w') => (s, w')
  end.

(** The loop [for (const card of updatedCards) await api.updateCard(card)]. *)
Fixpoint updateEach (updatedCards : list CardMetadata) (w : W)
  : Completion unit Error * W :=
  match updatedCards with
  | [] => (Return tt, w)
  | card :: rest =>
      match updateCard card w with
      | (Return _, w') => updateEach rest w'
      | (Throw e, w') => (Throw e, w')
      end
  end.

Definition handleUpdateCards (updatedCards : list CardMetadata) (s : State)
           (w : W) : State * W :=
  match updateEach updatedCards w with
  | (Return _, w') =>
      (mkState (view s) (replaceAll updatedCards (inventory s))
               (selectedCard s), w')
  | (Throw _, w') => (s, w')
  end.
End Handlers.

End App.

(** The calls of [updateCard] written down in the order they are made, and
    sample calls of the client. *)
Module AppSample.
Import Js Reconcile Types App.

Definition loggedUpdate {W : Type}
           (updateCard : CardMetadata -> W -> Completion CardMetadata Error * W)
           (card : CardMetadata) (wl : W * list CardMetadata)
  : Completion CardMetadata Error * (W * list CardMetadata) :=
  let (r, w') := updateCard card (fst wl) in
  (r, (w', (snd wl ++ [card])%list)).

Definition uploadImage (img : string) (w : unit) : string * unit :=
  ("http://192.168.1.20:3001/uploads/" ++ img, w).

Definition saveCard (card : CardMetadata) (w : unit)
  : Completion CardMetadata Error * unit := (Return card, w).

(** A server that refuses the card with id C. *)
Definition updateCard (card : CardMetadata) (w : unit)
  : Completion CardMetadata Error * unit :=
  if id card =? "C" then (Throw (newError "Update failed"), w)
  else (Return card, w).

Definition scanned : CardMetadata :=
  mkCard "c9" "Pokemon" "Mew" "Promo" "8" "Rare" true CardSamples.nmGrading
         standard ["front.jpg"; "back.jpg"] Types.inventory []
         (mkSuggested 20 30 40) CardSamples.noAgents [] [] None None None.

End AppSample.

(* ================================================================== *)
(** * Properties                                                       *)
(* ================================================================== *)

(** ** Strings *)

Section StringFacts.
Import Js.

Lemma string_app_assoc (a b c : string) : (a ++ b) ++ c = a ++ (b ++ c).
Proof.
  induction a as [|x a IH]; simpl; [reflexivity | now rewrite IH].
Qed.

Lemma string_app_empty_r (a : string) : a ++ "" = a.
Proof.
  induction a as [|x a IH]; simpl; [reflexivity | now rewrite IH].
Qed.

Lemma startsWith_spec (s sub : string) :
  startsWith s sub = true <-> exists rest, s = sub ++ rest.
Proof.
  revert s; induction sub as [|c sub IH]; intros s; simpl.
  - split; [intros _; now exists s | intros _; now destruct s].
  - destruct s as [|d s]; simpl.
    + split; [discriminate | intros [rest H]; discriminate].
    + rewrite andb_true_iff, IH. split.
      * intros [Hc [rest ->]]. apply Ascii.eqb_eq in Hc. subst d. now exists rest.
      * intros [rest H]. injection H as -> ->. split.
        -- apply Ascii.eqb_refl.
        -- now exists rest.
Qed.

Lemma includes_spec (s sub : string) :
  includes s sub = true <-> Substring sub s.
Proof.
  unfold Substring. induction s as [|d s IH].
  - cbn [includes]. rewrite orb_false_r, startsWith_spec. split.
    + intros [rest H]. now exists "", rest.
    + intros [pre [post H]]. destruct pre; [now exists post | discriminate].
  - cbn [includes]. rewrite orb_true_iff, startsWith_spec, IH. split.
    + intros [[rest H] | [pre [post H]]].
      * now exists "", rest.
      * exists (String d pre), post. simpl. now rewrite H.
    + intros [pre [post H]]. destruct pre as [|x pre].
      * left. now exists post.
      * right. simpl in H. injection H as _ H. now exists pre, post.
Qed.

Lemma Substring_refl (s : string) : Substring s s.
Proof. exists "", "". simpl. now rewrite string_app_empty_r. Qed.

Lemma Substring_empty (s : string) : Substring "" s.
Proof. now exists "", s. Qed.

Lemma Substring_app_l (sub s pre : string) :
  Substring sub s -> Substring sub (pre ++ s).
Proof.
  intros [a [b ->]]. exists (pre ++ a), b. now rewrite string_app_assoc.
Qed.

Lemma Substring_app_r (sub s post : string) :
  Substring sub s -> Substring sub (s ++ post).
Proof.
  intros [a [b ->]]. exists a, (b ++ post). now rewrite !string_app_assoc.
Qed.

Lemma Substring_join (sep x : string) (xs : list string) :
  In x xs -> Substring x (join sep xs).
Proof.
  induction xs as [|y ys IH]; [intros [] |].
  intros [-> | Hin].
  - destruct ys; simpl; [apply Substring_refl |].
    apply Substring_app_r, Substring_refl.
  - destruct ys as [|z zs]; [destruct Hin |].
    change (join sep (y :: z :: zs)) with (y ++ sep ++ join sep (z :: zs)).
    now apply Substring_app_l, Substring_app_l, IH.
Qed.

End StringFacts.

(** ** The fallback invoker *)

Section FallbackFacts.
Import Js Fallback.
Context {T W : Type}.
Variable operation : string -> W -> Completion T Error * W.

(** A run of retryable failures takes the loop to the next candidate, with
    the errors recorded. *)
Lemma tryLoop_skip (pre rest : list string) :
  forall lastError errs w cs w1,
    attempts operation pre w = (cs, w1) ->
    forallb failsRetryable cs = true ->
    tryLoop operation (pre ++ rest)%list lastError errs w =
    tryLoop operation rest (lastThrown lastError (thrown cs))
            (errs ++ map recordedCode (thrown cs))%list w1.
Proof.
  induction pre as [|m pre IH]; intros lastError errs w cs w1 Hatt Hall.
  - cbn in Hatt. injection Hatt as <- <-. cbn. now rewrite app_nil_r.
  - cbn [attempts] in Hatt. cbn [app tryLoop].
    destruct (operation m w) as [c w'] eqn:Hop.
    destruct (attempts operation pre w') as [cs' w''] eqn:Hrest.
    injection Hatt as <- <-. cbn [forallb] in Hall.
    apply andb_true_iff in Hall as [Hc Hcs].
    destruct c as [r|e]; cbn in Hc; [discriminate |].
    rewrite Hc. rewrite (IH _ _ _ _ _ Hrest Hcs).
    cbn [thrown map lastThrown fold_left]. now rewrite <- app_assoc.
Qed.

Lemma attempts_logged (models : list string) :
  forall w log cs w1,
    attempts operation models w = (cs, w1) ->
    attempts (logged operation) models (w, log) =
    (cs, (w1, (log ++ models)%list)).
Proof.
  induction models as [|m models IH]; intros w log cs w1 Hatt.
  - cbn in *. injection Hatt as <- <-. now rewrite app_nil_r.
  - cbn [attempts] in *. unfold logged at 1.
    destruct (operation m w) as [c w'] eqn:Hop.
    destruct (attempts operation models w') as [cs' w''] eqn:Hrest.
    injection Hatt as <- <-.
    rewrite (IH _ (log ++ [m])%list _ _ Hrest). now rewrite <- app_assoc.
Qed.

(** The candidates called are an initial segment of the list, in order. *)
Lemma tryLoop_logged_prefix (models : list string) :
  forall lastError errs w log,
  exists called rest,
    models = (called ++ rest)%list /\
    snd (snd (tryLoop (logged operation) models lastError errs (w, log))) =
    (log ++ called)%list.
Proof.
  induction models as [|m models IH]; intros lastError errs w log.
  - exists [], []. cbn. now rewrite app_nil_r.
  - cbn [tryLoop]. unfold logged at 1.
    destruct (operation m w) as [[r|e] w'] eqn:Hop.
    + exists [m], models. now cbn.
    + destruct (isRetryable e).
      * destruct (IH (Some e) (errs ++ [recordedCode e])%list w' (log ++ [m])%list)
          as [called [rest [-> Hlog]]].
        exists (m :: called), rest. split; [reflexivity |].
        rewrite Hlog. now rewrite <- app_assoc.
      * exists [m], models. now cbn.
Qed.

(** A returned result is the result of the first call that did not fail,
    and every call before it failed with a retryable error. *)
Lemma tryLoop_return_inv (models : list string) :
  forall lastError errs w result model w',
    tryLoop operation models lastError errs w = (Return (result, model), w') ->
    exists pre post cs w1,
      models = (pre ++ model :: post)%list /\
      attempts operation pre w = (cs, w1) /\
      forallb failsRetryable cs = true /\
      operation model w1 = (Return result, w').
Proof.
  induction models as [|m models IH]; intros lastError errs w result model w' H.
  - discriminate H.
  - cbn [tryLoop] in H. destruct (operation m w) as [[r|e] w0] eqn:Hop.
    + injection H as -> -> ->. exists [], models, [], w. now cbn.
    + destruct (isRetryable e) eqn:He; [| discriminate H].
      destruct (IH _ _ _ _ _ _ H) as [pre [post [cs [w1 [-> [Hatt [Hall Hlast]]]]]]].
      exists (m :: pre), post, (Throw e :: cs), w1. repeat split; auto.
      * cbn [attempts]. now rewrite Hop, Hatt.
      * cbn. now rewrite He, Hall.
Qed.

End FallbackFacts.

Section FallbackClaims.
Import Js Fallback.

(** C1.  The invoker calls the candidates in list order: the candidates
    called are an initial segment of the list.  When the calls before a
    candidate fail with retryable errors and that candidate's call succeeds,
    the invoker returns its result paired with its identifier, and the log of
    calls ends with that candidate: no later candidate is called.
    Conversely a returned result is always the result of the first call that
    succeeded, paired with the model of that call. *)
Theorem fallback_first_success :
  forall (T W : Type) (operation : string -> W -> Completion T Error * W),
    (forall models w,
        exists called rest,
          models = (called ++ rest)%list /\
          snd (snd (tryWithFallback (logged operation) models (w, []))) = called) /\
    (forall pre post model result w w1 w2 failures,
        attempts operation pre w = (failures, w1) ->
        forallb failsRetryable failures = true ->
        operation model w1 = (Return result, w2) ->
        tryWithFallback (logged operation) (pre ++ model :: post)%list (w, []) =
        (Return (result, model), (w2, (pre ++ [model])%list))) /\
    (forall models w result model w',
        tryWithFallback operation models w = (Return (result, model), w') ->
        exists pre post failures w1,
          models = (pre ++ model :: post)%list /\
          attempts operation pre w = (failures, w1) /\
          forallb failsRetryable failures = true /\
          operation model w1 = (Return result, w')).
Proof.
  intros T W operation. split; [| split].
  - intros models w.
    destruct (tryLoop_logged_prefix operation models None [] w [])
      as [called [rest [Hm Hlog]]].
    exists called, rest. split; [exact Hm | exact Hlog].
  - intros pre post model result w w1 w2 failures Hatt Hall Hop.
    unfold tryWithFallback.
    rewrite (tryLoop_skip (logged operation) pre (model :: post) None [] (w, [])
               failures (w1, pre)).
    + cbn [tryLoop]. unfold logged at 1. now rewrite Hop.
    + now rewrite (attempts_logged operation pre w [] failures w1 Hatt).
    + exact Hall.
  - intros models w result model w' H.
    exact (tryLoop_return_inv operation models None [] w result model w' H).
Qed.

Lemma fallback_first_success_witness :
  tryWithFallback (logged Samples.provider) ["m1"; "m2"; "m3"; "m4"] (tt, []) =
  (Return (7%Z, "m3"), (tt, ["m1"; "m2"; "m3"])).
Proof.
  exact (proj1 (proj2 (fallback_first_success Z unit Samples.provider))
           ["m1"; "m2"] ["m4"] "m3" 7%Z tt tt tt
           [Throw Samples.notFound; Throw Samples.overQuota]
           eq_refl eq_refl eq_refl).
Defined.

(** C2.  A failure is retryable exactly when its extracted status is the
    number 404 or 429, or its extracted message contains "not found",
    "quota", "NOT_FOUND" or "exceeded".  When the calls before a candidate
    fail with retryable errors and that candidate's call fails with an error
    that is not retryable, the invoker throws that very error, and the log of
    calls ends with that candidate: no later candidate is called. *)
Theorem fatal_short_circuit :
  forall (T W : Type) (operation : string -> W -> Completion T Error * W),
    (forall e,
        isRetryable e = true <->
        (extractStatus e = Some (CNum 404) \/
         extractStatus e = Some (CNum 429) \/
         Substring "not found" (extractMessage e) \/
         Substring "quota" (extractMessage e) \/
         Substring "NOT_FOUND" (extractMessage e) \/
         Substring "exceeded" (extractMessage e))) /\
    (forall pre post model e w w1 w2 failures,
        attempts operation pre w = (failures, w1) ->
        forallb failsRetryable failures = true ->
        operation model w1 = (Throw e, w2) ->
        isRetryable e = false ->
        tryWithFallback (logged operation) (pre ++ model :: post)%list (w, []) =
        (Throw e, (w2, (pre ++ [model])%list))).
Proof.
  intros T W operation. split.
  - intros e. unfold isRetryable.
    rewrite !orb_true_iff, !includes_spec.
    assert (Hnum : forall n, strictEqNum (extractStatus e) n = true <->
                             extractStatus e = Some (CNum n)).
    { intros n. destruct (extractStatus e) as [[m|s]|]; cbn.
      - rewrite Z.eqb_eq. split; [now intros -> | now intros [= ->]].
      - split; discriminate.
      - split; discriminate. }
    rewrite !Hnum. tauto.
  - intros pre post model e w w1 w2 failures Hatt Hall Hop Hfatal.
    unfold tryWithFallback.
    rewrite (tryLoop_skip (logged operation) pre (model :: post) None [] (w, [])
               failures (w1, pre)).
    + cbn [tryLoop]. unfold logged at 1. now rewrite Hop, Hfatal.
    + now rewrite (attempts_logged operation pre w [] failures w1 Hatt).
    + exact Hall.
Qed.

Lemma fatal_short_circuit_witness :
  tryWithFallback (logged Samples.provider) ["m1"; "m0"; "m3"] (tt, []) =
  (Throw Samples.badKey, (tt, ["m1"; "m0"])).
Proof.
  exact (proj2 (fatal_short_circuit Z unit Samples.provider)
           ["m1"] ["m3"] "m0" Samples.badKey tt tt tt
           [Throw Samples.notFound] eq_refl eq_refl eq_refl eq_refl).
Defined.

End FallbackClaims.

Section ExhaustionClaim.
Import Js Fallback.

Lemma codeEqb_eq (a b : Code) : codeEqb a b = true <-> a = b.
Proof.
  destruct a as [n|s], b as [m|t]; cbn.
  - rewrite Z.eqb_eq. split; [now intros -> | now intros [= ->]].
  - split; discriminate.
  - split; discriminate.
  - rewrite String.eqb_eq. split; [now intros -> | now intros [= ->]].
Qed.

Lemma setAdd_In (seen : list Code) (c x : Code) :
  In x (setAdd seen c) <-> In x seen \/ x = c.
Proof.
  induction seen as [|d seen IH]; cbn.
  - intuition congruence.
  - destruct (codeEqb d c) eqn:Hdc.
    + apply codeEqb_eq in Hdc. subst d. cbn. intuition congruence.
    + cbn. rewrite IH. tauto.
Qed.

Lemma setAdd_NoDup (seen : list Code) (c : Code) :
  NoDup seen -> NoDup (setAdd seen c).
Proof.
  induction seen as [|d seen IH]; cbn; intros Hnd.
  - constructor; [intros [] | constructor].
  - destruct (codeEqb d c) eqn:Hdc; [exact Hnd |].
    inversion Hnd as [|? ? Hnotin Hnd']; subst.
    constructor; [| now apply IH].
    rewrite setAdd_In. intros [Hin | ->]; [contradiction |].
    assert (codeEqb c c = true) by now apply codeEqb_eq.
    congruence.
Qed.

Lemma fold_setAdd_In (xs seen : list Code) (x : Code) :
  In x (fold_left setAdd xs seen) <-> In x seen \/ In x xs.
Proof.
  revert seen; induction xs as [|c xs IH]; intros seen; cbn.
  - tauto.
  - rewrite IH, setAdd_In. intuition congruence.
Qed.

Lemma fold_setAdd_NoDup (xs seen : list Code) :
  NoDup seen -> NoDup (fold_left setAdd xs seen).
Proof.
  revert seen; induction xs as [|c xs IH]; intros seen Hnd; cbn.
  - exact Hnd.
  - now apply IH, setAdd_NoDup.
Qed.

Lemma distinct_In (xs : list Code) (x : Code) :
  In x (distinct xs) <-> In x xs.
Proof. unfold distinct. rewrite fold_setAdd_In. cbn. tauto. Qed.

Lemma distinct_NoDup (xs : list Code) : NoDup (distinct xs).
Proof. apply fold_setAdd_NoDup. constructor. Qed.

Lemma attempts_length {T W} (operation : string -> W -> Completion T Error * W)
      (models : list string) :
  forall w cs w1,
    attempts operation models w = (cs, w1) ->
    List.length cs = List.length models.
Proof.
  induction models as [|m models IH]; intros w cs w1 H; cbn [attempts] in H.
  - now injection H as <- <-.
  - destruct (operation m w) as [c w'].
    destruct (attempts operation models w') as [cs' w''] eqn:Hrest.
    injection H as <- <-. cbn. f_equal. exact (IH _ _ _ Hrest).
Qed.

Lemma thrown_length {T} (cs : list (Completion T Error)) :
  forallb failsRetryable cs = true ->
  List.length (thrown cs) = List.length cs.
Proof.
  induction cs as [|[r|e] cs IH]; cbn; intros H.
  - reflexivity.
  - discriminate.
  - apply andb_true_iff in H as [_ H]. f_equal. now apply IH.
Qed.

Lemma lastThrown_last (lastError : option Error) (es : list Error) (e : Error) :
  lastThrown lastError (es ++ [e])%list = Some e.
Proof. unfold lastThrown. now rewrite fold_left_app. Qed.

Lemma extractMessage_in_last (e : Error) (pre : string) :
  Substring (extractMessage e) (pre ++ orLit (rawMessage e) "Unknown error").
Proof.
  unfold extractMessage. destruct (rawMessage e) as [s|]; cbn.
  - destruct (s =? "") eqn:Hs.
    + apply Substring_empty.
    + apply Substring_app_l, Substring_refl.
  - apply Substring_empty.
Qed.

Lemma recordedCode_status (e : Error) (c : Code) :
  status e = Some c -> codeTruthy (Some c) = true -> recordedCode e = c.
Proof.
  intros Hs Ht. unfold recordedCode, extractStatus, orCode.
  rewrite Hs. repeat (rewrite Ht; cbn iota). reflexivity.
Qed.

Lemma recordedCode_code (e : Error) (c : Code) :
  status e = None -> code e = Some c -> codeTruthy (Some c) = true ->
  recordedCode e = c.
Proof.
  intros Hs Hc Ht. unfold recordedCode, extractStatus, orCode.
  rewrite Hs, Hc. cbn [codeTruthy] in *. repeat (rewrite Ht; cbn iota).
  reflexivity.
Qed.

Lemma recordedCode_inner (e : Error) (i : InnerError) (c : Code) :
  status e = None -> code e = None -> error e = Some i ->
  inner_code i = Some c -> codeTruthy (Some c) = true ->
  recordedCode e = c.
Proof.
  intros Hs Hc He Hi Ht. unfold recordedCode, extractStatus, orCode.
  rewrite Hs, Hc, He, Hi. cbn [codeTruthy] in *.
  repeat (rewrite Ht; cbn iota). reflexivity.
Qed.

Lemma recordedCode_none (e : Error) :
  status e = None -> code e = None -> error e = None ->
  recordedCode e = CNum 0.
Proof.
  intros Hs Hc He. unfold recordedCode, extractStatus, orCode.
  now rewrite Hs, Hc, He.
Qed.

(** C3.  When the list is not empty and every call fails with a retryable
    error, every candidate is called and the invoker throws one error whose
    message is "All models failed. Errors encountered: ", the recorded codes
    without repetition, ". Last error: " and the message of the last error.
    The code of each failed call occurs in the message: the decimal text of
    a numeric status such as 404, the text of a string status, the code or
    the inner code when there is no status, and 0 for a failure that has
    none of them.  The message ends with the message of the last error: its
    own message, else the message of its inner error, else "Unknown error". *)
Theorem exhaustion_aggregate :
  forall (T W : Type) (operation : string -> W -> Completion T Error * W)
         (models : list string) (w w1 : W)
         (failures : list (Completion T Error)),
    models <> [] ->
    attempts operation models w = (failures, w1) ->
    forallb failsRetryable failures = true ->
    exists earlier lastError msg,
      thrown failures = (earlier ++ [lastError])%list /\
      tryWithFallback (logged operation) models (w, []) =
      (Throw (newError msg), (w1, models)) /\
      msg = "All models failed. Errors encountered: " ++
            join ", " (map codeToString
                           (distinct (map recordedCode (thrown failures)))) ++
            ". Last error: " ++ orLit (rawMessage lastError) "Unknown error" /\
      NoDup (distinct (map recordedCode (thrown failures))) /\
      (forall e, In e (thrown failures) ->
                 In (recordedCode e)
                    (distinct (map recordedCode (thrown failures))) /\
                 Substring (codeToString (recordedCode e)) msg) /\
      Substring (extractMessage lastError) msg /\
      (forall e n,
          In e (thrown failures) -> status e = Some (CNum n) -> n <> 0%Z ->
          exists pre post,
            msg = pre ++ NilZero.string_of_int (Z.to_int n) ++ post) /\
      (forall e s,
          In e (thrown failures) -> status e = Some (CStr s) -> s <> "" ->
          exists pre post, msg = pre ++ s ++ post) /\
      (forall e n,
          In e (thrown failures) -> status e = None ->
          code e = Some (CNum n) -> n <> 0%Z ->
          exists pre post,
            msg = pre ++ NilZero.string_of_int (Z.to_int n) ++ post) /\
      (forall e i n,
          In e (thrown failures) -> status e = None -> code e = None ->
          error e = Some i -> inner_code i = Some (CNum n) -> n <> 0%Z ->
          exists pre post,
            msg = pre ++ NilZero.string_of_int (Z.to_int n) ++ post) /\
      (forall e,
          In e (thrown failures) -> status e = None -> code e = None ->
          error e = None ->
          exists pre post, msg = pre ++ "0" ++ post) /\
      (forall m,
          message lastError = Some m -> m <> "" ->
          exists pre, msg = pre ++ ". Last error: " ++ m) /\
      (forall i m,
          message lastError = None -> error lastError = Some i ->
          inner_message i = Some m -> m <> "" ->
          exists pre, msg = pre ++ ". Last error: " ++ m) /\
      (message lastError = None -> error lastError = None ->
       exists pre, msg = pre ++ ". Last error: Unknown error").
Proof.
  intros T W operation models w w1 failures Hne Hatt Hall.
  assert (Hlen : List.length (thrown failures) = List.length models).
  { rewrite (thrown_length failures Hall).
    exact (attempts_length operation models w failures w1 Hatt). }
  destruct (exists_last (l := thrown failures)) as [earlier [lastError Hlast]].
  { intros Hnil. rewrite Hnil in Hlen. destruct models; [congruence | discriminate]. }
  set (codes := join ", " (map codeToString
                  (distinct (map recordedCode (thrown failures))))).
  set (msg := "All models failed. Errors encountered: " ++ codes ++
              ". Last error: " ++ orLit (rawMessage lastError) "Unknown error").
  assert (Hcode : forall e, In e (thrown failures) ->
                            Substring (codeToString (recordedCode e)) msg).
  { intros e Hin. apply Substring_app_l, Substring_app_r.
    apply Substring_join, in_map, distinct_In, in_map, Hin. }
  assert (Hend : exists pre,
             msg = pre ++ ". Last error: " ++
                   orLit (rawMessage lastError) "Unknown error").
  { exists ("All models failed. Errors encountered: " ++ codes).
    unfold msg. now rewrite !string_app_assoc. }
  exists earlier, lastError, msg. split; [exact Hlast |].
  split; [| split; [reflexivity | split; [apply distinct_NoDup | split]]].
  - unfold tryWithFallback.
    rewrite <- (app_nil_r models) at 1.
    rewrite (tryLoop_skip (logged operation) models [] None [] (w, [])
               failures (w1, models)).
    + cbn [tryLoop app]. unfold allFailed, errorSummary.
      replace (lastThrown None (thrown failures)) with (Some lastError)
        by (rewrite Hlast; symmetry; apply lastThrown_last).
      replace (0 <? List.length (map recordedCode (thrown failures)))%nat with true.
      * unfold msg, codes. now rewrite !string_app_assoc.
      * symmetry. apply Nat.ltb_lt. rewrite length_map, Hlen.
        destruct models; [congruence | cbn; lia].
    + now rewrite (attempts_logged operation models w [] failures w1 Hatt).
    + exact Hall.
  - intros e Hin. split; [| exact (Hcode e Hin)].
    apply distinct_In, in_map, Hin.
  - split; [unfold msg; rewrite <- !string_app_assoc;
            apply extractMessage_in_last |].
    split; [| split; [| split; [| split; [| split; [| split; [| split]]]]]].
    + intros e n Hin Hs Hn. specialize (Hcode e Hin).
      rewrite (recordedCode_status e (CNum n) Hs) in Hcode; [exact Hcode |].
      cbn. now apply negb_true_iff, Z.eqb_neq.
    + intros e t Hin Hs Ht. specialize (Hcode e Hin).
      rewrite (recordedCode_status e (CStr t) Hs) in Hcode; [exact Hcode |].
      cbn. now apply negb_true_iff, String.eqb_neq.
    + intros e n Hin Hs Hc Hn. specialize (Hcode e Hin).
      rewrite (recordedCode_code e (CNum n) Hs Hc) in Hcode; [exact Hcode |].
      cbn. now apply negb_true_iff, Z.eqb_neq.
    + intros e i n Hin Hs Hc He Hi Hn. specialize (Hcode e Hin).
      rewrite (recordedCode_inner e i (CNum n) Hs Hc He Hi) in Hcode;
        [exact Hcode |].
      cbn. now apply negb_true_iff, Z.eqb_neq.
    + intros e Hin Hs Hc He. specialize (Hcode e Hin).
      now rewrite (recordedCode_none e Hs Hc He) in Hcode.
    + intros m Hm Hne'. destruct Hend as [pre Hend]. exists pre.
      rewrite Hend. unfold rawMessage, orStr. rewrite Hm. cbn.
      apply String.eqb_neq in Hne'. rewrite Hne'. cbn. now rewrite Hne'.
    + intros i m Hm He Hi Hne'. destruct Hend as [pre Hend]. exists pre.
      rewrite Hend. unfold rawMessage, orStr. rewrite Hm, He, Hi. cbn.
      apply String.eqb_neq in Hne'. now rewrite Hne'.
    + intros Hm He. destruct Hend as [pre Hend]. exists pre.
      rewrite Hend. unfold rawMessage, orStr. now rewrite Hm, He.
Qed.

Lemma exhaustion_aggregate_witness :
  tryWithFallback (logged Samples.provider) ["m1"; "m2"; "m1"] (tt, []) =
  (Throw (mkError "Error"
            (Some "All models failed. Errors encountered: 404, 429. Last error: model is not available")
            None None None),
   (tt, ["m1"; "m2"; "m1"])).
Proof.
  destruct (exhaustion_aggregate Z unit Samples.provider ["m1"; "m2"; "m1"]
              tt tt
              [Throw Samples.notFound; Throw Samples.overQuota;
               Throw Samples.notFound])
    as [earlier [lastError [msg [Hthrown [Hrun [Hmsg _]]]]]];
    [discriminate | reflexivity | reflexivity |].
  change (@thrown Z [Throw Samples.notFound; Throw Samples.overQuota;
                     Throw Samples.notFound])
    with ([Samples.notFound; Samples.overQuota] ++ [Samples.notFound])%list
    in Hthrown.
  apply app_inj_tail in Hthrown. destruct Hthrown as [_ Hlast].
  rewrite Hrun, Hmsg, <- Hlast. reflexivity.
Defined.

End ExhaustionClaim.

(** ** Objects *)

Section ObjectFacts.
Import Js.

Lemma lookup_define_same (k : string) (v : JsVal) (props : list (string * JsVal)) :
  lookup k (define k v props) = v.
Proof.
  induction props as [|[k' v'] props IH]; cbn.
  - now rewrite String.eqb_refl.
  - destruct (k' =? k) eqn:Hk; cbn.
    + now rewrite String.eqb_refl.
    + now rewrite Hk.
Qed.

Lemma lookup_define_other (k k' : string) (v : JsVal)
      (props : list (string * JsVal)) :
  k <> k' -> lookup k (define k' v props) = lookup k props.
Proof.
  intros Hne. induction props as [|[k0 v0] props IH]; cbn.
  - destruct (k' =? k) eqn:Hk; [| reflexivity].
    apply String.eqb_eq in Hk. congruence.
  - destruct (k0 =? k') eqn:Hk0; cbn.
    + apply String.eqb_eq in Hk0. subst k0.
      destruct (k' =? k) eqn:Hk; [| reflexivity].
      apply String.eqb_eq in Hk. congruence.
    + destruct (k0 =? k); [reflexivity | exact IH].
Qed.

Lemma or_missing (v d : JsVal) :
  v = JUndefined \/ v = JNull -> or v d = d.
Proof. now intros [-> | ->]. Qed.

End ObjectFacts.

(** ** Building a card from a response *)

Section ReconcileClaims.
Import Js Reconcile.

(** The fields that [analyzeCard] adds do not hide a field of the parsed
    response. *)
Lemma result_lookup (strictness : StrictnessLevel) (data : JsVal) (k : string) :
  k <> "strictness" -> k <> "groundingSources" ->
  lookup k (define "groundingSources" (JArr [])
              (define "strictness" (JStr (strictnessName strictness))
                 (spread data))) = lookup k (spread data).
Proof.
  intros H1 H2. now rewrite !lookup_define_other.
Qed.

(** C4.  Whatever JSON value the response parses to, building the new card
    does not throw, and every top-level field that is absent or null in it
    takes its default: the placeholders for game, name, set, number and
    rarity, [false] for the holo flag, the all-NM grading with empty
    reasoning, the zero price triple, the three agent placeholders (each with
    price 0 and confidence 0), the empty history and the empty identifier.
    The only failure is the SyntaxError of a response that is not JSON. *)
Theorem reconcile_defaults :
  forall (id : string) (capturedImages : list string)
         (strictness : StrictnessLevel) (data : JsVal),
    (exists card,
        reconcile id capturedImages strictness (mkResponse (JsonText data)) =
        Return (JObj card) /\
        (missing "game" data -> lookup "game" card = JStr "Unknown TCG") /\
        (missing "name" data -> lookup "name" card = JStr "Unknown Card") /\
        (missing "set" data -> lookup "set" card = JStr "Unknown Set") /\
        (missing "cardNumber" data -> lookup "cardNumber" card = JStr "???") /\
        (missing "rarity" data -> lookup "rarity" card = JStr "Common") /\
        (missing "isHolo" data -> lookup "isHolo" card = JBool false) /\
        (missing "grading" data ->
         lookup "grading" card =
         JObj [ ("centering", JStr "NM"); ("centeringReasoning", JStr "");
                ("corners", JStr "NM"); ("cornersReasoning", JStr "");
                ("edges", JStr "NM"); ("edgesReasoning", JStr "");
                ("surface", JStr "NM"); ("surfaceReasoning", JStr "");
                ("overallCondition", JStr "NM"); ("overallNotes", JStr "") ]) /\
        (missing "suggestedPrice" data ->
         lookup "suggestedPrice" card =
         JObj [ ("low", JNum 0); ("mid", JNum 0); ("high", JNum 0) ]) /\
        (missing "agents" data ->
         exists conservative market speculative,
           lookup "agents" card =
           JObj [ ("conservative", JObj conservative);
                  ("market", JObj market);
                  ("speculative", JObj speculative) ] /\
           Forall (fun a => lookup "price" a = JNum 0 /\
                            lookup "confidence" a = JNum 0)
                  [conservative; market; speculative]) /\
        (missing "historicalData" data ->
         lookup "historicalData" card = JArr []) /\
        (missing "cardIdentifier" data ->
         lookup "cardIdentifier" card = JStr "")) /\
    (forall response e,
        reconcile id capturedImages strictness response = Throw e ->
        exists raw, text response = NotJson raw /\
                    e = SyntaxError "Unexpected token in JSON").
Proof.
  intros id capturedImages strictness data. split.
  - eexists. split; [cbn; reflexivity |].
    repeat split; intros Hmiss; unfold missing in Hmiss; cbn [lookup String.eqb Ascii.eqb Bool.eqb];
      rewrite result_lookup by discriminate;
      rewrite (or_missing _ _ Hmiss); try reflexivity.
    eexists _, _, _. split; [reflexivity |].
    repeat constructor.
  - intros [[v | raw]] e H; cbn in H.
    + discriminate H.
    + injection H as <-. now exists raw.
Qed.

Lemma reconcile_defaults_witness :
  reconcile "k3x9" ["data:image/jpeg;base64,AAAA"] standard
            (mkResponse (JsonText (JObj [("name", JStr "Pikachu");
                                         ("agents", JNull)]))) =
  Return (JObj
    [ ("id", JStr "k3x9");
      ("game", JStr "Unknown TCG");
      ("name", JStr "Pikachu");
      ("set", JStr "Unknown Set");
      ("cardNumber", JStr "???");
      ("rarity", JStr "Common");
      ("isHolo", JBool false);
      ("strictness", JStr "standard");
      ("grading",
       JObj [ ("centering", JStr "NM"); ("centeringReasoning", JStr "");
              ("corners", JStr "NM"); ("cornersReasoning", JStr "");
              ("edges", JStr "NM"); ("edgesReasoning", JStr "");
              ("surface", JStr "NM"); ("surfaceReasoning", JStr "");
              ("overallCondition", JStr "NM"); ("overallNotes", JStr "") ]);
      ("images", JArr [JStr "data:image/jpeg;base64,AAAA"]);
      ("status", JStr "inventory");
      ("tags", JArr []);
      ("suggestedPrice",
       JObj [ ("low", JNum 0); ("mid", JNum 0); ("high", JNum 0) ]);
      ("agents",
       JObj [ ("conservative",
               JObj [ ("id", JStr "1"); ("name", JStr "Shopkeeper");
                      ("persona", JStr "Conservative"); ("price", JNum 0);
                      ("reasoning", JStr ""); ("confidence", JNum 0) ]);
              ("market",
               JObj [ ("id", JStr "2"); ("name", JStr "Collector");
                      ("persona", JStr "Market"); ("price", JNum 0);
                      ("reasoning", JStr ""); ("confidence", JNum 0) ]);
              ("speculative",
               JObj [ ("id", JStr "3"); ("name", JStr "Investor");
                      ("persona", JStr "Speculative"); ("price", JNum 0);
                      ("reasoning", JStr ""); ("confidence", JNum 0) ]) ]);
      ("historicalData", JArr []);
      ("groundingSources", JArr []);
      ("cardIdentifier", JStr "") ]) /\
  (forall card,
      reconcile "k3x9" ["data:image/jpeg;base64,AAAA"] standard
                (mkResponse (JsonText (JObj [("name", JStr "Pikachu");
                                             ("agents", JNull)]))) =
      Return (JObj card) ->
      lookup "grading" card =
      JObj [ ("centering", JStr "NM"); ("centeringReasoning", JStr "");
             ("corners", JStr "NM"); ("cornersReasoning", JStr "");
             ("edges", JStr "NM"); ("edgesReasoning", JStr "");
             ("surface", JStr "NM"); ("surfaceReasoning", JStr "");
             ("overallCondition", JStr "NM"); ("overallNotes", JStr "") ] /\
      lookup "suggestedPrice" card =
      JObj [ ("low", JNum 0); ("mid", JNum 0); ("high", JNum 0) ]).
Proof.
  destruct (reconcile_defaults "k3x9" ["data:image/jpeg;base64,AAAA"] standard
              (JObj [("name", JStr "Pikachu"); ("agents", JNull)]))
    as [[card [Hcard [_ [_ [_ [_ [_ [_ [Hgrading [Hprice _]]]]]]]]]] _].
  split; [reflexivity |].
  intros card' Hcard'. rewrite Hcard in Hcard'. injection Hcard' as <-.
  split; [apply Hgrading | apply Hprice]; left; reflexivity.
Defined.

End ReconcileClaims.

(** ** Merging a regrade *)

Section RegradeClaims.
Import Js Reconcile.

(** C5, as the code has it.  The merge does not throw.  The grading, the
    suggested price and the agents of the result replace those of the card
    when the result has them (they are truthy); otherwise the card's own are
    kept.  Every other field of the card, the identifier included, and so id,
    images, status, listingInfo and marketData, is unchanged. *)
Theorem regrade_merge_frame :
  forall editedCard result : list (string * JsVal),
    exists card,
      updatedCard (JObj editedCard) (JObj result) = Return (JObj card) /\
      lookup "grading" card =
        or (lookup "grading" result) (lookup "grading" editedCard) /\
      lookup "suggestedPrice" card =
        or (lookup "suggestedPrice" result) (lookup "suggestedPrice" editedCard) /\
      lookup "agents" card =
        or (lookup "agents" result) (lookup "agents" editedCard) /\
      (forall k,
          k <> "grading" -> k <> "suggestedPrice" -> k <> "agents" ->
          lookup k card = lookup k editedCard).
Proof.
  intros editedCard result.
  exists (define "agents"
            (or (lookup "agents" result) (lookup "agents" editedCard))
            (define "suggestedPrice"
               (or (lookup "suggestedPrice" result)
                   (lookup "suggestedPrice" editedCard))
               (define "grading"
                  (or (lookup "grading" result) (lookup "grading" editedCard))
                  editedCard))).
  split.
  - unfold updatedCard. cbn [get bind spread]. unfold orElse, get, or.
    destruct (truthy (lookup "grading" result));
      destruct (truthy (lookup "suggestedPrice" result));
      destruct (truthy (lookup "agents" result)); reflexivity.
  - split; [| split; [| split]].
    + rewrite !lookup_define_other by discriminate. apply lookup_define_same.
    + rewrite lookup_define_other by discriminate. apply lookup_define_same.
    + apply lookup_define_same.
    + intros k Hg Hp Ha. now rewrite !lookup_define_other.
Qed.

Lemma regrade_merge_frame_witness :
  exists card,
    updatedCard (JObj RegradeSample.editedCard) (JObj RegradeSample.result) =
    Return (JObj card) /\
    lookup "grading" card = RegradeSample.gradingOf "LP" /\
    lookup "status" card = JStr "listing" /\
    lookup "images" card = lookup "images" RegradeSample.editedCard /\
    lookup "cardIdentifier" card = JStr "LOB-001".
Proof.
  destruct (regrade_merge_frame RegradeSample.editedCard RegradeSample.result)
    as [card [Hcard [Hgrading [_ [_ Hframe]]]]].
  exists card. split; [exact Hcard |].
  split; [exact Hgrading |].
  split; [| split].
  - rewrite (Hframe "status"); [reflexivity | discriminate ..].
  - apply Hframe; discriminate.
  - rewrite (Hframe "cardIdentifier"); [reflexivity | discriminate ..].
Defined.

(** C5 as the specification words it does not hold: the identifier of the
    result does not replace the identifier of the card. *)
Lemma regrade_identifier_counterexample :
  (exists card,
      updatedCard (JObj RegradeSample.editedCard) (JObj RegradeSample.result) =
      Return (JObj card) /\
      lookup "cardIdentifier" RegradeSample.result = JStr "SDK-001" /\
      lookup "cardIdentifier" card = JStr "LOB-001") /\
  ~ (forall editedCard result card,
        updatedCard (JObj editedCard) (JObj result) = Return (JObj card) ->
        forall k,
          In k ["grading"; "suggestedPrice"; "cardIdentifier"; "agents"] ->
          lookup k card = lookup k result).
Proof.
  split.
  - eexists. split; [cbn; reflexivity |]. split; reflexivity.
  - intros H.
    specialize (H RegradeSample.editedCard RegradeSample.result _ eq_refl
                  "cardIdentifier").
    cbn in H.
    specialize (H (or_intror (or_intror (or_introl eq_refl)))).
    discriminate H.
Qed.

End RegradeClaims.

(** ** Listing copy *)

Section ListingCopyClaims.
Import Js Fallback Reconcile Types CopyService.

(** C8, as the code has it.  The three fields are named as required in the
    schema of every request; the answer itself is not checked.  When the
    invoker returns a response whose text is JSON, the operation returns the
    value it parses to, whatever fields that value has.  The operation fails
    only with the error of the invoker, or with the SyntaxError of
    [JSON.parse] when the text is not JSON. *)
Theorem listing_copy_returns_parsed :
  forall (W : Type)
         (generateContent :
            Request -> W -> Completion GenerateContentResponse Error * W)
         (card : CardMetadata) (preferredModel : option string) (w : W),
    let run :=
      tryWithFallback
        (fun model =>
           generateContent
             (mkRequest model (prompt card) ["title"; "ebay"; "tcg"]))
        (candidates preferredModel LISTING_MODELS) w in
    (forall response usedModel w' v,
        run = (Return (response, usedModel), w') ->
        text response = JsonText v ->
        generateListingCopy generateContent card preferredModel w =
        (Return v, w')) /\
    (forall e w',
        generateListingCopy generateContent card preferredModel w =
        (Throw e, w') ->
        run = (Throw e, w') \/
        exists response usedModel raw,
          run = (Return (response, usedModel), w') /\
          text response = NotJson raw /\
          e = SyntaxError "Unexpected token in JSON").
Proof.
  intros W generateContent card preferredModel w run.
  unfold generateListingCopy. fold run. split.
  - intros response usedModel w' v Hrun Hv. now rewrite Hrun, Hv.
  - intros e w' H. destruct run as [[[response usedModel] | e0] w0].
    + right. destruct response as [[v | raw]]; cbn in H.
      * discriminate H.
      * injection H as <- <-. now exists (mkResponse (NotJson raw)), usedModel, raw.
    + left. now injection H as -> ->.
Qed.

Lemma listing_copy_returns_parsed_witness :
  generateListingCopy CardSamples.copyProvider CardSamples.pikachu None tt =
  (Return CardSamples.twoFields, tt).
Proof.
  exact (proj1 (listing_copy_returns_parsed unit CardSamples.copyProvider
                  CardSamples.pikachu None tt)
               (mkResponse (JsonText CardSamples.twoFields))
               "gemini-2.5-flash" tt CardSamples.twoFields eq_refl eq_refl).
Defined.

(** C8 as the specification words it does not hold: a parsed response
    without the [tcg] field is returned, not refused. *)
Lemma listing_copy_missing_field_counterexample :
  (generateListingCopy CardSamples.copyProvider CardSamples.pikachu None tt =
   (Return CardSamples.twoFields, tt) /\
   get CardSamples.twoFields "tcg" = Return JUndefined) /\
  ~ (forall (W : Type)
            (generateContent :
               Request -> W -> Completion GenerateContentResponse Error * W)
            card preferredModel w v w',
        generateListingCopy generateContent card preferredModel w =
        (Return v, w') ->
        Forall (fun k => get v k <> Return JUndefined) ["title"; "ebay"; "tcg"]).
Proof.
  split.
  - split; reflexivity.
  - intros H.
    specialize (H unit CardSamples.copyProvider CardSamples.pikachu None tt
                  CardSamples.twoFields tt eq_refl).
    inversion H as [|? ? _ H1]; subst.
    inversion H1 as [|? ? _ H2]; subst.
    inversion H2 as [|? ? Htcg _]; subst.
    apply Htcg. reflexivity.
Qed.

End ListingCopyClaims.

(** ** The market-data cache *)

Section MarketClaims.
Import Js Types Market.

(** C9.  When the card has market data whose cacheExpiry is present and
    denotes a time strictly after now, fetching without forceRefresh returns
    the cached market data and calls the provider not at all: the world and
    the log of provider calls are unchanged.  Fetching the same card with
    forceRefresh does not look at the cache: it runs the fetch, which starts
    with the provider's product search for the card and gives market data
    with a new expiry, 24 hours after now. *)
Theorem market_cache_reuse :
  forall (W : Type) (Date_now : W -> Z) (Date_parse : string -> option Z)
         (toISOString : Z -> string) (encodeURIComponent : string -> string)
         (search : string -> string -> string -> W -> option Z * W)
         (pricing : Z -> W -> option TcgPlayerData * W)
         (card : CardMetadata) (cached : MarketData)
         (expiryText : string) (expiry : Z) (w : W) (log : list ProviderCall),
    marketData card = Some cached ->
    cacheExpiry cached = Some expiryText ->
    expiryText <> "" ->
    Date_parse expiryText = Some expiry ->
    (Date_now w < expiry)%Z ->
    let fetch :=
      fetchMarketData (fun wl => Date_now (fst wl)) Date_parse toISOString
                      encodeURIComponent (loggedSearch search)
                      (loggedPricing pricing) card in
    fetch false (w, log) = (cached, (w, log)) /\
    exists fresh w' calls,
      fetch true (w, log) = (fresh, (w', calls)) /\
      (fresh, (w', calls)) =
        refetch (fun wl => Date_now (fst wl)) toISOString encodeURIComponent
                (loggedSearch search) (loggedPricing pricing) card (w, log) /\
      (exists later,
          calls = (log ++ Search (name card) (set card) (game card) :: later)%list) /\
      cacheExpiry fresh = Some (toISOString (Date_now w + CACHE_DURATION_MS)%Z).
Proof.
  intros W Date_now Date_parse toISOString encodeURIComponent search pricing
         card cached expiryText expiry w log Hmd Hexp Hne Hparse Hlt fetch.
  subst fetch. unfold fetchMarketData. rewrite Hmd, Hexp. split.
  - cbn [negb andb strTruthy].
    apply String.eqb_neq in Hne. rewrite Hne. cbn [negb].
    rewrite Hparse. unfold inFuture. cbn [fst].
    apply Z.ltb_lt in Hlt. now rewrite Hlt.
  - cbn [negb andb]. unfold refetch, loggedSearch. cbn [fst].
    destruct (search (name card) (set card) (game card) w) as [[p|] w1].
    + destruct (p =? 0)%Z.
      * eexists _, _, _. split; [reflexivity |]. split; [reflexivity |].
        split; [now exists [] | reflexivity].
      * unfold loggedPricing. destruct (pricing p w1) as [tcg w2].
        eexists _, _, _. split; [reflexivity |]. split; [reflexivity |].
        split; [| reflexivity].
        exists [Pricing p]. now rewrite <- app_assoc.
    + eexists _, _, _. split; [reflexivity |]. split; [reflexivity |].
      split; [now exists [] | reflexivity].
Qed.

Lemma market_cache_reuse_witness :
  fetchMarketData (fun wl => MarketSample.Date_now (fst wl))
                  MarketSample.Date_parse MarketSample.toISOString
                  MarketSample.encodeURIComponent
                  (loggedSearch MarketSample.search)
                  (loggedPricing MarketSample.pricing) MarketSample.card
                  false (tt, []) = (MarketSample.cached, (tt, [])) /\
  exists fresh w' calls,
    fetchMarketData (fun wl => MarketSample.Date_now (fst wl))
                    MarketSample.Date_parse MarketSample.toISOString
                    MarketSample.encodeURIComponent
                    (loggedSearch MarketSample.search)
                    (loggedPricing MarketSample.pricing) MarketSample.card
                    true (tt, []) = (fresh, (w', calls)) /\
    (fresh, (w', calls)) =
      refetch (fun wl => MarketSample.Date_now (fst wl))
              MarketSample.toISOString MarketSample.encodeURIComponent
              (loggedSearch MarketSample.search)
              (loggedPricing MarketSample.pricing) MarketSample.card (tt, []) /\
    (exists later,
        calls = ([] ++ Search "Pikachu" "Base Set" "Pokemon" :: later)%list) /\
    cacheExpiry fresh =
      Some (MarketSample.toISOString
              (MarketSample.Date_now tt + CACHE_DURATION_MS)%Z).
Proof.
  refine (market_cache_reuse unit MarketSample.Date_now MarketSample.Date_parse
            MarketSample.toISOString MarketSample.encodeURIComponent
            MarketSample.search MarketSample.pricing MarketSample.card
            MarketSample.cached MarketSample.expiryText MarketSample.expiryTime
            tt [] eq_refl eq_refl _ eq_refl _).
  - discriminate.
  - reflexivity.
Defined.

End MarketClaims.

(** ** Uploading an image *)

Section UploadClaims.
Import Js Api.
Context {W : Type}.
Variable atob : string -> option string.
Variable Date_now : W -> Z.
Variable localStorage_getItem : string -> W -> option string.
Variable fetch : string -> File -> W -> Completion Response Error * W.


Lemma uploadImage_returns (base64Image : string) (w : W) :
  exists v w', uploadImage atob Date_now localStorage_getItem fetch base64Image w = (Return v, w').
Proof.
  unfold uploadImage.
  destruct (upload atob Date_now localStorage_getItem fetch base64Image w)
    as [[v|e] w']; eauto.
Qed.

Lemma base64ToFile_failed (dataurl filename : string) :
  (List.length (split "," dataurl) < 2)%nat \/
  atob (nth 1 (split "," dataurl) EmptyString) = None ->
  base64ToFile atob dataurl filename = errorFile.
Proof.
  unfold base64ToFile. intros [Hlen | Hatob].
  - apply Nat.ltb_lt in Hlen. now rewrite Hlen.
  - destruct (List.length (split "," dataurl) <? 2)%nat; [reflexivity |].
    now rewrite Hatob.
Qed.

Lemma uploadImages_returns (images : list string) :
  forall w, exists vs w',
    uploadImages atob Date_now localStorage_getItem fetch images w = (Return vs, w') /\
    List.length vs = List.length images.
Proof.
  induction images as [|img images IH]; intros w.
  - now exists [], w.
  - cbn [uploadImages].
    destruct (uploadImage_returns img w) as [v [w1 ->]].
    destruct (IH w1) as [vs [w2 [-> Hlen]]].
    exists (v :: vs), w2. cbn. now rewrite Hlen.
Qed.

Lemma uploadImages_fallback (images : list string) :
  (forall img w, exists w', uploadImage atob Date_now localStorage_getItem fetch img w = (Return (JStr img), w')) ->
  forall w, exists w', uploadImages atob Date_now localStorage_getItem fetch images w = (Return (map JStr images), w').
Proof.
  intros Hall. induction images as [|img images IH]; intros w.
  - now exists w.
  - cbn [uploadImages map].
    destruct (Hall img w) as [w1 ->].
    destruct (IH w1) as [w2 ->]. now exists w2.
Qed.

End UploadClaims.

Section UploadClaim.
Import Js Api.

(** C10.  Uploading an image never throws.  When the conversion to a file
    fails (the text has no comma, or [atob] rejects the part after it), the
    original text is returned and no request is sent.  When the request
    fails, for any reason (the request throws, the response is not ok, its
    body is not JSON, or the parsed body is null), the original text is
    returned.  So, when every request fails, the card that is saved carries
    in its images the original texts of the scan. *)
Theorem upload_falls_back :
  forall (W : Type) (atob : string -> option string) (Date_now : W -> Z)
         (localStorage_getItem : string -> W -> option string)
         (fetch : string -> File -> W -> Completion Response Error * W),
    let uploadImage := uploadImage atob Date_now localStorage_getItem fetch in
    let uploadImages := uploadImages atob Date_now localStorage_getItem fetch in
    (forall base64Image w,
        exists v w', uploadImage base64Image w = (Return v, w')) /\
    (forall base64Image w,
        (List.length (split "," base64Image) < 2)%nat \/
        atob (nth 1 (split "," base64Image) EmptyString) = None ->
        uploadImage base64Image w = (Return (JStr base64Image), w)) /\
    (forall base64Image w w' url file,
        file = base64ToFile atob base64Image
                            ("scan-" ++ Z_toString (Date_now w) ++ ".jpg") ->
        url = getBaseUrl (localStorage_getItem "pokesell_server_ip" w) ++
              "/api/upload" ->
        size file <> 0%nat ->
        (exists e, fetch url file w = (Throw e, w')) \/
        (exists res, fetch url file w = (Return res, w') /\
                     (ok res = false \/
                      (exists e, json res = Throw e) \/
                      json res = Return JNull)) ->
        uploadImage base64Image w = (Return (JStr base64Image), w')) /\
    (forall images w,
        exists vs w', uploadImages images w = (Return vs, w') /\
                      List.length vs = List.length images) /\
    (forall card images w,
        (forall url file w0, exists e, fetch url file w0 = (Throw e, w0)) ->
        exists w',
          uploadImages images w = (Return (map JStr images), w') /\
          get (finalCard card (map JStr images)) "images" =
          Return (JArr (map JStr images))).
Proof.
  intros W atob Date_now localStorage_getItem fetch uploadImage uploadImages.
  subst uploadImage uploadImages.
  assert (Hfetch :
    forall base64Image w w' url file,
      file = base64ToFile atob base64Image
                          ("scan-" ++ Z_toString (Date_now w) ++ ".jpg") ->
      url = getBaseUrl (localStorage_getItem "pokesell_server_ip" w) ++
            "/api/upload" ->
      size file <> 0%nat ->
      (exists e, fetch url file w = (Throw e, w')) \/
      (exists res, fetch url file w = (Return res, w') /\
                   (ok res = false \/
                    (exists e, json res = Throw e) \/
                    json res = Return JNull)) ->
      Api.uploadImage atob Date_now localStorage_getItem fetch base64Image w =
      (Return (JStr base64Image), w')).
  { intros base64Image w w' url file -> -> Hsize Hfail.
    unfold Api.uploadImage, upload.
    apply Nat.eqb_neq in Hsize. rewrite Hsize.
    destruct Hfail as [[e ->] | [res [-> Hres]]]; [reflexivity |].
    destruct Hres as [Hok | [[e He] | Hnull]].
    - now rewrite Hok.
    - destruct (ok res); cbn [negb]; [now rewrite He | reflexivity].
    - destruct (ok res); cbn [negb]; [now rewrite Hnull | reflexivity]. }
  split; [| split; [| split; [| split]]].
  - intros base64Image w. apply uploadImage_returns.
  - intros base64Image w Hfail. unfold Api.uploadImage, upload.
    now rewrite (base64ToFile_failed atob base64Image _ Hfail).
  - exact Hfetch.
  - intros images w. apply uploadImages_returns.
  - intros card images w Hdown.
    destruct (uploadImages_fallback atob Date_now localStorage_getItem fetch images)
      with (w := w) as [w' Hall].
    + intros img w0.
      destruct (Nat.eq_dec
                  (size (base64ToFile atob img
                           ("scan-" ++ Z_toString (Date_now w0) ++ ".jpg"))) 0)
        as [Hz | Hnz].
      * exists w0. unfold Api.uploadImage, upload. now rewrite Hz.
      * exists w0. eapply Hfetch; [reflexivity | reflexivity | exact Hnz |].
        left. apply Hdown.
    + exists w'. split; [exact Hall |].
      unfold finalCard, get. now rewrite lookup_define_same.
Qed.

Lemma upload_falls_back_witness :
  uploadImage UploadSample.atob UploadSample.Date_now
              UploadSample.localStorage_getItem UploadSample.fetch
              UploadSample.image tt =
  (Return (JStr UploadSample.image), tt).
Proof.
  refine (proj1 (proj2 (proj2
            (upload_falls_back unit UploadSample.atob UploadSample.Date_now
               UploadSample.localStorage_getItem UploadSample.fetch)))
            UploadSample.image tt tt _ _ eq_refl eq_refl _ _).
  - discriminate.
  - left. exists (TypeError "Failed to fetch"). reflexivity.
Defined.

End UploadClaim.

(** ** Sorting with a comparator *)

Section SortFacts.
Import View.
Context {A : Type}.
Variable compareFn : A -> A -> Z.

Lemma insert_perm (x : A) (l : list A) :
  Permutation (insert compareFn x l) (x :: l).
Proof.
  induction l as [|y l IH]; cbn.
  - apply Permutation_refl.
  - destruct (compareFn x y <=? 0)%Z.
    + apply Permutation_refl.
    + apply Permutation_trans with (y :: x :: l).
      * now apply perm_skip.
      * apply perm_swap.
Qed.

Lemma sort_perm (l : list A) : Permutation (sort compareFn l) l.
Proof.
  induction l as [|x l IH]; cbn.
  - apply perm_nil.
  - apply Permutation_trans with (x :: sort compareFn l).
    + apply insert_perm.
    + now apply perm_skip.
Qed.

(** Inserting [x] in front of the first element it does not follow leaves
    every class of elements that [x] never follows in its order. *)
Lemma filter_insert (P : A -> bool) (x : A) (l : list A) :
  (forall y, P x = true -> P y = true -> (compareFn x y <= 0)%Z) ->
  filter P (insert compareFn x l) =
  if P x then x :: filter P l else filter P l.
Proof.
  intros Hclass. induction l as [|y l IH]; cbn.
  - reflexivity.
  - destruct (compareFn x y <=? 0)%Z eqn:Hxy.
    + cbn. reflexivity.
    + cbn. rewrite IH. destruct (P x) eqn:Px; [| reflexivity].
      destruct (P y) eqn:Py; [| reflexivity].
      apply Z.leb_gt in Hxy. specialize (Hclass y eq_refl Py). lia.
Qed.

Lemma filter_sort (P : A -> bool) (l : list A) :
  (forall x y, P x = true -> P y = true -> (compareFn x y <= 0)%Z) ->
  filter P (sort compareFn l) = filter P l.
Proof.
  intros Hclass. induction l as [|x l IH]; cbn.
  - reflexivity.
  - rewrite filter_insert by (intros y; apply Hclass). now rewrite IH.
Qed.

Hypothesis total : forall a b, (0 < compareFn a b)%Z -> (compareFn b a <= 0)%Z.
Hypothesis transitive :
  forall a b c, (compareFn a b <= 0)%Z -> (compareFn b c <= 0)%Z ->
                (compareFn a c <= 0)%Z.

Lemma insert_sorted (x : A) (l : list A) :
  StronglySorted (fun a b => (compareFn a b <= 0)%Z) l ->
  StronglySorted (fun a b => (compareFn a b <= 0)%Z) (insert compareFn x l).
Proof.
  induction 1 as [|y l Hsorted IH Hall]; cbn.
  - constructor; constructor.
  - destruct (compareFn x y <=? 0)%Z eqn:Hxy.
    + apply Z.leb_le in Hxy. constructor.
      * now constructor.
      * constructor; [exact Hxy |].
        eapply Forall_impl; [| exact Hall].
        intros z Hyz. now apply transitive with y.
    + apply Z.leb_gt in Hxy. constructor; [exact IH |].
      apply (Permutation_Forall (Permutation_sym (insert_perm x l))).
      constructor; [now apply total | exact Hall].
Qed.

Lemma sort_sorted (l : list A) :
  StronglySorted (fun a b => (compareFn a b <= 0)%Z) (sort compareFn l).
Proof.
  induction l as [|x l IH]; cbn.
  - constructor.
  - now apply insert_sorted.
Qed.

(** A sorted rearrangement that keeps every class of tied elements in its
    order is unique: whatever stable algorithm an engine runs, it returns the
    list that [sort] returns. *)
Variable tie : A -> A -> bool.
Hypothesis tie_refl : forall x, tie x x = true.
Hypothesis tie_both :
  forall x y, (compareFn x y <= 0)%Z -> (compareFn y x <= 0)%Z ->
              tie x y = true.

Lemma sorted_stable_unique (l1 : list A) :
  forall l2,
    Permutation l1 l2 ->
    StronglySorted (fun a b => (compareFn a b <= 0)%Z) l1 ->
    StronglySorted (fun a b => (compareFn a b <= 0)%Z) l2 ->
    (forall c, filter (tie c) l1 = filter (tie c) l2) ->
    l1 = l2.
Proof.
  induction l1 as [|x t1 IH]; intros [|y t2] Hperm Hs1 Hs2 Hclass.
  - reflexivity.
  - apply Permutation_nil in Hperm. discriminate.
  - apply Permutation_sym, Permutation_nil in Hperm. discriminate.
  - inversion Hs1 as [|? ? Hs1' Hall1]; subst.
    inversion Hs2 as [|? ? Hs2' Hall2]; subst.
    assert (Hxy : x = y).
    { assert (Hx : In x (y :: t2))
        by (apply (Permutation_in _ Hperm); now left).
      assert (Hy : In y (x :: t1))
        by (apply (Permutation_in _ (Permutation_sym Hperm)); now left).
      destruct Hx as [Hx | Hx]; [now symmetry |].
      destruct Hy as [Hy | Hy]; [exact Hy |].
      rewrite Forall_forall in Hall1, Hall2.
      assert (Htie : tie x y = true)
        by (apply tie_both; [now apply Hall1 | now apply Hall2]).
      specialize (Hclass x). cbn in Hclass.
      rewrite tie_refl, Htie in Hclass. now injection Hclass. }
    subst y. f_equal. apply IH.
    + now apply Permutation_cons_inv with x.
    + exact Hs1'.
    + exact Hs2'.
    + intros c. specialize (Hclass c). cbn in Hclass.
      destruct (tie c x); [now injection Hclass | exact Hclass].
Qed.

End SortFacts.

(** ** The comparator of the listing view *)

Section OutcomeFacts.
Import View.
Context {K : Type}.
Variable ltb : K -> K -> bool.
Hypothesis ltb_asym : forall a b, ltb a b = true -> ltb b a = false.
Hypothesis ltb_negtrans :
  forall a b c, ltb a b = false -> ltb b c = false -> ltb a c = false.

Lemma outcome_asc_le (a b : K) :
  (outcome ltb asc a b <= 0)%Z <-> ltb b a = false.
Proof.
  unfold outcome. destruct (ltb a b) eqn:Hab.
  - rewrite (ltb_asym _ _ Hab). split; [reflexivity | lia].
  - destruct (ltb b a); split; (reflexivity || lia || discriminate).
Qed.

Lemma outcome_desc_le (a b : K) :
  (outcome ltb desc a b <= 0)%Z <-> ltb a b = false.
Proof.
  unfold outcome. destruct (ltb a b) eqn:Hab.
  - split; [lia | discriminate].
  - destruct (ltb b a); split; (reflexivity || lia).
Qed.

Lemma outcome_desc (a b : K) :
  outcome ltb desc a b = (- outcome ltb asc a b)%Z.
Proof.
  unfold outcome. destruct (ltb a b); [reflexivity |].
  destruct (ltb b a); reflexivity.
Qed.

Lemma outcome_zero (d : SortDirection) (a b : K) :
  outcome ltb d a b = 0%Z <-> ltb a b = false /\ ltb b a = false.
Proof.
  unfold outcome. destruct (ltb a b), (ltb b a), d; split;
    (discriminate || reflexivity || (intros [? ?]; discriminate) || auto).
Qed.

Lemma outcome_total (d : SortDirection) (a b : K) :
  (0 < outcome ltb d a b)%Z -> (outcome ltb d b a <= 0)%Z.
Proof.
  destruct d; intros H.
  - apply outcome_asc_le. unfold outcome in H.
    destruct (ltb a b) eqn:Hab; [lia | reflexivity].
  - apply outcome_desc_le. unfold outcome in H.
    destruct (ltb a b) eqn:Hab; [now apply ltb_asym |].
    destruct (ltb b a); lia.
Qed.

Lemma outcome_trans (d : SortDirection) (a b c : K) :
  (outcome ltb d a b <= 0)%Z -> (outcome ltb d b c <= 0)%Z ->
  (outcome ltb d a c <= 0)%Z.
Proof.
  destruct d.
  - rewrite !outcome_asc_le. intros Hba Hcb. now apply ltb_negtrans with b.
  - rewrite !outcome_desc_le. intros Hab Hbc. now apply ltb_negtrans with b.
Qed.

Lemma outcome_class (d : SortDirection) (c x y : K) :
  outcome ltb asc c x = 0%Z -> outcome ltb asc c y = 0%Z ->
  outcome ltb d x y = 0%Z.
Proof.
  rewrite !outcome_zero. intros [Hcx Hxc] [Hcy Hyc]. split.
  - now apply ltb_negtrans with c.
  - now apply ltb_negtrans with c.
Qed.

End OutcomeFacts.

Section KeyOrders.
Import View.

Lemma string_ltb_lt (a b : string) :
  String.ltb a b = true <-> String_as_OT.lt a b.
Proof.
  rewrite <- String_as_OT.cmp_lt. unfold String.ltb, String_as_OT.cmp.
  destruct (String.compare a b); split; (reflexivity || discriminate).
Qed.

Lemma string_ltb_asym (a b : string) :
  String.ltb a b = true -> String.ltb b a = false.
Proof.
  unfold String.ltb. rewrite (String.compare_antisym b a).
  destruct (String.compare a b); cbn; (reflexivity || discriminate).
Qed.

Lemma string_ltb_negtrans (a b c : string) :
  String.ltb a b = false -> String.ltb b c = false -> String.ltb a c = false.
Proof.
  intros Hab Hbc.
  destruct (String.compare a b) eqn:Cab.
  - apply String.compare_eq_iff in Cab. now subst b.
  - unfold String.ltb in Hab. now rewrite Cab in Hab.
  - destruct (String.compare b c) eqn:Cbc.
    + apply String.compare_eq_iff in Cbc. now subst c.
    + unfold String.ltb in Hbc. now rewrite Cbc in Hbc.
    + assert (Hba : String_as_OT.lt b a).
      { apply String_as_OT.cmp_lt. unfold String_as_OT.cmp.
        rewrite String.compare_antisym, Cab. reflexivity. }
      assert (Hcb : String_as_OT.lt c b).
      { apply String_as_OT.cmp_lt. unfold String_as_OT.cmp.
        rewrite String.compare_antisym, Cbc. reflexivity. }
      apply string_ltb_asym, string_ltb_lt.
      exact (String_as_OT.lt_trans _ _ _ Hcb Hba).
Qed.

Lemma Qltb_lt (a b : Q) : Qltb a b = true <-> (a < b)%Q.
Proof.
  rewrite Qlt_alt. unfold Qltb.
  destruct (a ?= b)%Q; split; (reflexivity || discriminate).
Qed.

Lemma Qltb_ge (a b : Q) : Qltb a b = false <-> (b <= a)%Q.
Proof.
  split.
  - intros H. apply Qnot_lt_le. intros Hlt. apply Qltb_lt in Hlt. congruence.
  - intros H. destruct (Qltb a b) eqn:Hab; [| reflexivity].
    apply Qltb_lt in Hab. now apply Qle_not_lt in H.
Qed.

Lemma Qltb_asym (a b : Q) : Qltb a b = true -> Qltb b a = false.
Proof.
  intros H. apply Qltb_lt in H. apply Qltb_ge. now apply Qlt_le_weak.
Qed.

Lemma Qltb_negtrans (a b c : Q) :
  Qltb a b = false -> Qltb b c = false -> Qltb a c = false.
Proof.
  rewrite !Qltb_ge. intros Hba Hcb. now apply Qle_trans with b.
Qed.

(** Descending order negates the outcome of ascending order. *)
Lemma compareCards_desc (f : SortField) (a b : Types.CardMetadata) :
  compareCards f desc a b = (- compareCards f asc a b)%Z.
Proof. destruct f; apply outcome_desc. Qed.

Lemma compareCards_total (f : SortField) (d : SortDirection)
      (a b : Types.CardMetadata) :
  (0 < compareCards f d a b)%Z -> (compareCards f d b a <= 0)%Z.
Proof.
  destruct f; cbn [compareCards]; intros H.
  - exact (outcome_total String.ltb string_ltb_asym d _ _ H).
  - exact (outcome_total Qltb Qltb_asym d _ _ H).
  - exact (outcome_total String.ltb string_ltb_asym d _ _ H).
  - exact (outcome_total String.ltb string_ltb_asym d _ _ H).
Qed.

Lemma compareCards_trans (f : SortField) (d : SortDirection)
      (a b c : Types.CardMetadata) :
  (compareCards f d a b <= 0)%Z -> (compareCards f d b c <= 0)%Z ->
  (compareCards f d a c <= 0)%Z.
Proof.
  destruct f; cbn [compareCards]; intros Hab Hbc.
  - exact (outcome_trans String.ltb string_ltb_asym string_ltb_negtrans
             d _ _ _ Hab Hbc).
  - exact (outcome_trans Qltb Qltb_asym Qltb_negtrans d _ _ _ Hab Hbc).
  - exact (outcome_trans String.ltb string_ltb_asym string_ltb_negtrans
             d _ _ _ Hab Hbc).
  - exact (outcome_trans String.ltb string_ltb_asym string_ltb_negtrans
             d _ _ _ Hab Hbc).
Qed.

Lemma compareCards_class (f : SortField) (d : SortDirection)
      (c x y : Types.CardMetadata) :
  tied f c x = true -> tied f c y = true -> compareCards f d x y = 0%Z.
Proof.
  unfold tied. rewrite !Z.eqb_eq.
  destruct f; cbn [compareCards]; intros Hx Hy.
  - exact (outcome_class String.ltb string_ltb_negtrans d _ _ _ Hx Hy).
  - exact (outcome_class Qltb Qltb_negtrans d _ _ _ Hx Hy).
  - exact (outcome_class String.ltb string_ltb_negtrans d _ _ _ Hx Hy).
  - exact (outcome_class String.ltb string_ltb_negtrans d _ _ _ Hx Hy).
Qed.

Lemma tied_refl (f : SortField) (x : Types.CardMetadata) : tied f x x = true.
Proof.
  unfold tied. apply Z.eqb_eq.
  destruct f; cbn [compareCards]; apply outcome_zero.
  - destruct (String.ltb (Types.name x) (Types.name x)) eqn:H; [| auto].
    now rewrite (string_ltb_asym _ _ H) in H.
  - destruct (Qltb (priceOf x) (priceOf x)) eqn:H; [| auto].
    now rewrite (Qltb_asym _ _ H) in H.
  - destruct (String.ltb (dateOf x) (dateOf x)) eqn:H; [| auto].
    now rewrite (string_ltb_asym _ _ H) in H.
  - destruct (String.ltb (Types.statusName (Types.status x))
                         (Types.statusName (Types.status x))) eqn:H; [| auto].
    now rewrite (string_ltb_asym _ _ H) in H.
Qed.

Lemma tied_both (f : SortField) (d : SortDirection)
      (x y : Types.CardMetadata) :
  (compareCards f d x y <= 0)%Z -> (compareCards f d y x <= 0)%Z ->
  tied f x y = true.
Proof.
  intros Hxy Hyx. unfold tied. apply Z.eqb_eq.
  assert (Hflip : forall a b,
             compareCards f asc a b = (- compareCards f asc b a)%Z).
  { intros a b. destruct f; cbn [compareCards]; unfold outcome.
    - destruct (String.ltb (Types.name a) (Types.name b)) eqn:H1.
      + now rewrite (string_ltb_asym _ _ H1).
      + destruct (String.ltb (Types.name b) (Types.name a)); reflexivity.
    - destruct (Qltb (priceOf a) (priceOf b)) eqn:H1.
      + now rewrite (Qltb_asym _ _ H1).
      + destruct (Qltb (priceOf b) (priceOf a)); reflexivity.
    - destruct (String.ltb (dateOf a) (dateOf b)) eqn:H1.
      + now rewrite (string_ltb_asym _ _ H1).
      + destruct (String.ltb (dateOf b) (dateOf a)); reflexivity.
    - destruct (String.ltb (Types.statusName (Types.status a))
                           (Types.statusName (Types.status b))) eqn:H1.
      + now rewrite (string_ltb_asym _ _ H1).
      + destruct (String.ltb (Types.statusName (Types.status b))
                             (Types.statusName (Types.status a))); reflexivity. }
  destruct d.
  - rewrite (Hflip y x) in Hyx. lia.
  - rewrite compareCards_desc in Hxy, Hyx. rewrite (Hflip y x) in Hyx. lia.
Qed.

(** The view is the only sorted, stable rearrangement of the filtered
    cards. *)
Lemma filteredCards_unique (toLowerCase : string -> string)
      (inventory l : list Types.CardMetadata)
      (statusFilter : StatusFilter) (searchQuery : string)
      (f : SortField) (d : SortDirection) :
  Permutation l (filtered toLowerCase inventory statusFilter searchQuery) ->
  StronglySorted (fun a b => (compareCards f d a b <= 0)%Z) l ->
  (forall c, filter (tied f c) l =
             filter (tied f c) (filtered toLowerCase inventory statusFilter searchQuery)) ->
  l = filteredCards toLowerCase inventory statusFilter searchQuery f d.
Proof.
  intros Hperm Hsorted Hclass. unfold filteredCards.
  apply (sorted_stable_unique (compareCards f d) (tied f) (tied_refl f)
                              (tied_both f d)).
  - apply Permutation_trans with (filtered toLowerCase inventory statusFilter searchQuery).
    + exact Hperm.
    + apply Permutation_sym, sort_perm.
  - exact Hsorted.
  - apply sort_sorted; [apply compareCards_total | apply compareCards_trans].
  - intros c. rewrite Hclass. symmetry. apply filter_sort.
    intros x y Hx Hy. rewrite (compareCards_class f d c x y Hx Hy). lia.
Qed.

Lemma compareCards_inOrder (f : SortField) (d : SortDirection)
      (a b : Types.CardMetadata) :
  (compareCards f d a b <= 0)%Z <-> inOrder f d a b.
Proof.
  unfold inOrder. destruct d; [reflexivity |].
  rewrite compareCards_desc. lia.
Qed.

End KeyOrders.

(** ** The listing view *)

Section ViewClaims.
Import Js Types View.

Lemma StronglySorted_impl {A : Type} (R R' : A -> A -> Prop) (l : list A) :
  (forall a b, R a b -> R' a b) ->
  StronglySorted R l -> StronglySorted R' l.
Proof.
  intros Himpl. induction 1 as [|x l Hs IH Hall]; constructor.
  - exact IH.
  - eapply Forall_impl; [| exact Hall]. intros b. apply Himpl.
Qed.

Lemma string_empty_smallest (s : string) :
  String.ltb s "" = false /\ (s <> "" -> String.ltb "" s = true).
Proof.
  destruct s; split; try reflexivity. congruence.
Qed.

(** C6.  The price key of a card is its listing price when one is set
    (present and not zero, as [||] reads it), and the suggested mid price
    when none is present (or it is zero).  The date key is the listed date
    when set, else the sold date when set, else the empty string; dates are
    compared as strings, and the empty string is below every other string.
    The view is the filtered list rearranged so that the keys are in order,
    ascending or descending.  Cards with tied keys keep the order they have
    in the filtered list, in either direction: the descending comparator is
    the negation of the ascending one, so it ties exactly the same cards. *)
Theorem listing_sort_keys_stable :
  forall (toLowerCase : string -> string)
         (inventory : list CardMetadata) (statusFilter : StatusFilter)
         (searchQuery : string) (sortField : SortField)
         (sortDirection : SortDirection),
    let shown := filtered toLowerCase inventory statusFilter searchQuery in
    let view :=
      filteredCards toLowerCase inventory statusFilter searchQuery sortField sortDirection in
    (forall card,
        (forall info p,
            listingInfo card = Some info -> listingPrice info = Some p ->
            ~ (p == 0)%Q -> priceOf card = p) /\
        (forall info p,
            listingInfo card = Some info -> listingPrice info = Some p ->
            (p == 0)%Q -> priceOf card = mid (suggestedPrice card)) /\
        (listingInfo card = None \/
         (exists info, listingInfo card = Some info /\ listingPrice info = None) ->
         priceOf card = mid (suggestedPrice card))) /\
    (forall card,
        (forall info d,
            listingInfo card = Some info -> listedDate info = Some d ->
            d <> "" -> dateOf card = d) /\
        (forall info d,
            listingInfo card = Some info -> strTruthy (listedDate info) = false ->
            soldDate info = Some d -> d <> "" -> dateOf card = d) /\
        (listingInfo card = None \/
         (exists info, listingInfo card = Some info /\
                       strTruthy (listedDate info) = false /\
                       strTruthy (soldDate info) = false) ->
         dateOf card = "")) /\
    (forall d a b,
        compareCards byPrice d a b = outcome Qltb d (priceOf a) (priceOf b) /\
        compareCards byDate d a b = outcome String.ltb d (dateOf a) (dateOf b)) /\
    (forall s, String.ltb s "" = false /\ (s <> "" -> String.ltb "" s = true)) /\
    Permutation view shown /\
    StronglySorted (inOrder sortField sortDirection) view /\
    (forall c, filter (tied sortField c) view = filter (tied sortField c) shown) /\
    (forall a b,
        compareCards sortField desc a b = (- compareCards sortField asc a b)%Z) /\
    (forall a b,
        compareCards sortField sortDirection a b = 0%Z <->
        tied sortField a b = true).
Proof.
  intros toLowerCase inventory statusFilter searchQuery sortField sortDirection
         shown view.
  split; [| split; [| split; [| split; [| split; [| split; [| split; [| split]]]]]]].
  - intros card. unfold priceOf. split; [| split].
    + intros info p -> -> Hp.
      destruct (Qeq_bool p 0) eqn:Hz; [| reflexivity].
      apply Qeq_bool_eq in Hz. contradiction.
    + intros info p -> -> Hp. now rewrite (Qeq_eq_bool _ _ Hp).
    + intros [-> | [info [-> ->]]]; reflexivity.
  - intros card. unfold dateOf. split; [| split].
    + intros info d -> -> Hd. apply String.eqb_neq in Hd.
      unfold orStr. cbn. rewrite Hd. cbn. now rewrite Hd.
    + intros info d -> Hl -> Hd. apply String.eqb_neq in Hd.
      unfold orStr. rewrite Hl. cbn. now rewrite Hd.
    + intros [-> | [info [-> [Hl Hs]]]]; [reflexivity |].
      unfold orStr. rewrite Hl. unfold strTruthy in Hs.
      destruct (soldDate info) as [d|]; [| reflexivity].
      cbn. destruct (d =? ""); [reflexivity | discriminate].
  - intros d a b. split; reflexivity.
  - apply string_empty_smallest.
  - apply sort_perm.
  - unfold view, filteredCards.
    apply StronglySorted_impl
      with (R := fun a b => (compareCards sortField sortDirection a b <= 0)%Z).
    + intros a b. apply compareCards_inOrder.
    + apply sort_sorted.
      * apply compareCards_total.
      * apply compareCards_trans.
  - intros c. unfold view, filteredCards. apply filter_sort.
    intros x y Hx Hy.
    rewrite (compareCards_class sortField sortDirection c x y Hx Hy). lia.
  - intros a b. apply compareCards_desc.
  - intros a b. unfold tied. rewrite Z.eqb_eq.
    destruct sortDirection; [reflexivity |].
    rewrite compareCards_desc. lia.
Qed.

Lemma listing_sort_keys_stable_witness :
  filteredCards ViewSample.asciiLower [ViewSample.cardA; ViewSample.cardB; ViewSample.cardC]
                all "" byDate desc =
  [ViewSample.cardA; ViewSample.cardC; ViewSample.cardB] /\
  filter (tied byDate ViewSample.cardA)
         (filteredCards ViewSample.asciiLower [ViewSample.cardA; ViewSample.cardB; ViewSample.cardC]
                        all "" byDate desc) =
  [ViewSample.cardA; ViewSample.cardC] /\
  dateOf ViewSample.cardA = "2024-01-01" /\
  dateOf ViewSample.cardB = "".
Proof.
  destruct (listing_sort_keys_stable ViewSample.asciiLower
              [ViewSample.cardA; ViewSample.cardB; ViewSample.cardC]
              all "" byDate desc)
    as [_ [Hdate [_ [_ [_ [_ [Hstable _]]]]]]].
  split; [vm_compute; reflexivity |].
  split; [rewrite Hstable; vm_compute; reflexivity |].
  split.
  - apply (proj1 (Hdate ViewSample.cardA)) with
      (info := mkListingInfo (Some "2024-01-01") None None None None None None None);
      [reflexivity | reflexivity | discriminate].
  - apply (proj2 (proj2 (Hdate ViewSample.cardB))). left. reflexivity.
Defined.

End ViewClaims.

Section FilterFacts.
Import Js Types View.
Variable toLowerCase : string -> string.

Lemma matchesQuery_spec (query : string) (card : CardMetadata) :
  matchesQuery toLowerCase query card = true <->
  exists field,
    In field [name card; set card; cardNumber card; game card] /\
    Substring query (toLowerCase field).
Proof.
  unfold matchesQuery. rewrite !orb_true_iff, !includes_spec. split.
  - intros [[[H | H] | H] | H]; eexists; (split; [| exact H]); cbn; auto.
  - intros [field [Hin H]]. cbn in Hin.
    destruct Hin as [<- | [<- | [<- | [<- | []]]]]; auto.
Qed.

Lemma filtered_as_filter (inventory : list CardMetadata)
      (statusFilter : StatusFilter) (searchQuery : string) :
  filtered toLowerCase inventory statusFilter searchQuery =
  filter (fun card =>
            passesStatus statusFilter card &&
            ((searchQuery =? "") ||
             matchesQuery toLowerCase (toLowerCase searchQuery) card))
         inventory.
Proof.
  unfold filtered, passesStatus.
  destruct statusFilter as [|s]; destruct (searchQuery =? ""); cbn [orb andb].
  - induction inventory as [|c l IH]; cbn; [reflexivity | now rewrite <- IH].
  - reflexivity.
  - apply filter_ext. intros c. now rewrite andb_true_r.
  - induction inventory as [|c l IH]; cbn; [reflexivity |].
    destruct (statusEqb (status c) s); cbn; rewrite IH; reflexivity.
Qed.

Lemma filter_length_perm {A : Type} (P : A -> bool) (l l' : list A) :
  Permutation l l' ->
  List.length (filter P l) = List.length (filter P l').
Proof.
  induction 1 as [| x l l' _ IH | x y l | l l' l'' _ IH1 _ IH2]; cbn.
  - reflexivity.
  - destruct (P x); cbn; now rewrite IH.
  - destruct (P x), (P y); reflexivity.
  - now rewrite IH1.
Qed.

Lemma statusEqb_eq (a b : Status) : statusEqb a b = true <-> a = b.
Proof. destruct a, b; cbn; split; congruence. Qed.

End FilterFacts.

Section ViewStatsClaim.
Import Js Types View.

(** C7.  The status filter [all] lets every card pass, and a filter for one
    status lets the cards of that status pass.  A card is in the view
    exactly when it is in the inventory, passes the status filter and, when
    the search text is not empty, has a name, set, card number or game whose
    lower-cased text contains the lower-cased search text.  The counts per
    status of the aggregation are those of the filtered cards, the cards of
    the inventory that pass the two filters.  The total value is computed
    over the cards of the view and no other: starting from 0 it adds, from
    the left and in the order of the view, the listing price of each card
    if one is set, else its suggested mid price. *)
Theorem listing_filter_and_stats :
  forall (toLowerCase : string -> string) (Number : Type)
         (number : Q -> Number) (plus : Number -> Number -> Number)
         (inventory : list CardMetadata) (statusFilter : StatusFilter)
         (searchQuery : string) (sortField : SortField)
         (sortDirection : SortDirection),
    let shown := filtered toLowerCase inventory statusFilter searchQuery in
    let view :=
      filteredCards toLowerCase inventory statusFilter searchQuery sortField
                    sortDirection in
    (forall card, passesStatus all card = true) /\
    Permutation (filteredCards toLowerCase inventory all "" sortField
                               sortDirection)
                inventory /\
    (forall card,
        searchQuery = "" ->
        (In card view <->
         In card inventory /\ passesStatus statusFilter card = true)) /\
    (forall card,
        searchQuery <> "" ->
        (In card view <->
         In card inventory /\ passesStatus statusFilter card = true /\
         exists field,
           In field [name card; set card; cardNumber card; game card] /\
           Substring (toLowerCase searchQuery) (toLowerCase field))) /\
    shown =
      filter (fun card =>
                passesStatus statusFilter card &&
                ((searchQuery =? "") ||
                 matchesQuery toLowerCase (toLowerCase searchQuery) card))
             inventory /\
    Permutation view shown /\
    stat_all (stats number plus view) = List.length shown /\
    stat_inventory (stats number plus view) =
      countStatus Types.inventory shown /\
    stat_listing (stats number plus view) = countStatus listing shown /\
    stat_sold (stats number plus view) = countStatus sold shown /\
    totalValue (stats number plus view) =
      fold_left (fun sum card => plus sum (number (priceOf card))) view
                (number 0) /\
    (forall card,
        (forall info p,
            listingInfo card = Some info -> listingPrice info = Some p ->
            ~ (p == 0)%Q -> priceOf card = p) /\
        (forall info p,
            listingInfo card = Some info -> listingPrice info = Some p ->
            (p == 0)%Q -> priceOf card = mid (suggestedPrice card)) /\
        (listingInfo card = None \/
         (exists info, listingInfo card = Some info /\ listingPrice info = None) ->
         priceOf card = mid (suggestedPrice card))) /\
    (forall s card, passesStatus (only s) card = true <-> status card = s) /\
    (forall s cards,
        countStatus s cards =
        List.length (filter (fun card => statusEqb (status card) s) cards) /\
        (forall card,
            In card (filter (fun card => statusEqb (status card) s) cards) <->
            In card cards /\ status card = s)).
Proof.
  intros toLowerCase Number number plus inventory statusFilter searchQuery
         sortField sortDirection shown view.
  assert (Hperm : Permutation view shown) by apply sort_perm.
  assert (Hin : forall card, In card view <-> In card shown).
  { intros card. split; apply Permutation_in;
      [exact Hperm | exact (Permutation_sym Hperm)]. }
  assert (Hshown :=
            filtered_as_filter toLowerCase inventory statusFilter searchQuery).
  fold shown in Hshown.
  split; [reflexivity |].
  split; [apply sort_perm |].
  split; [| split; [| split; [exact Hshown | split; [exact Hperm |]]]].
  - intros card ->. rewrite Hin, Hshown, filter_In. cbn [String.eqb orb].
    now rewrite andb_true_r.
  - intros card Hq. rewrite Hin, Hshown, filter_In.
    apply String.eqb_neq in Hq. rewrite Hq. cbn [orb].
    now rewrite andb_true_iff, matchesQuery_spec.
  - split; [| split; [| split; [| split; [| split; [| split; [| split]]]]]].
    + cbn. now apply Permutation_length.
    + cbn. now apply filter_length_perm.
    + cbn. now apply filter_length_perm.
    + cbn. now apply filter_length_perm.
    + reflexivity.
    + intros card. unfold priceOf. split; [| split].
      * intros info p -> -> Hp.
        destruct (Qeq_bool p 0) eqn:Hz; [| reflexivity].
        apply Qeq_bool_eq in Hz. contradiction.
      * intros info p -> -> Hp. now rewrite (Qeq_eq_bool _ _ Hp).
      * intros [-> | [info [-> ->]]]; reflexivity.
    + intros s card. cbn [passesStatus]. apply statusEqb_eq.
    + intros s cards. split; [reflexivity |].
      intros card. rewrite filter_In. now rewrite statusEqb_eq.
Qed.

Lemma listing_filter_and_stats_witness :
  List.length
    (filteredCards ViewSample.asciiLower ViewSample.five (only sold) "" byName
                   asc) = 2%nat /\
  stat_sold
    (stats (fun q : Q => q) Qplus
           (filteredCards ViewSample.asciiLower ViewSample.five (only sold) ""
                          byName asc)) = 2%nat /\
  stat_inventory
    (stats (fun q : Q => q) Qplus
           (filteredCards ViewSample.asciiLower ViewSample.five (only sold) ""
                          byName asc)) = 0%nat /\
  totalValue
    (stats (fun q : Q => q) Qplus
           (filteredCards ViewSample.asciiLower ViewSample.five (only sold) ""
                          byName asc)) = 26%Q /\
  totalValue
    (stats (fun q : Q => [q]) (@app Q)
           (filteredCards ViewSample.asciiLower ViewSample.five (only sold) ""
                          byPrice desc)) = [0; 16; 10]%Q /\
  In (CardSamples.card "3" "Charmander" listing 4
                       (CardSamples.listedOn "2024-02-01"))
     (filteredCards ViewSample.asciiLower ViewSample.five all "CHAR" byName
                    asc).
Proof.
  destruct (listing_filter_and_stats ViewSample.asciiLower Q (fun q => q) Qplus
              ViewSample.five (only sold) "" byName asc)
    as [_ [_ [_ [_ [_ [_ [Hall [Hinv [_ [Hsold [Htotal _]]]]]]]]]]].
  destruct (listing_filter_and_stats ViewSample.asciiLower (list Q)
              (fun q => [q]) (@app Q) ViewSample.five (only sold) "" byPrice
              desc)
    as [_ [_ [_ [_ [_ [_ [_ [_ [_ [_ [Horder _]]]]]]]]]]].
  destruct (listing_filter_and_stats ViewSample.asciiLower Q (fun q => q) Qplus
              ViewSample.five all "CHAR" byName asc)
    as [_ [_ [_ [Hsearch _]]]].
  cbv zeta in *. split; [| split; [| split; [| split; [| split]]]].
  - change (stat_all (stats (fun q : Q => q) Qplus
                            (filteredCards ViewSample.asciiLower
                               ViewSample.five (only sold) "" byName asc))
            = 2%nat).
    rewrite Hall. reflexivity.
  - rewrite Hsold. reflexivity.
  - rewrite Hinv. reflexivity.
  - rewrite Htotal. reflexivity.
  - rewrite Horder. reflexivity.
  - apply Hsearch; [discriminate |].
    split; [cbn; auto |]. split; [reflexivity |].
    exists "Charmander". split; [cbn; auto |].
    exists "", "mander". reflexivity.
Defined.

End ViewStatsClaim.

(* ================================================================== *)
(** * Further properties of the code                                   *)
(* ================================================================== *)

(** ** The list of candidates and the failures of the invoker *)

Section FallbackExtras.
Import Js Fallback.

Lemma filter_absent (p : string) (l : list string) :
  ~ In p l -> filter (fun m => negb (m =? p)) l = l.
Proof.
  induction l as [| d l IH]; [reflexivity |]. intros Hnot. cbn.
  destruct (d =? p) eqn:Hd.
  - apply String.eqb_eq in Hd. subst d. exfalso. apply Hnot. now left.
  - cbn. f_equal. apply IH. intros H. apply Hnot. now right.
Qed.

(** X1.  With a preferred model, the list of candidates starts with it,
    names it only once, and goes on with the other default models in their
    order: when the defaults are some models, the preferred one, and some
    more models, the candidates are the preferred one, the first models and
    the last models; a preferred model that is no default is followed by
    every default.  Without a preferred model (absent or empty) the defaults
    are tried as they are. *)
Theorem candidates_preferred_first :
  forall (p : string) (defaults : list string),
    p <> "" ->
    (exists rest,
        candidates (Some p) defaults = p :: rest /\
        ~ In p rest /\
        (forall m, In m rest <-> In m defaults /\ m <> p) /\
        (NoDup defaults -> NoDup (p :: rest))) /\
    (~ In p defaults -> candidates (Some p) defaults = p :: defaults) /\
    (forall pre post,
        defaults = (pre ++ p :: post)%list -> ~ In p pre -> ~ In p post ->
        candidates (Some p) defaults = (p :: pre ++ post)%list) /\
    (forall pre post,
        defaults = (pre ++ post)%list ->
        candidates (Some p) defaults =
        (p :: tl (candidates (Some p) pre) ++
              tl (candidates (Some p) post))%list) /\
    (forall m, m <> p -> candidates (Some p) [m] = [p; m]) /\
    candidates (Some p) [p] = [p] /\
    candidates None defaults = defaults /\
    candidates (Some "") defaults = defaults.
Proof.
  intros p defaults Hp.
  assert (Hcand : forall l, candidates (Some p) l =
                            p :: filter (fun m => negb (m =? p)) l).
  { intros l. unfold candidates. apply String.eqb_neq in Hp. now rewrite Hp. }
  assert (Hin : forall m, In m (filter (fun m => negb (m =? p)) defaults) <->
                          In m defaults /\ m <> p).
  { intros m. rewrite filter_In, negb_true_iff, String.eqb_neq. tauto. }
  split; [| split; [| split; [| split; [| split; [| split; [| split]]]]]].
  - exists (filter (fun m => negb (m =? p)) defaults).
    split; [apply Hcand |]. split; [| split; [exact Hin |]].
    + intros H. apply Hin in H. now destruct H.
    + intros Hnd. constructor.
      * intros H. apply Hin in H. now destruct H.
      * now apply NoDup_filter.
  - intros Hnot. rewrite Hcand. now rewrite filter_absent.
  - intros pre post -> Hpre Hpost. rewrite Hcand, filter_app. cbn [filter].
    rewrite String.eqb_refl. cbn [negb].
    now rewrite (filter_absent p pre Hpre), (filter_absent p post Hpost).
  - intros pre post ->. rewrite !Hcand. cbn [tl]. now rewrite filter_app.
  - intros m Hm. rewrite Hcand. cbn. apply String.eqb_neq in Hm.
    now rewrite Hm.
  - rewrite Hcand. cbn. now rewrite String.eqb_refl.
  - reflexivity.
  - reflexivity.
Qed.

Lemma candidates_preferred_first_witness :
  candidates (Some "gemini-2.0-flash-lite") ANALYSIS_MODELS =
  [ "gemini-2.0-flash-lite";
    "gemini-2.5-flash";
    "gemini-3-flash-preview";
    "gemini-2.5-flash-preview-09-2025";
    "gemini-2.5-flash-lite-preview-09-2025" ].
Proof.
  assert (Hp : "gemini-2.0-flash-lite" <> "") by discriminate.
  destruct (candidates_preferred_first "gemini-2.0-flash-lite" ANALYSIS_MODELS
              Hp) as [_ [_ [Hsplit _]]].
  apply (Hsplit ["gemini-2.5-flash"; "gemini-3-flash-preview"]
                ["gemini-2.5-flash-preview-09-2025";
                 "gemini-2.5-flash-lite-preview-09-2025"]).
  - reflexivity.
  - cbn. intros [H | [H | []]]; discriminate H.
  - cbn. intros [H | [H | []]]; discriminate H.
Defined.

(** X2.  When the invoker throws, there are two cases only.  Either every
    candidate was called and failed with a retryable error, and the error is
    the summary built from those failures; or the calls stopped at a
    candidate whose error is not retryable, after retryable failures only,
    and the error thrown is that error itself.  An error of the provider that
    is retryable is never thrown to the caller as it is. *)
Theorem fallback_throw_cases :
  forall (T W : Type) (operation : string -> W -> Completion T Error * W)
         (models : list string) (w w' : W) (e : Error),
    tryWithFallback operation models w = (Throw e, w') ->
    (exists failures,
        attempts operation models w = (failures, w') /\
        forallb failsRetryable failures = true /\
        e = allFailed (lastThrown None (thrown failures))
                      (map recordedCode (thrown failures))) \/
    (exists pre post model failures w1,
        models = (pre ++ model :: post)%list /\
        attempts operation pre w = (failures, w1) /\
        forallb failsRetryable failures = true /\
        operation model w1 = (Throw e, w') /\
        isRetryable e = false).
Proof.
  intros T W operation models w w' e. unfold tryWithFallback.
  assert (Hgen : forall lastError errs,
    tryLoop operation models lastError errs w = (Throw e, w') ->
    (exists failures,
        attempts operation models w = (failures, w') /\
        forallb failsRetryable failures = true /\
        e = allFailed (lastThrown lastError (thrown failures))
                      (errs ++ map recordedCode (thrown failures))%list) \/
    (exists pre post model failures w1,
        models = (pre ++ model :: post)%list /\
        attempts operation pre w = (failures, w1) /\
        forallb failsRetryable failures = true /\
        operation model w1 = (Throw e, w') /\
        isRetryable e = false)).
  { revert w. induction models as [|m models IH]; intros w lastError errs H.
    - cbn in H. injection H as <- <-. left. exists []. cbn.
      now rewrite app_nil_r.
    - cbn [tryLoop] in H. destruct (operation m w) as [[r|e0] w0] eqn:Hop.
      + discriminate H.
      + destruct (isRetryable e0) eqn:He0.
        * destruct (IH _ _ _ H) as
            [[failures [Hatt [Hall ->]]] |
             [pre [post [model [failures [w1 [-> [Hatt [Hall [Hlast Hfatal]]]]]]]]]].
          -- left. exists (Throw e0 :: failures). cbn [attempts].
             rewrite Hop, Hatt. split; [reflexivity |]. split.
             ++ cbn. now rewrite He0, Hall.
             ++ cbn [thrown map lastThrown fold_left].
                now rewrite <- app_assoc.
          -- right. exists (m :: pre), post, model, (Throw e0 :: failures), w1.
             cbn [attempts]. rewrite Hop, Hatt. repeat split; auto.
             cbn. now rewrite He0, Hall.
        * injection H as <- <-. right.
          exists [], models, m, [], w. now cbn. }
  intros H. exact (Hgen None [] H).
Qed.

Lemma fallback_throw_cases_witness :
  (exists failures,
      attempts Samples.provider ["m1"; "m0"; "m3"] tt = (failures, tt) /\
      forallb failsRetryable failures = true /\
      Samples.badKey = allFailed (lastThrown None (thrown failures))
                                 (map recordedCode (thrown failures))) \/
  (exists pre post model failures w1,
      ["m1"; "m0"; "m3"] = (pre ++ model :: post)%list /\
      attempts Samples.provider pre tt = (failures, w1) /\
      forallb failsRetryable failures = true /\
      Samples.provider model w1 = (Throw Samples.badKey, tt) /\
      isRetryable Samples.badKey = false).
Proof.
  exact (fallback_throw_cases Z unit Samples.provider ["m1"; "m0"; "m3"] tt tt
           Samples.badKey eq_refl).
Defined.

End FallbackExtras.

(** ** The result of an analysis *)

Section AnalysisExtras.
Import Js Reconcile.

(** X3.  Whatever the model answers, the result of an analysis carries the
    strictness the caller asked for and an empty list of grounding sources:
    fields of these names in the answer are overwritten.  Every other field
    of the result is the field of the answer. *)
Theorem analysis_result_overrides :
  forall (strictness : StrictnessLevel) (data : JsVal),
    exists result,
      analyzeCard_result strictness (mkResponse (JsonText data)) =
      Return (JObj result) /\
      lookup "strictness" result = JStr (strictnessName strictness) /\
      lookup "groundingSources" result = JArr [] /\
      (forall k, k <> "strictness" -> k <> "groundingSources" ->
                 lookup k result = lookup k (spread data)).
Proof.
  intros strictness data. eexists. split; [reflexivity |].
  split; [| split].
  - rewrite lookup_define_other by discriminate. apply lookup_define_same.
  - apply lookup_define_same.
  - intros k H1 H2. now rewrite !lookup_define_other.
Qed.

Lemma analysis_result_overrides_witness :
  exists result,
    analyzeCard_result strict
      (mkResponse (JsonText (JObj [("name", JStr "Pikachu");
                                   ("strictness", JStr "relaxed")]))) =
    Return (JObj result) /\
    lookup "strictness" result = JStr "strict" /\
    lookup "name" result = JStr "Pikachu".
Proof.
  destruct (analysis_result_overrides strict
              (JObj [("name", JStr "Pikachu"); ("strictness", JStr "relaxed")]))
    as [result [Hres [Hs [_ Hother]]]].
  exists result. split; [exact Hres |]. split; [exact Hs |].
  rewrite Hother; [reflexivity | discriminate | discriminate].
Defined.

Lemma or_falsy (v d : JsVal) :
  v = JUndefined \/ v = JNull \/ v = JBool false \/ v = JStr "" \/
  (exists q, v = JNum q /\ (q == 0)%Q) ->
  or v d = d.
Proof.
  intros [-> | [-> | [-> | [-> | [q [-> Hq]]]]]]; try reflexivity.
  unfold or. cbn [truthy]. now rewrite (Qeq_eq_bool _ _ Hq).
Qed.

Lemma or_truthy (v d : JsVal) :
  v = JBool true \/ (exists q, v = JNum q /\ ~ (q == 0)%Q) \/
  (exists s, v = JStr s /\ s <> "") \/ (exists xs, v = JArr xs) \/
  (exists props, v = JObj props) ->
  or v d = v.
Proof.
  intros [-> | [[q [-> Hq]] | [[t [-> Ht]] | [[xs ->] | [props ->]]]]];
    try reflexivity.
  - unfold or. cbn [truthy]. destruct (Qeq_bool q 0) eqn:Hz; [| reflexivity].
    apply Qeq_bool_eq in Hz. contradiction.
  - unfold or. cbn [truthy]. apply String.eqb_neq in Ht. now rewrite Ht.
Qed.

(** X4.  The new card never takes its id, its images, its status, its tags,
    its strictness or its grounding sources from the model's answer: they
    are the scan's own, the status is "inventory" and the sources are
    empty.  Each of the eleven other fields is the field of the answer when
    that is truthy, whatever its type, and the default of the field when it
    is absent, null or falsy (false, the empty text, the number 0). *)
Theorem new_card_fields :
  forall (id : string) (capturedImages : list string)
         (strictness : StrictnessLevel) (data : JsVal),
    exists card,
      reconcile id capturedImages strictness (mkResponse (JsonText data)) =
      Return (JObj card) /\
      lookup "id" card = JStr id /\
      lookup "images" card = JArr (map JStr capturedImages) /\
      lookup "status" card = JStr "inventory" /\
      lookup "tags" card = JArr [] /\
      lookup "strictness" card =
        JStr (match strictness with
              | relaxed => "relaxed"
              | standard => "standard"
              | strict => "strict"
              end) /\
      lookup "groundingSources" card = JArr [] /\
      (forall k d,
          In (k, d)
             [ ("game", JStr "Unknown TCG");
               ("name", JStr "Unknown Card");
               ("set", JStr "Unknown Set");
               ("cardNumber", JStr "???");
               ("rarity", JStr "Common");
               ("isHolo", JBool false);
               ("grading",
                JObj [ ("centering", JStr "NM"); ("centeringReasoning", JStr "");
                       ("corners", JStr "NM"); ("cornersReasoning", JStr "");
                       ("edges", JStr "NM"); ("edgesReasoning", JStr "");
                       ("surface", JStr "NM"); ("surfaceReasoning", JStr "");
                       ("overallCondition", JStr "NM");
                       ("overallNotes", JStr "") ]);
               ("suggestedPrice",
                JObj [ ("low", JNum 0); ("mid", JNum 0); ("high", JNum 0) ]);
               ("agents",
                JObj [ ("conservative",
                        JObj [ ("id", JStr "1"); ("name", JStr "Shopkeeper");
                               ("persona", JStr "Conservative");
                               ("price", JNum 0); ("reasoning", JStr "");
                               ("confidence", JNum 0) ]);
                       ("market",
                        JObj [ ("id", JStr "2"); ("name", JStr "Collector");
                               ("persona", JStr "Market");
                               ("price", JNum 0); ("reasoning", JStr "");
                               ("confidence", JNum 0) ]);
                       ("speculative",
                        JObj [ ("id", JStr "3"); ("name", JStr "Investor");
                               ("persona", JStr "Speculative");
                               ("price", JNum 0); ("reasoning", JStr "");
                               ("confidence", JNum 0) ]) ]);
               ("historicalData", JArr []);
               ("cardIdentifier", JStr "") ] ->
          forall v,
            lookup k (spread data) = v ->
            (v = JUndefined \/ v = JNull \/ v = JBool false \/ v = JStr "" \/
             (exists q, v = JNum q /\ (q == 0)%Q) ->
             lookup k card = d) /\
            (v = JBool true \/ (exists q, v = JNum q /\ ~ (q == 0)%Q) \/
             (exists s, v = JStr s /\ s <> "") \/ (exists xs, v = JArr xs) \/
             (exists props, v = JObj props) ->
             lookup k card = v)).
Proof.
  intros id capturedImages strictness data. eexists.
  split; [cbn; reflexivity |].
  do 4 (split; [reflexivity |]).
  split; [now destruct strictness |].
  split.
  - cbn [lookup String.eqb Ascii.eqb Bool.eqb].
    now rewrite lookup_define_same.
  - intros k d Hin v Hv. cbn [In] in Hin.
    repeat (destruct Hin as [Heq | Hin];
            [ injection Heq as <- <-;
              cbn [lookup String.eqb Ascii.eqb Bool.eqb];
              rewrite result_lookup by discriminate;
              rewrite Hv;
              split; [apply or_falsy | apply or_truthy] |]).
    destruct Hin.
Qed.

Lemma new_card_fields_witness :
  reconcile "k3x9" ["data:image/jpeg;base64,AAAA"] standard
    (mkResponse
       (JsonText (JObj [ ("name", JStr "");
                         ("status", JStr "sold");
                         ("rarity", JNum 7);
                         ("cardNumber", JNum 0);
                         ("grading", JBool false);
                         ("suggestedPrice", JObj [("mid", JNum 5)]);
                         ("agents", JArr []);
                         ("historicalData", JStr "none");
                         ("groundingSources", JStr "web") ]))) =
  Return (JObj
    [ ("id", JStr "k3x9");
      ("game", JStr "Unknown TCG");
      ("name", JStr "Unknown Card");
      ("set", JStr "Unknown Set");
      ("cardNumber", JStr "???");
      ("rarity", JNum 7);
      ("isHolo", JBool false);
      ("strictness", JStr "standard");
      ("grading",
       JObj [ ("centering", JStr "NM"); ("centeringReasoning", JStr "");
              ("corners", JStr "NM"); ("cornersReasoning", JStr "");
              ("edges", JStr "NM"); ("edgesReasoning", JStr "");
              ("surface", JStr "NM"); ("surfaceReasoning", JStr "");
              ("overallCondition", JStr "NM"); ("overallNotes", JStr "") ]);
      ("images", JArr [JStr "data:image/jpeg;base64,AAAA"]);
      ("status", JStr "inventory");
      ("tags", JArr []);
      ("suggestedPrice", JObj [("mid", JNum 5)]);
      ("agents", JArr []);
      ("historicalData", JStr "none");
      ("groundingSources", JArr []);
      ("cardIdentifier", JStr "") ]) /\
  (forall card,
      reconcile "k3x9" ["data:image/jpeg;base64,AAAA"] standard
        (mkResponse
           (JsonText (JObj [ ("name", JStr "");
                             ("status", JStr "sold");
                             ("rarity", JNum 7);
                             ("cardNumber", JNum 0);
                             ("grading", JBool false);
                             ("suggestedPrice", JObj [("mid", JNum 5)]);
                             ("agents", JArr []);
                             ("historicalData", JStr "none");
                             ("groundingSources", JStr "web") ]))) =
      Return (JObj card) ->
      lookup "cardNumber" card = JStr "???" /\
      lookup "rarity" card = JNum 7).
Proof.
  split; [reflexivity |].
  destruct (new_card_fields "k3x9" ["data:image/jpeg;base64,AAAA"] standard
              (JObj [ ("name", JStr "");
                      ("status", JStr "sold");
                      ("rarity", JNum 7);
                      ("cardNumber", JNum 0);
                      ("grading", JBool false);
                      ("suggestedPrice", JObj [("mid", JNum 5)]);
                      ("agents", JArr []);
                      ("historicalData", JStr "none");
                      ("groundingSources", JStr "web") ]))
    as [card [Hcard [_ [_ [_ [_ [_ [_ Hfields]]]]]]]].
  intros card' Hcard'. rewrite Hcard in Hcard'. injection Hcard' as <-.
  split.
  - apply (Hfields "cardNumber" (JStr "???")) with (v := JNum 0);
      [cbn; tauto | reflexivity |].
    right. right. right. right. exists 0%Q. split; reflexivity.
  - apply (Hfields "rarity" (JStr "Common")) with (v := JNum 7);
      [cbn; tauto | reflexivity |].
    right. left. exists 7%Q. split; [reflexivity | discriminate].
Defined.

End AnalysisExtras.

(** ** The scanner and the dashboard *)

Section ScannerExtras.
Import Types Scanner Dashboard.

Lemma filterIndex_below {A : Type} (index : nat) (xs : list A) :
  forall i, (index < i)%nat ->
            filterIndex (fun j => negb (j =? index)%nat) i xs = xs.
Proof.
  induction xs as [|x xs IH]; intros i Hlt; [reflexivity |].
  cbn [filterIndex].
  replace (i =? index)%nat with false by (symmetry; apply Nat.eqb_neq; lia).
  cbn [negb]. f_equal. apply IH. lia.
Qed.

Lemma filterIndex_shift {A : Type} (xs : list A) :
  forall index i,
    filterIndex (fun j => negb (j =? index + i)%nat) i xs =
    (firstn index xs ++ skipn (S index) xs)%list.
Proof.
  induction xs as [|x xs IH]; intros index i.
  - cbn. now destruct index.
  - cbn [filterIndex]. destruct index as [|index].
    + cbn [Nat.add]. rewrite Nat.eqb_refl. cbn [negb firstn skipn app].
      apply filterIndex_below. lia.
    + replace (i =? S index + i)%nat with false
        by (symmetry; apply Nat.eqb_neq; lia).
      cbn [negb firstn skipn app]. f_equal.
      replace (S index + i)%nat with (index + S i)%nat by lia.
      apply IH.
Qed.

(** X5.  Removing the image at an index removes that image and no other:
    the images before and after it stay, in order.  An index past the end
    removes nothing. *)
Theorem remove_image_at_index :
  forall (index : nat) (prev : list string),
    removeImage index prev =
      (firstn index prev ++ skipn (S index) prev)%list /\
    ((index < List.length prev)%nat ->
     S (List.length (removeImage index prev)) = List.length prev) /\
    ((List.length prev <= index)%nat -> removeImage index prev = prev).
Proof.
  intros index prev.
  assert (H : removeImage index prev =
              (firstn index prev ++ skipn (S index) prev)%list).
  { unfold removeImage.
    rewrite <- (filterIndex_shift prev index 0). now rewrite Nat.add_0_r. }
  split; [exact H |]. split.
  - intros Hlt. rewrite H, length_app, length_firstn, length_skipn. lia.
  - intros Hle. rewrite H. rewrite firstn_all2 by exact Hle.
    rewrite skipn_all2 by lia. apply app_nil_r.
Qed.

Lemma remove_image_at_index_witness :
  removeImage 1 ["front"; "back"; "detail"] = ["front"; "detail"] /\
  removeImage 3 ["front"; "back"; "detail"] = ["front"; "back"; "detail"].
Proof.
  destruct (remove_image_at_index 1 ["front"; "back"; "detail"]) as [H1 _].
  destruct (remove_image_at_index 3 ["front"; "back"; "detail"]) as [_ [_ H3]].
  split; [exact H1 |]. apply H3. cbn. lia.
Defined.

(** X6.  The recent scans are the last four cards of the inventory, the
    newest first: the inventory is some older cards followed by the recent
    ones in reverse.  With fewer than four cards all are shown.  A card
    added at the end of the inventory becomes the first recent scan. *)
Theorem recent_cards_newest_first :
  forall (inventory : list CardMetadata),
    List.length (recentCards inventory) = Nat.min 4 (List.length inventory) /\
    (exists older, inventory = (older ++ rev (recentCards inventory))%list) /\
    (forall card,
        recentCards (inventory ++ [card])%list =
        card :: firstn 3 (recentCards inventory)).
Proof.
  intros inventory. unfold recentCards, sliceLast. split; [| split].
  - rewrite length_rev, length_skipn. lia.
  - exists (firstn (List.length inventory - 4) inventory).
    rewrite rev_involutive. symmetry. apply firstn_skipn.
  - intros card. rewrite length_app. cbn [List.length].
    replace (List.length inventory + 1 - 4)%nat
      with (List.length inventory - 3)%nat by lia.
    rewrite skipn_app.
    replace (List.length inventory - 3 - List.length inventory)%nat
      with 0%nat by lia.
    cbn [skipn]. rewrite rev_app_distr. cbn [rev app]. f_equal.
    rewrite firstn_rev, length_skipn, skipn_skipn. do 2 f_equal. lia.
Qed.

End ScannerExtras.

(** ** Editing a card *)

Section DetailsExtras.
Import Js Types Details.

Lemma Qgeb_mono (q1 q2 t : Q) :
  (q1 <= q2)%Q -> Qgeb q1 t = true -> Qgeb q2 t = true.
Proof.
  unfold Qgeb. rewrite !Qle_bool_iff. intros H12 Ht.
  now apply Qle_trans with q1.
Qed.

(** X8.  Reading a condition: each of the five condition names reads as
    itself; a numeric grade of the old scale reads as a condition that never
    gets worse when the grade gets higher; any other value (null, a boolean,
    an unknown or lower-case name) reads as NM. *)
Theorem condition_value_reading :
  (forall c, getConditionValue (JStr (conditionName c)) = c) /\
  (forall q1 q2,
      (q1 <= q2)%Q ->
      (conditionRank (getConditionValue (JNum q2)) <=
       conditionRank (getConditionValue (JNum q1)))%nat) /\
  (forall v,
      (forall c, v <> JStr (conditionName c)) ->
      (forall q, v <> JNum q) ->
      getConditionValue v = NM).
Proof.
  split; [| split].
  - intros []; reflexivity.
  - intros q1 q2 Hle. cbn [getConditionValue].
    pose proof (Qgeb_mono q1 q2 9 Hle) as H9.
    pose proof (Qgeb_mono q1 q2 7.5 Hle) as H7.
    pose proof (Qgeb_mono q1 q2 6 Hle) as H6.
    pose proof (Qgeb_mono q1 q2 4 Hle) as H4.
    destruct (Qgeb q1 9); [rewrite (H9 eq_refl); cbn; lia |].
    destruct (Qgeb q1 7.5);
      [rewrite (H7 eq_refl); destruct (Qgeb q2 9); cbn; lia |].
    destruct (Qgeb q1 6);
      [rewrite (H6 eq_refl); destruct (Qgeb q2 9), (Qgeb q2 7.5); cbn; lia |].
    destruct (Qgeb q1 4);
      [rewrite (H4 eq_refl);
       destruct (Qgeb q2 9), (Qgeb q2 7.5), (Qgeb q2 6); cbn; lia |].
    destruct (Qgeb q2 9), (Qgeb q2 7.5), (Qgeb q2 6), (Qgeb q2 4); cbn; lia.
  - intros v Hname Hnum. destruct v as [| | b | q | s | xs | props];
      try reflexivity.
    + now destruct (Hnum q).
    + cbn [getConditionValue].
      destruct (s =? "NM") eqn:E1; [reflexivity |].
      destruct (s =? "LP") eqn:E2;
        [apply String.eqb_eq in E2; subst s; now destruct (Hname LP) |].
      destruct (s =? "MP") eqn:E3;
        [apply String.eqb_eq in E3; subst s; now destruct (Hname MP) |].
      destruct (s =? "HP") eqn:E4;
        [apply String.eqb_eq in E4; subst s; now destruct (Hname HP) |].
      destruct (s =? "DMG") eqn:E5;
        [apply String.eqb_eq in E5; subst s; now destruct (Hname DMG) |].
      reflexivity.
Qed.

Lemma condition_value_reading_witness :
  (conditionRank (getConditionValue (JNum 9.5)) <=
   conditionRank (getConditionValue (JNum 7)))%nat /\
  getConditionValue (JStr "nm") = NM /\
  getConditionValue (JNum 7) = MP.
Proof.
  destruct condition_value_reading as [_ [Hmono Hother]].
  split; [apply Hmono; discriminate |].
  split; [| reflexivity].
  apply Hother.
  - intros []; discriminate.
  - discriminate.
Defined.

(** X9.  Changing one grading field of a card sets that field and leaves
    every other grading field and every other field of the card as it was.
    In particular the overall condition is not recomputed when the condition
    of one attribute changes. *)
Theorem grade_change_frame :
  forall (field : string) (value : JsVal) (prev : list (string * JsVal)),
    exists card grading,
      handleGradeChange field value (JObj prev) = Return (JObj card) /\
      lookup "grading" card = JObj grading /\
      lookup field grading = value /\
      (forall k, k <> field ->
                 lookup k grading = lookup k (spread (lookup "grading" prev))) /\
      (forall k, k <> "grading" -> lookup k card = lookup k prev).
Proof.
  intros field value prev. eexists _, _. split; [reflexivity |].
  split; [apply lookup_define_same |].
  split; [apply lookup_define_same |].
  split.
  - intros k Hk. now apply lookup_define_other.
  - intros k Hk. now apply lookup_define_other.
Qed.

Lemma grade_change_frame_witness :
  exists card grading,
    handleGradeChange "centering" (JStr "HP") (JObj DetailsSample.graded) =
    Return (JObj card) /\
    lookup "grading" card = JObj grading /\
    lookup "centering" grading = JStr "HP" /\
    lookup "overallCondition" grading = JStr "NM" /\
    lookup "status" card = JStr "inventory".
Proof.
  destruct (grade_change_frame "centering" (JStr "HP") DetailsSample.graded)
    as [card [grading [Hcard [Hg [Hset [Hkeep Hframe]]]]]].
  exists card, grading. split; [exact Hcard |]. split; [exact Hg |].
  split; [exact Hset |]. split.
  - rewrite (Hkeep "overallCondition"); [reflexivity | discriminate].
  - rewrite (Hframe "status"); [reflexivity | discriminate].
Defined.

End DetailsExtras.

(** ** Selection and bulk actions *)

Section SelectionExtras.
Import Js Types Manager.

Lemma has_In (id : string) (s : IdSet) : has id s = true <-> In id s.
Proof.
  unfold has. rewrite existsb_exists. split.
  - intros [x [Hin Hx]]. apply String.eqb_eq in Hx. now subst x.
  - intros Hin. exists id. split; [exact Hin | apply String.eqb_refl].
Qed.

Lemma add_In (id x : string) (s : IdSet) :
  In x (add id s) <-> In x s \/ x = id.
Proof.
  unfold add. destruct (has id s) eqn:Hh.
  - apply has_In in Hh. split; [now left | intros [H | ->]; assumption].
  - rewrite in_app_iff. cbn. intuition.
Qed.

Lemma add_NoDup (id : string) (s : IdSet) : NoDup s -> NoDup (add id s).
Proof.
  intros Hnd. unfold add. destruct (has id s) eqn:Hh; [exact Hnd |].
  apply NoDup_app; [exact Hnd | constructor; [intros [] | constructor] |].
  intros x Hx [<- | []]. apply has_In in Hx. congruence.
Qed.

Lemma delete_In (id x : string) (s : IdSet) :
  In x (delete id s) <-> In x s /\ x <> id.
Proof.
  unfold delete. now rewrite filter_In, negb_true_iff, String.eqb_neq.
Qed.

Lemma fromList_from (ids : list string) :
  forall s,
    NoDup s ->
    NoDup (fold_left (fun s id => add id s) ids s) /\
    (forall x, In x (fold_left (fun s id => add id s) ids s) <->
               In x s \/ In x ids).
Proof.
  induction ids as [|i ids IH]; intros s Hnd; cbn.
  - split; [exact Hnd | intros x; tauto].
  - destruct (IH (add i s) (add_NoDup i s Hnd)) as [Hnd' Hin].
    split; [exact Hnd' |].
    intros x. rewrite Hin, add_In. intuition congruence.
Qed.

(** X10.  Toggling an id selects it when it was not selected and removes
    it when it was; no other id changes, the set keeps each member once, and
    toggling the same id twice gives back the selection that was there. *)
Theorem toggle_select_flips_one :
  forall (id : string) (selectedIds : IdSet),
    NoDup selectedIds ->
    NoDup (toggleSelect id selectedIds) /\
    has id (toggleSelect id selectedIds) = negb (has id selectedIds) /\
    (forall other, other <> id ->
                   has other (toggleSelect id selectedIds) =
                   has other selectedIds) /\
    (forall x, has x (toggleSelect id (toggleSelect id selectedIds)) =
               has x selectedIds).
Proof.
  intros id s Hnd.
  assert (Hflip : forall s0, has id (toggleSelect id s0) = negb (has id s0)).
  { intros s0. unfold toggleSelect. destruct (has id s0) eqn:Hh; cbn [negb].
    - destruct (has id (delete id s0)) eqn:Hd; [| reflexivity].
      apply has_In, delete_In in Hd. now destruct Hd.
    - apply has_In, add_In. now right. }
  assert (Hother : forall s0 other, other <> id ->
                     has other (toggleSelect id s0) = has other s0).
  { intros s0 other Hne. unfold toggleSelect.
    destruct (has id s0) eqn:Hh.
    - destruct (has other s0) eqn:Ho.
      + apply has_In, delete_In. split; [now apply has_In | exact Hne].
      + destruct (has other (delete id s0)) eqn:Hd; [| reflexivity].
        apply has_In, delete_In in Hd. destruct Hd as [Hin _].
        apply has_In in Hin. congruence.
    - destruct (has other s0) eqn:Ho.
      + apply has_In, add_In. left. now apply has_In.
      + destruct (has other (add id s0)) eqn:Ha; [| reflexivity].
        apply has_In, add_In in Ha. destruct Ha as [Hin | ->];
          [apply has_In in Hin; congruence | congruence]. }
  split; [| split; [| split]].
  - unfold toggleSelect. destruct (has id s).
    + now apply NoDup_filter.
    + now apply add_NoDup.
  - apply Hflip.
  - intros other Hne. now apply Hother.
  - intros x. destruct (String.eqb_spec x id) as [-> | Hne].
    + rewrite !Hflip. apply negb_involutive.
    + now rewrite !Hother.
Qed.

Lemma toggle_select_flips_one_witness :
  has "b" (toggleSelect "b" ["a"; "b"; "c"]) = negb (has "b" ["a"; "b"; "c"]) /\
  has "a" (toggleSelect "b" ["a"; "b"; "c"]) = has "a" ["a"; "b"; "c"].
Proof.
  assert (Hnd : NoDup ["a"; "b"; "c"]).
  { repeat constructor; cbn; intuition discriminate. }
  destruct (toggle_select_flips_one "b" ["a"; "b"; "c"] Hnd)
    as [_ [Hflip [Hother _]]].
  split; [exact Hflip |]. apply Hother. discriminate.
Defined.

(** X11.  The selected cards are the cards of the view whose id is
    selected, in the order of the view: the selected cards of a view in two
    parts are those of the first part followed by those of the second, and
    of a single card the card itself or nothing.  A selected id with no card
    in the view selects nothing.  "Select all" selects the ids of the cards
    of the view and so every card of the view, unless the selection has as
    many ids as the view has cards: then it clears the selection, whichever
    ids were selected. *)
Theorem select_all_by_size :
  forall (selectedIds : IdSet) (filteredCards : list CardMetadata),
    (forall card,
        In card (getSelectedCards selectedIds filteredCards) <->
        In card filteredCards /\ In (id card) selectedIds) /\
    (forall front back,
        filteredCards = (front ++ back)%list ->
        getSelectedCards selectedIds filteredCards =
        (getSelectedCards selectedIds front ++
         getSelectedCards selectedIds back)%list) /\
    (forall card,
        (In (id card) selectedIds ->
         getSelectedCards selectedIds [card] = [card]) /\
        (~ In (id card) selectedIds ->
         getSelectedCards selectedIds [card] = [])) /\
    (List.length selectedIds <> List.length filteredCards ->
     getSelectedCards (toggleSelectAll selectedIds filteredCards) filteredCards =
     filteredCards /\
     NoDup (toggleSelectAll selectedIds filteredCards) /\
     (forall x, In x (toggleSelectAll selectedIds filteredCards) <->
                exists card, In card filteredCards /\ id card = x)) /\
    (List.length selectedIds = List.length filteredCards ->
     toggleSelectAll selectedIds filteredCards = [] /\
     getSelectedCards (toggleSelectAll selectedIds filteredCards) filteredCards =
     []).
Proof.
  intros s cards. split; [| split; [| split; [| split]]].
  - intros card. unfold getSelectedCards. now rewrite filter_In, has_In.
  - intros front back ->. unfold getSelectedCards. apply filter_app.
  - intros card. unfold getSelectedCards. cbn [filter]. split.
    + intros Hin. apply has_In in Hin. now rewrite Hin.
    + intros Hnot. destruct (has (id card) s) eqn:Hh; [| reflexivity].
      apply has_In in Hh. contradiction.
  - intros Hne. unfold toggleSelectAll, size.
    apply Nat.eqb_neq in Hne. rewrite Hne.
    destruct (fromList_from (map id cards) [] (NoDup_nil _)) as [Hnd Hin].
    split; [| split; [exact Hnd |]].
    + unfold getSelectedCards. apply forallb_filter_id.
      apply forallb_forall. intros card Hcard.
      apply has_In. apply Hin. right. now apply in_map.
    + intros x. unfold fromList. rewrite Hin, in_map_iff. split.
      * intros [[] | [card [Hid Hcard]]]. now exists card.
      * intros [card [Hcard Hid]]. right. now exists card.
  - intros Heq. unfold toggleSelectAll, size.
    apply Nat.eqb_eq in Heq. rewrite Heq. split; [reflexivity |].
    unfold getSelectedCards. cbn. clear Heq.
    induction cards as [|c cards IH]; [reflexivity | exact IH].
Qed.

Lemma select_all_by_size_witness :
  getSelectedCards (toggleSelectAll ["zz"] [ViewSample.cardA; ViewSample.cardB])
                   [ViewSample.cardA; ViewSample.cardB] =
  [ViewSample.cardA; ViewSample.cardB] /\
  toggleSelectAll ["zz"] [ViewSample.cardA] = [] /\
  getSelectedCards ["C"; "A"]
                   [ViewSample.cardA; ViewSample.cardB; ViewSample.cardC] =
  [ViewSample.cardA; ViewSample.cardC].
Proof.
  destruct (select_all_by_size ["zz"] [ViewSample.cardA; ViewSample.cardB])
    as [_ [_ [_ [Hall _]]]].
  destruct (select_all_by_size ["zz"] [ViewSample.cardA])
    as [_ [_ [_ [_ Hclear]]]].
  destruct (select_all_by_size ["C"; "A"]
              [ViewSample.cardA; ViewSample.cardB; ViewSample.cardC])
    as [_ [Hparts _]].
  split; [| split].
  - apply Hall. discriminate.
  - apply Hclear. reflexivity.
  - rewrite (Hparts [ViewSample.cardA] [ViewSample.cardB; ViewSample.cardC]
                    eq_refl).
    reflexivity.
Defined.

End SelectionExtras.

Section BulkExtras.
Import Js Types View Manager.

Lemma orLit_nonempty (a : option string) (d : string) :
  d <> "" -> orLit a d <> "".
Proof.
  intros Hd. unfold orLit. destruct a as [s|]; [| exact Hd].
  destruct (s =? "") eqn:Hs; [exact Hd | now apply String.eqb_neq].
Qed.

Lemma orLit_keep (s d : string) : s <> "" -> orLit (Some s) d = s.
Proof. intros Hs. cbn. apply String.eqb_neq in Hs. now rewrite Hs. Qed.

(** X12.  Marking a card as listed sets its status to listing and gives it
    a listed date: the one it already has, or now when it has none or an
    empty one.  Every other field of the card, and every other field of its
    listing record (sold date, prices, platforms, URLs, copy, notes), is
    kept; a card without a listing record gets one that holds the listed
    date only.  The date key of the view is then the listed date and the
    price key is unchanged.  Marking the card again later changes
    nothing. *)
Theorem mark_listed_keeps_first_date :
  forall (now : string) (card : CardMetadata),
    now <> "" ->
    status (markAsListed now card) = listing /\
    (id (markAsListed now card) = id card /\
     game (markAsListed now card) = game card /\
     name (markAsListed now card) = name card /\
     set (markAsListed now card) = set card /\
     cardNumber (markAsListed now card) = cardNumber card /\
     rarity (markAsListed now card) = rarity card /\
     isHolo (markAsListed now card) = isHolo card /\
     grading (markAsListed now card) = grading card /\
     strictness (markAsListed now card) = strictness card /\
     images (markAsListed now card) = images card /\
     tags (markAsListed now card) = tags card /\
     suggestedPrice (markAsListed now card) = suggestedPrice card /\
     agents (markAsListed now card) = agents card /\
     historicalData (markAsListed now card) = historicalData card /\
     groundingSources (markAsListed now card) = groundingSources card /\
     cardIdentifier (markAsListed now card) = cardIdentifier card /\
     marketData (markAsListed now card) = marketData card) /\
    (listingInfo card = None ->
     listingInfo (markAsListed now card) =
     Some (mkListingInfo (Some now) None None None None None None None)) /\
    (forall old,
        listingInfo card = Some old ->
        exists info,
          listingInfo (markAsListed now card) = Some info /\
          (forall d, listedDate old = Some d -> d <> "" ->
                     listedDate info = Some d) /\
          (listedDate old = None \/ listedDate old = Some "" ->
           listedDate info = Some now) /\
          soldDate info = soldDate old /\
          listingPrice info = listingPrice old /\
          soldPrice info = soldPrice old /\
          platforms info = platforms old /\
          listingUrls info = listingUrls old /\
          listingCopy info = listingCopy old /\
          notes info = notes old) /\
    (exists d,
        dateOf (markAsListed now card) = d /\ d <> "" /\
        (forall old, listingInfo card = Some old ->
                     forall l, listedDate old = Some l -> l <> "" -> d = l) /\
        (listingInfo card = None -> d = now)) /\
    (forall later, markAsListed later (markAsListed now card) =
                   markAsListed now card) /\
    priceOf (markAsListed now card) = priceOf card.
Proof.
  intros now card Hnow.
  assert (Hnow' := Hnow). apply String.eqb_neq in Hnow'.
  split; [reflexivity |]. split; [repeat split |].
  split; [| split; [| split; [| split]]].
  - intros Hnone. unfold markAsListed, infoOf. cbn. now rewrite Hnone.
  - intros old Hold. eexists. split; [reflexivity |].
    unfold infoOf. rewrite Hold. cbn.
    split; [| split; [| repeat split]].
    + intros d -> Hd. cbn. apply String.eqb_neq in Hd. now rewrite Hd.
    + intros [-> | ->]; reflexivity.
  - unfold dateOf, markAsListed, infoOf, orStr. cbn.
    destruct (listingInfo card) as [[ld sd lp sp pl lu lc nt]|]; cbn.
    + destruct ld as [l|]; cbn.
      * destruct (l =? "") eqn:Hl; cbn.
        -- rewrite Hnow'. cbn. rewrite Hnow'. exists now.
           split; [reflexivity |]. split; [exact Hnow |]. split.
           ++ intros old [= <-] l' [= <-] Hl'.
              apply String.eqb_neq in Hl'. congruence.
           ++ discriminate.
        -- rewrite Hl. cbn. rewrite Hl. exists l.
           split; [reflexivity |]. split; [now apply String.eqb_neq |]. split.
           ++ now intros old [= <-] l' [= <-] _.
           ++ discriminate.
      * rewrite Hnow'. cbn. rewrite Hnow'. exists now.
        split; [reflexivity |]. split; [exact Hnow |]. split.
        -- intros old [= <-] l' Hl'. discriminate Hl'.
        -- discriminate.
    + rewrite Hnow'. cbn. rewrite Hnow'. exists now.
      split; [reflexivity |]. split; [exact Hnow |]. split.
      * intros old Hold. discriminate Hold.
      * reflexivity.
  - intros later.
    unfold markAsListed, infoOf, withListing. cbn.
    destruct (listingInfo card) as [[ld sd lp sp pl lu lc nt]|]; cbn.
    + destruct ld as [l|]; cbn.
      * destruct (l =? "") eqn:Hl; cbn; rewrite ?Hnow', ?Hl; reflexivity.
      * now rewrite Hnow'.
    + now rewrite Hnow'.
  - unfold priceOf, markAsListed, infoOf. cbn.
    destruct (listingInfo card); reflexivity.
Qed.

Lemma mark_listed_keeps_first_date_witness :
  markAsListed "2024-06-01" ViewSample.cardB =
  mkCard "B" "Pokemon" "Bulbasaur" "Base Set" "58/102" "Common" false
         CardSamples.nmGrading Reconcile.standard [] listing []
         (mkSuggested 0 7 0) CardSamples.noAgents [] [] None None
         (Some (mkListingInfo (Some "2024-06-01") None None None None None
                              None None)) /\
  dateOf (markAsListed "2024-06-01" ViewSample.cardA) = "2024-01-01" /\
  markAsListed "2024-07-01" (markAsListed "2024-06-01" ViewSample.cardB) =
  markAsListed "2024-06-01" ViewSample.cardB.
Proof.
  assert (Hnow : "2024-06-01" <> "") by discriminate.
  destruct (mark_listed_keeps_first_date "2024-06-01" ViewSample.cardA Hnow)
    as [_ [_ [_ [_ [[d [Hd [_ [Hkept _]]]] _]]]]].
  destruct (mark_listed_keeps_first_date "2024-06-01" ViewSample.cardB Hnow)
    as [_ [_ [_ [_ [_ [Hagain _]]]]]].
  split; [reflexivity |]. split; [| apply Hagain].
  rewrite Hd. eapply Hkept; [reflexivity | reflexivity | discriminate].
Defined.

(** X13.  Marking a card as sold sets its status to sold and gives it a
    sold date, the one it has or now, without touching its listed date or
    any other field of the card or of its listing record: the date key of
    the view stays what it was for a card that had one, and is now for a
    card that had none.  Returning a card to the inventory changes its
    status only: every other field, its listing record included, and so its
    date key and its price key, stay. *)
Theorem mark_sold_and_inventory_keep_history :
  forall (now : string) (card : CardMetadata),
    now <> "" ->
    status (markAsSold now card) = sold /\
    (id (markAsSold now card) = id card /\
     game (markAsSold now card) = game card /\
     name (markAsSold now card) = name card /\
     set (markAsSold now card) = set card /\
     cardNumber (markAsSold now card) = cardNumber card /\
     rarity (markAsSold now card) = rarity card /\
     isHolo (markAsSold now card) = isHolo card /\
     grading (markAsSold now card) = grading card /\
     strictness (markAsSold now card) = strictness card /\
     images (markAsSold now card) = images card /\
     tags (markAsSold now card) = tags card /\
     suggestedPrice (markAsSold now card) = suggestedPrice card /\
     agents (markAsSold now card) = agents card /\
     historicalData (markAsSold now card) = historicalData card /\
     groundingSources (markAsSold now card) = groundingSources card /\
     cardIdentifier (markAsSold now card) = cardIdentifier card /\
     marketData (markAsSold now card) = marketData card) /\
    (listingInfo card = None ->
     listingInfo (markAsSold now card) =
     Some (mkListingInfo None (Some now) None None None None None None)) /\
    (forall old,
        listingInfo card = Some old ->
        exists info,
          listingInfo (markAsSold now card) = Some info /\
          (forall d, soldDate old = Some d -> d <> "" ->
                     soldDate info = Some d) /\
          (soldDate old = None \/ soldDate old = Some "" ->
           soldDate info = Some now) /\
          listedDate info = listedDate old /\
          listingPrice info = listingPrice old /\
          soldPrice info = soldPrice old /\
          platforms info = platforms old /\
          listingUrls info = listingUrls old /\
          listingCopy info = listingCopy old /\
          notes info = notes old) /\
    dateOf (markAsSold now card) =
      (if dateOf card =? "" then now else dateOf card) /\
    priceOf (markAsSold now card) = priceOf card /\
    status (markAsInventory card) = inventory /\
    listingInfo (markAsInventory card) = listingInfo card /\
    (id (markAsInventory card) = id card /\
     game (markAsInventory card) = game card /\
     name (markAsInventory card) = name card /\
     set (markAsInventory card) = set card /\
     cardNumber (markAsInventory card) = cardNumber card /\
     rarity (markAsInventory card) = rarity card /\
     isHolo (markAsInventory card) = isHolo card /\
     grading (markAsInventory card) = grading card /\
     strictness (markAsInventory card) = strictness card /\
     images (markAsInventory card) = images card /\
     tags (markAsInventory card) = tags card /\
     suggestedPrice (markAsInventory card) = suggestedPrice card /\
     agents (markAsInventory card) = agents card /\
     historicalData (markAsInventory card) = historicalData card /\
     groundingSources (markAsInventory card) = groundingSources card /\
     cardIdentifier (markAsInventory card) = cardIdentifier card /\
     marketData (markAsInventory card) = marketData card) /\
    dateOf (markAsInventory card) = dateOf card /\
    priceOf (markAsInventory card) = priceOf card.
Proof.
  intros now card Hnow.
  assert (Hnow' := Hnow). apply String.eqb_neq in Hnow'.
  split; [reflexivity |]. split; [repeat split |].
  split; [| split; [| split; [| split]]].
  - intros Hnone. unfold markAsSold, infoOf. cbn. now rewrite Hnone.
  - intros old Hold. eexists. split; [reflexivity |].
    unfold infoOf. rewrite Hold. cbn.
    split; [| split; [| repeat split]].
    + intros d -> Hd. cbn. apply String.eqb_neq in Hd. now rewrite Hd.
    + intros [-> | ->]; reflexivity.
  - unfold dateOf, markAsSold, infoOf. cbn.
    destruct (listingInfo card) as [[ld sd lp sp pl lu lc nt]|]; cbn;
      [unfold orStr; destruct ld as [l|]; cbn;
       [destruct (l =? "") eqn:Hl; cbn |];
       try (destruct sd as [s|]; cbn; [destruct (s =? "") eqn:Hs; cbn |]) |];
      repeat match goal with
             | H : (_ =? "") = _ |- _ => rewrite H; cbn
             end; reflexivity.
  - unfold priceOf, markAsSold, infoOf. cbn.
    destruct (listingInfo card); reflexivity.
  - repeat split.
Qed.

Lemma mark_sold_and_inventory_keep_history_witness :
  markAsSold "2024-06-01" ViewSample.cardA =
  mkCard "A" "Pokemon" "Abra" "Base Set" "58/102" "Common" false
         CardSamples.nmGrading Reconcile.standard [] sold []
         (mkSuggested 0 5 0) CardSamples.noAgents [] [] None None
         (Some (mkListingInfo (Some "2024-01-01") (Some "2024-06-01") None None
                              None None None None)) /\
  markAsInventory ViewSample.cardA =
  mkCard "A" "Pokemon" "Abra" "Base Set" "58/102" "Common" false
         CardSamples.nmGrading Reconcile.standard [] Types.inventory []
         (mkSuggested 0 5 0) CardSamples.noAgents [] [] None None
         (Some (mkListingInfo (Some "2024-01-01") None None None None None
                              None None)) /\
  dateOf (markAsSold "2024-06-01" ViewSample.cardA) = "2024-01-01" /\
  dateOf (markAsSold "2024-06-01" ViewSample.cardB) = "2024-06-01".
Proof.
  assert (Hnow : "2024-06-01" <> "") by discriminate.
  destruct (mark_sold_and_inventory_keep_history "2024-06-01" ViewSample.cardA
              Hnow) as [_ [_ [_ [_ [HA _]]]]].
  destruct (mark_sold_and_inventory_keep_history "2024-06-01" ViewSample.cardB
              Hnow) as [_ [_ [_ [_ [HB _]]]]].
  split; [reflexivity |]. split; [reflexivity |].
  split; [exact HA | exact HB].
Defined.

(** X14.  The three counts per status of the aggregation add up to the
    count of all cards, for every list of cards. *)
Theorem stats_counts_add_up :
  forall (Number : Type) (number : Q -> Number)
         (plus : Number -> Number -> Number) (cards : list CardMetadata),
    stat_all (stats number plus cards) =
    (stat_inventory (stats number plus cards) +
     stat_listing (stats number plus cards) +
     stat_sold (stats number plus cards))%nat.
Proof.
  intros Number number plus cards.
  cbn [stats stat_all stat_inventory stat_listing stat_sold].
  unfold countStatus. induction cards as [|c cards IH]; [reflexivity |].
  cbn [List.length filter]. rewrite IH.
  destruct (status c); cbn; lia.
Qed.

End BulkExtras.

Section ViewExtras.
Import Js Types View.

Lemma Substring_trans (a b c : string) :
  Substring a b -> Substring b c -> Substring a c.
Proof.
  intros [p1 [q1 ->]] [p2 [q2 ->]]. exists (p2 ++ p1), (q1 ++ q2).
  now rewrite !string_app_assoc.
Qed.

(** X15.  A search text whose lower-cased form is part of the lower-cased
    form of another, not empty, search text keeps every card that the other
    keeps, with the same status filter: going from the second text to the
    first never removes a card from the view. *)
Theorem longer_query_narrows :
  forall (toLowerCase : string -> string)
         (inventory : list CardMetadata) (statusFilter : StatusFilter)
         (shorter longer : string) (sortField : SortField)
         (sortDirection : SortDirection) (card : CardMetadata),
    longer <> "" ->
    (exists pre post,
        toLowerCase longer = pre ++ toLowerCase shorter ++ post) ->
    In card (filteredCards toLowerCase inventory statusFilter longer sortField
                           sortDirection) ->
    In card (filteredCards toLowerCase inventory statusFilter shorter sortField
                           sortDirection).
Proof.
  intros toLowerCase inventory statusFilter shorter longer sortField
         sortDirection card Hlong Hsub Hin.
  unfold filteredCards in *.
  apply (Permutation_in _ (Permutation_sym (sort_perm _ _))).
  apply (Permutation_in _ (sort_perm _ _)) in Hin.
  rewrite filtered_as_filter in *. rewrite filter_In in *.
  destruct Hin as [Hinv Hpass]. split; [exact Hinv |].
  apply andb_true_iff in Hpass as [Hstatus Hmatch].
  rewrite Hstatus. cbn [andb].
  destruct (shorter =? "") eqn:Hs; [reflexivity |]. cbn [orb].
  apply String.eqb_neq in Hlong. rewrite Hlong in Hmatch.
  cbn [orb] in Hmatch. apply matchesQuery_spec in Hmatch.
  apply matchesQuery_spec. destruct Hmatch as [field [Hf Hq]].
  exists field. split; [exact Hf |].
  apply Substring_trans with (toLowerCase longer); [exact Hsub | exact Hq].
Qed.

Lemma longer_query_narrows_witness :
  In (CardSamples.card "3" "Charmander" listing 4
                       (CardSamples.listedOn "2024-02-01"))
     (filteredCards ViewSample.asciiLower ViewSample.five all "AR" byName asc).
Proof.
  apply (longer_query_narrows ViewSample.asciiLower ViewSample.five all "AR"
                              "Charm" byName asc).
  - discriminate.
  - exists "ch", "m". reflexivity.
  - vm_compute. tauto.
Defined.

Lemma compareCards_flip (f : SortField) (a b : CardMetadata) :
  compareCards f asc a b = (- compareCards f asc b a)%Z.
Proof.
  destruct f; cbn [compareCards]; unfold outcome.
  - destruct (String.ltb (name a) (name b)) eqn:H1.
    + now rewrite (string_ltb_asym _ _ H1).
    + destruct (String.ltb (name b) (name a)); reflexivity.
  - destruct (Qltb (priceOf a) (priceOf b)) eqn:H1.
    + now rewrite (Qltb_asym _ _ H1).
    + destruct (Qltb (priceOf b) (priceOf a)); reflexivity.
  - destruct (String.ltb (dateOf a) (dateOf b)) eqn:H1.
    + now rewrite (string_ltb_asym _ _ H1).
    + destruct (String.ltb (dateOf b) (dateOf a)); reflexivity.
  - destruct (String.ltb (statusName (status a)) (statusName (status b))) eqn:H1.
    + now rewrite (string_ltb_asym _ _ H1).
    + destruct (String.ltb (statusName (status b)) (statusName (status a)));
        reflexivity.
Qed.

Lemma StronglySorted_snoc {A : Type} (R : A -> A -> Prop) (x : A) (m : list A) :
  StronglySorted R m -> (forall z, In z m -> R z x) ->
  StronglySorted R (m ++ [x])%list.
Proof.
  induction 1 as [|y m Hs IH Hall]; intros Hin; cbn.
  - constructor; constructor.
  - constructor.
    + apply IH. intros z Hz. apply Hin. now right.
    + apply Forall_app. split; [exact Hall |].
      constructor; [apply Hin; now left | constructor].
Qed.

Lemma StronglySorted_rev {A : Type} (R : A -> A -> Prop) (l : list A) :
  StronglySorted R l -> StronglySorted (fun a b => R b a) (rev l).
Proof.
  induction 1 as [|x l Hs IH Hall]; cbn; [constructor |].
  apply StronglySorted_snoc; [exact IH |].
  intros z Hz. rewrite Forall_forall in Hall. apply Hall. now apply in_rev.
Qed.

Lemma untied_classes (f : SortField) (l : list CardMetadata) :
  ForallOrdPairs (fun a b => tied f a b = false) l ->
  forall c, (List.length (filter (tied f c) l) <= 1)%nat.
Proof.
  induction 1 as [|x l Hx Hrest IH]; intros c; cbn; [lia |].
  destruct (tied f c x) eqn:Hcx; [| apply IH].
  assert (Hnone : filter (tied f c) l = []).
  { clear IH Hrest. induction l as [|y l IHl]; [reflexivity |].
    inversion Hx as [|? ? Hxy Hx']; subst. cbn.
    destruct (tied f c y) eqn:Hcy; [| now apply IHl].
    pose proof (compareCards_class f asc c x y Hcx Hcy) as Hzero.
    unfold tied in Hxy. rewrite Hzero in Hxy. discriminate. }
  rewrite Hnone. cbn. lia.
Qed.

(** X16.  When no two cards of the filtered list have tied keys, the
    descending view is the ascending view reversed.  (With tied keys it is
    not: tied cards keep the filtered order in both directions.) *)
Theorem descending_is_reverse_without_ties :
  forall (toLowerCase : string -> string)
         (inventory : list CardMetadata) (statusFilter : StatusFilter)
         (searchQuery : string) (sortField : SortField),
    ForallOrdPairs (fun a b => tied sortField a b = false)
                   (filtered toLowerCase inventory statusFilter searchQuery) ->
    filteredCards toLowerCase inventory statusFilter searchQuery sortField desc =
    rev (filteredCards toLowerCase inventory statusFilter searchQuery sortField asc).
Proof.
  intros toLowerCase inventory statusFilter searchQuery sortField Hties.
  symmetry. apply filteredCards_unique.
  - apply Permutation_trans
      with (filteredCards toLowerCase inventory statusFilter searchQuery sortField asc).
    + apply Permutation_sym, Permutation_rev.
    + apply sort_perm.
  - apply StronglySorted_impl
      with (R := fun a b => (compareCards sortField asc b a <= 0)%Z).
    + intros a b H. rewrite compareCards_desc, (compareCards_flip sortField a b).
      lia.
    + apply StronglySorted_rev with
        (R := fun a b => (compareCards sortField asc a b <= 0)%Z).
      apply sort_sorted; [apply compareCards_total | apply compareCards_trans].
  - intros c. rewrite filter_rev. unfold filteredCards.
    rewrite filter_sort.
    + pose proof (untied_classes sortField _ Hties c) as Hone.
      destruct (filter (tied sortField c)
                       (filtered toLowerCase inventory statusFilter searchQuery))
        as [|x [|y l]]; cbn in *; [reflexivity | reflexivity | lia].
    + intros x y Hx Hy.
      rewrite (compareCards_class sortField asc c x y Hx Hy). lia.
Qed.

Lemma descending_is_reverse_without_ties_witness :
  filteredCards ViewSample.asciiLower ViewSample.five all "" byName desc =
  rev (filteredCards ViewSample.asciiLower ViewSample.five all "" byName asc).
Proof.
  apply descending_is_reverse_without_ties.
  repeat (constructor; [repeat (constructor; [vm_compute; reflexivity |]);
                        constructor |]).
  constructor.
Defined.

End ViewExtras.

(** ** The address of the server *)

Section AddressExtras.
Import Js Api Settings.

Lemma includes_char_cons (c d : ascii) (s : string) :
  includes (String d s) (String c EmptyString) =
  Ascii.eqb c d || includes s (String c EmptyString).
Proof.
  cbn [includes startsWith]. destruct (Ascii.eqb c d); cbn; [| reflexivity].
  now destruct s.
Qed.

Lemma includes_char_app (c : ascii) (a b : string) :
  includes (a ++ b) (String c EmptyString) =
  includes a (String c EmptyString) || includes b (String c EmptyString).
Proof.
  induction a as [|d a IH].
  - cbn [append]. destruct b; reflexivity.
  - cbn [append]. rewrite !includes_char_cons, IH. now rewrite orb_assoc.
Qed.

Lemma split_head_clean (c : ascii) (s : string) :
  includes (hd EmptyString (split c s)) (String c EmptyString) = false.
Proof.
  induction s as [|d s IH]; cbn [split]; [reflexivity |].
  destruct (Ascii.eqb d c) eqn:Hd; [reflexivity |].
  destruct (split c s) as [|first rest]; cbn [hd] in *.
  - rewrite includes_char_cons. rewrite Ascii.eqb_sym, Hd. reflexivity.
  - rewrite includes_char_cons, IH. rewrite Ascii.eqb_sym, Hd. reflexivity.
Qed.

Lemma split_head_app (c : ascii) (host rest : string) :
  includes host (String c EmptyString) = false ->
  hd EmptyString (split c (host ++ String c rest)) = host.
Proof.
  induction host as [|d host IH]; intros Hclean.
  - cbn. now rewrite Ascii.eqb_refl.
  - rewrite includes_char_cons in Hclean.
    apply orb_false_iff in Hclean as [Hd Hclean].
    cbn [append split]. rewrite Ascii.eqb_sym, Hd.
    specialize (IH Hclean).
    destruct (split c (host ++ String c rest)) as [|first more];
      cbn [hd] in *; now subst.
Qed.

Lemma cleanIp_no_port (input : string) :
  includes (cleanIp input) ":" = false.
Proof.
  unfold cleanIp.
  destruct (includes (stripTrailingSlash (stripScheme input)) ":") eqn:H.
  - apply split_head_clean.
  - exact H.
Qed.

Lemma getBaseUrl_cleanIp (saved : option string) :
  getBaseUrl saved = "http://" ++ cleanIp (orLit saved "localhost") ++ ":3001".
Proof. reflexivity. Qed.

(** X17.  Whatever address is saved, the base URL is "http://", a host
    without any colon, and the port 3001: a port typed by the user never
    reaches the URL.  Without a saved address, or with an empty one, the host
    is localhost.  The address that the settings store after cleaning has no
    colon either. *)
Theorem base_url_forces_port :
  forall (saved : option string),
    (exists host,
        getBaseUrl saved = "http://" ++ host ++ ":3001" /\
        includes host ":" = false) /\
    getBaseUrl None = "http://localhost:3001" /\
    getBaseUrl (Some "") = "http://localhost:3001" /\
    (forall input, includes (cleanIp input) ":" = false).
Proof.
  intros saved. split; [| split; [| split]].
  - exists (cleanIp (orLit saved "localhost")).
    split; [apply getBaseUrl_cleanIp | apply cleanIp_no_port].
  - reflexivity.
  - reflexivity.
  - apply cleanIp_no_port.
Qed.

Lemma dropPrefix_app (p s : string) : dropPrefix p (p ++ s) = Some s.
Proof.
  induction p as [|c p IH]; cbn; [now destruct s |].
  now rewrite Ascii.eqb_refl.
Qed.

Lemma dropPrefix_colon (p s r : string) :
  includes p ":" = true -> dropPrefix p s = Some r -> includes s ":" = true.
Proof.
  revert s; induction p as [|c p IH]; intros s Hp Hdrop; [discriminate |].
  destruct s as [|d s]; [discriminate |]. cbn [dropPrefix] in Hdrop.
  destruct (Ascii.eqb c d) eqn:Hcd; [| discriminate].
  apply Ascii.eqb_eq in Hcd. subst d.
  rewrite includes_char_cons in *.
  destruct (Ascii.eqb ":" c); [reflexivity |]. cbn [orb] in *.
  now apply IH.
Qed.

Lemma stripScheme_clean (host : string) :
  includes host ":" = false -> stripScheme host = host.
Proof.
  intros Hclean. unfold stripScheme.
  destruct (dropPrefix "http://" host) as [r|] eqn:H1.
  - apply dropPrefix_colon in H1; [congruence | reflexivity].
  - destruct (dropPrefix "https://" host) as [r|] eqn:H2; [| reflexivity].
    apply dropPrefix_colon in H2; [congruence | reflexivity].
Qed.

Lemma stripTrailingSlash_clean (host : string) :
  includes host "/" = false -> stripTrailingSlash host = host.
Proof.
  induction host as [|c host IH]; intros Hclean; [reflexivity |].
  rewrite includes_char_cons in Hclean.
  apply orb_false_iff in Hclean as [Hc Hclean].
  cbn [stripTrailingSlash]. destruct host as [|d host].
  - rewrite Ascii.eqb_sym, Hc. reflexivity.
  - now rewrite IH.
Qed.

Lemma stripTrailingSlash_app (a b : string) :
  b <> "" -> stripTrailingSlash (a ++ b) = a ++ stripTrailingSlash b.
Proof.
  intros Hb. induction a as [|c a IH]; [reflexivity |].
  cbn [append stripTrailingSlash].
  destruct (a ++ b) as [|d r] eqn:Hab.
  - destruct a; [cbn in Hab; congruence | discriminate].
  - now rewrite IH.
Qed.

Lemma dropPrefix_spec (p s r : string) : dropPrefix p s = Some r -> s = p ++ r.
Proof.
  revert s; induction p as [|c p IH]; intros s H.
  - destruct s; cbn in H; now injection H as <-.
  - destruct s as [|d s]; [discriminate |]. cbn [dropPrefix] in H.
    destruct (Ascii.eqb c d) eqn:Hcd; [| discriminate].
    apply Ascii.eqb_eq in Hcd. subst d. cbn. f_equal. now apply IH.
Qed.

Lemma first_split_unique (c : ascii) (a : string) :
  forall a' b b',
    includes a (String c EmptyString) = false ->
    includes a' (String c EmptyString) = false ->
    a ++ String c b = a' ++ String c b' -> a = a' /\ b = b'.
Proof.
  induction a as [|x a IH]; intros a' b b' Ha Ha' Heq.
  - destruct a' as [|y a']; cbn in Heq.
    + injection Heq as ->. now split.
    + injection Heq as <- _. rewrite includes_char_cons in Ha'.
      rewrite Ascii.eqb_refl in Ha'. discriminate.
  - destruct a' as [|y a']; cbn in Heq.
    + injection Heq as -> _. rewrite includes_char_cons in Ha.
      rewrite Ascii.eqb_refl in Ha. discriminate.
    + injection Heq as <- Heq.
      rewrite includes_char_cons in Ha, Ha'.
      apply orb_false_iff in Ha as [_ Ha].
      apply orb_false_iff in Ha' as [_ Ha'].
      destruct (IH a' b b' Ha Ha' Heq) as [-> ->]. now split.
Qed.

Lemma stripScheme_host_port (host port : string) :
  includes host ":" = false -> includes port "/" = false ->
  stripScheme (host ++ String ":" port) = host ++ String ":" port.
Proof.
  intros Hhost Hport. unfold stripScheme.
  destruct (dropPrefix "http://" (host ++ String ":" port)) as [r|] eqn:H1.
  - apply dropPrefix_spec in H1.
    change ("http://" ++ r) with ("http" ++ String ":" ("//" ++ r)) in H1.
    apply first_split_unique in H1; [| exact Hhost | reflexivity].
    destruct H1 as [_ ->]. discriminate Hport.
  - destruct (dropPrefix "https://" (host ++ String ":" port)) as [r|] eqn:H2;
      [| reflexivity].
    apply dropPrefix_spec in H2.
    change ("https://" ++ r) with ("https" ++ String ":" ("//" ++ r)) in H2.
    apply first_split_unique in H2; [| exact Hhost | reflexivity].
    destruct H2 as [_ ->]. discriminate Hport.
Qed.

Lemma clean_host_port (host rest : string) :
  includes host ":" = false ->
  (if includes (stripTrailingSlash (host ++ String ":" rest)) ":"
   then hd EmptyString (split ":" (stripTrailingSlash (host ++ String ":" rest)))
   else stripTrailingSlash (host ++ String ":" rest)) = host.
Proof.
  intros Hclean.
  rewrite stripTrailingSlash_app by discriminate.
  assert (Hrest : exists rest', stripTrailingSlash (String ":" rest) =
                                String ":" rest').
  { cbn [stripTrailingSlash]. destruct rest; eexists; reflexivity. }
  destruct Hrest as [rest' ->].
  rewrite includes_char_app, includes_char_cons.
  cbn [Ascii.eqb Bool.eqb orb]. rewrite orb_true_r.
  now apply split_head_app.
Qed.

Lemma clean_host (host : string) :
  includes host ":" = false -> includes host "/" = false ->
  (if includes (stripTrailingSlash host) ":"
   then hd EmptyString (split ":" (stripTrailingSlash host))
   else stripTrailingSlash host) = host.
Proof.
  intros Hcolon Hslash. rewrite (stripTrailingSlash_clean host Hslash).
  now rewrite Hcolon.
Qed.

Lemma clean_host_slash (host : string) :
  includes host ":" = false ->
  (if includes (stripTrailingSlash (host ++ "/")) ":"
   then hd EmptyString (split ":" (stripTrailingSlash (host ++ "/")))
   else stripTrailingSlash (host ++ "/")) = host.
Proof.
  intros Hcolon. rewrite stripTrailingSlash_app by discriminate.
  cbn [stripTrailingSlash Ascii.eqb Bool.eqb].
  rewrite string_app_empty_r. now rewrite Hcolon.
Qed.

(** X18.  For a host name without colon or slash, every usual way of
    typing the address gives the same base URL: the bare host, the host with
    an http or https scheme, with a trailing slash, with a port, or with all
    of them. *)
Theorem base_url_normal_forms :
  forall (host port : string),
    host <> "" ->
    includes host ":" = false ->
    includes host "/" = false ->
    includes port "/" = false ->
    Forall (fun saved => getBaseUrl (Some saved) = "http://" ++ host ++ ":3001")
           [ host;
             "http://" ++ host;
             "https://" ++ host;
             host ++ "/";
             host ++ String ":" port;
             "http://" ++ host ++ String ":" port ++ "/";
             "https://" ++ host ++ String ":" port ++ "/" ].
Proof.
  intros host port Hne Hcolon Hslash Hport.
  assert (Hurl : forall saved,
             saved <> "" -> cleanIp saved = host ->
             getBaseUrl (Some saved) = "http://" ++ host ++ ":3001").
  { intros saved Hs Hc. rewrite getBaseUrl_cleanIp.
    cbn [orLit]. apply String.eqb_neq in Hs. now rewrite Hs, Hc. }
  repeat constructor; apply Hurl; try discriminate; unfold cleanIp.
  - exact Hne.
  - rewrite (stripScheme_clean host Hcolon). now apply clean_host.
  - change (stripScheme ("http://" ++ host)) with
      (match dropPrefix "http://" ("http://" ++ host) with
       | Some rest => rest
       | None => match dropPrefix "https://" ("http://" ++ host) with
                 | Some rest => rest
                 | None => "http://" ++ host
                 end
       end).
    rewrite dropPrefix_app. now apply clean_host.
  - assert (Hs : stripScheme ("https://" ++ host) = host).
    { unfold stripScheme.
      replace (dropPrefix "http://" ("https://" ++ host)) with (@None string)
        by reflexivity.
      now rewrite dropPrefix_app. }
    rewrite Hs. now apply clean_host.
  - destruct host; [congruence | discriminate].
  - assert (Hs : stripScheme (host ++ "/") = host ++ "/").
    { apply stripScheme_clean. rewrite includes_char_app, Hcolon. reflexivity. }
    rewrite Hs. now apply clean_host_slash.
  - destruct host; discriminate.
  - rewrite (stripScheme_host_port host port Hcolon Hport).
    now apply clean_host_port.
  - assert (Hs : stripScheme ("http://" ++ host ++ String ":" port ++ "/") =
                 host ++ String ":" (port ++ "/")).
    { unfold stripScheme. now rewrite dropPrefix_app. }
    rewrite Hs. now apply clean_host_port.
  - assert (Hs : stripScheme ("https://" ++ host ++ String ":" port ++ "/") =
                 host ++ String ":" (port ++ "/")).
    { unfold stripScheme.
      replace (dropPrefix "http://"
                 ("https://" ++ host ++ String ":" port ++ "/"))
        with (@None string) by reflexivity.
      now rewrite dropPrefix_app. }
    rewrite Hs. now apply clean_host_port.
Qed.

Lemma base_url_normal_forms_witness :
  Forall (fun saved => getBaseUrl (Some saved) = "http://192.168.1.20:3001")
         [ "192.168.1.20";
           "http://192.168.1.20";
           "https://192.168.1.20";
           "192.168.1.20/";
           "192.168.1.20:8080";
           "http://192.168.1.20:8080/";
           "https://192.168.1.20:8080/" ].
Proof.
  apply (base_url_normal_forms "192.168.1.20" "8080");
    [discriminate | reflexivity | reflexivity | reflexivity].
Defined.

End AddressExtras.

(** ** From a data URL to a file *)

Section DataUrlExtras.
Import Js Api.

Lemma split_clean (c : ascii) (s : string) :
  includes s (String c EmptyString) = false -> split c s = [s].
Proof.
  induction s as [|d s IH]; intros Hclean; [reflexivity |].
  rewrite includes_char_cons in Hclean.
  apply orb_false_iff in Hclean as [Hd Hclean].
  cbn [split]. rewrite Ascii.eqb_sym, Hd. now rewrite (IH Hclean).
Qed.

Lemma split_two (c : ascii) (a b : string) :
  includes a (String c EmptyString) = false ->
  includes b (String c EmptyString) = false ->
  split c (a ++ String c b) = [a; b].
Proof.
  intros Ha Hb. induction a as [|d a IH].
  - cbn [append split]. rewrite Ascii.eqb_refl. now rewrite (split_clean c b Hb).
  - rewrite includes_char_cons in Ha.
    apply orb_false_iff in Ha as [Hd Ha].
    cbn [append split]. rewrite Ascii.eqb_sym, Hd. now rewrite (IH Ha).
Qed.

Lemma upToSemicolon_app (mime rest : string) :
  includes mime ";" = false ->
  includes mime (String (ascii_of_nat 10) EmptyString) = false ->
  includes mime (String (ascii_of_nat 13) EmptyString) = false ->
  upToSemicolon (mime ++ String ";" rest) = Some mime.
Proof.
  induction mime as [|d mime IH]; intros Hsemi Hlf Hcr; [reflexivity |].
  rewrite includes_char_cons in Hsemi, Hlf, Hcr.
  apply orb_false_iff in Hsemi as [Hd1 Hsemi].
  apply orb_false_iff in Hlf as [Hd2 Hlf].
  apply orb_false_iff in Hcr as [Hd3 Hcr].
  cbn [append upToSemicolon]. unfold isLineTerminator.
  rewrite (Ascii.eqb_sym d ";"), Hd1.
  rewrite (Ascii.eqb_sym d (ascii_of_nat 10)), Hd2.
  rewrite (Ascii.eqb_sym d (ascii_of_nat 13)), Hd3.
  cbn [orb]. now rewrite (IH Hsemi Hlf Hcr).
Qed.

Lemma mimeMatch_no_colon (header : string) :
  includes header ":" = false -> mimeMatch header = None.
Proof.
  induction header as [|d header IH]; intros Hclean; [reflexivity |].
  rewrite includes_char_cons in Hclean.
  apply orb_false_iff in Hclean as [Hd Hclean].
  cbn [mimeMatch]. rewrite (Ascii.eqb_sym d ":"), Hd. now apply IH.
Qed.

(** X19.  A data URL "data:", a media type, ";base64,", a payload becomes
    a file of that media type, with the given name, whose content is what
    [atob] makes of the payload.  A text whose part before the comma names no
    media type becomes a file of type image/png. *)
Theorem data_url_to_file :
  forall (atob : string -> option string) (mime payload filename bits : string),
    includes mime ";" = false ->
    includes mime "," = false ->
    includes mime (String (ascii_of_nat 10) EmptyString) = false ->
    includes mime (String (ascii_of_nat 13) EmptyString) = false ->
    includes payload "," = false ->
    atob payload = Some bits ->
    base64ToFile atob ("data:" ++ mime ++ ";base64," ++ payload) filename =
      mkFile bits filename mime /\
    (forall header,
        includes header "," = false ->
        includes header ":" = false ->
        base64ToFile atob (header ++ String "," payload) filename =
        mkFile bits filename "image/png").
Proof.
  intros atob mime payload filename bits Hsemi Hcomma Hlf Hcr Hpay Hatob.
  split.
  - unfold base64ToFile.
    replace ("data:" ++ mime ++ ";base64," ++ payload)
      with (("data:" ++ mime ++ ";base64") ++ String "," payload)
      by (cbn; now rewrite !string_app_assoc).
    rewrite split_two; [| | exact Hpay].
    + cbn [List.length Nat.ltb Nat.leb nth].
      change ("data:" ++ mime ++ ";base64")
        with (String "d" (String "a" (String "t" (String "a"
                (String ":" (mime ++ String ";" "base64")))))).
      cbn [mimeMatch Ascii.eqb Bool.eqb].
      rewrite (upToSemicolon_app mime "base64" Hsemi Hlf Hcr).
      now rewrite Hatob.
    + rewrite !includes_char_app, Hcomma. reflexivity.
  - intros header Hh Hcolon. unfold base64ToFile.
    rewrite split_two; [| exact Hh | exact Hpay].
    cbn [List.length Nat.ltb Nat.leb nth].
    rewrite (mimeMatch_no_colon header Hcolon). now rewrite Hatob.
Qed.

Lemma data_url_to_file_witness :
  base64ToFile UploadSample.atob "data:image/jpeg;base64,SkZJRg==" "scan.jpg" =
  mkFile "JFIF" "scan.jpg" "image/jpeg".
Proof.
  exact (proj1 (data_url_to_file UploadSample.atob "image/jpeg" "SkZJRg=="
                  "scan.jpg" "JFIF" eq_refl eq_refl eq_refl eq_refl eq_refl
                  eq_refl)).
Defined.

End DataUrlExtras.

(** ** Reading from the server *)

Section ClientExtras.
Import Js Api Client.



(** X21.  Fetching market data through the server never throws.  It sends
    the card in one POST request that carries the refresh flag.  When the
    response is ok and its body is JSON, the answer is the parsed body.
    When no response comes, or it is not ok, or its body is not JSON, the
    answer is market data that holds nothing but an expiry 24 hours after
    the failure, so the failure is remembered as cached data. *)
Theorem client_market_data_fallback :
  forall (W : Type) (Date_now : W -> Z) (toISOString : Z -> string)
         (localStorage_getItem : string -> W -> option string)
         (fetch : Request -> W -> Completion Response Error * W)
         (card : JsVal) (forceRefresh : bool) (w : W),
    (forall res w' marketData,
        fetch (mkRequest "POST"
                 (baseUrl localStorage_getItem w ++ "/api/market-data?force=" ++
                  (if forceRefresh then "true" else "false"))
                 (Some card)) w = (Return res, w') ->
        ok res = true -> json res = Return marketData ->
        fetchMarketData Date_now toISOString localStorage_getItem fetch
                        card forceRefresh w = (Return marketData, w')) /\
    (forall res w',
        fetch (mkRequest "POST"
                 (baseUrl localStorage_getItem w ++ "/api/market-data?force=" ++
                  (if forceRefresh then "true" else "false"))
                 (Some card)) w = (Return res, w') ->
        ok res = false \/ (exists e, json res = Throw e) ->
        fetchMarketData Date_now toISOString localStorage_getItem fetch
                        card forceRefresh w =
        (Return (JObj [("cacheExpiry",
                        JStr (toISOString (Date_now w' + 86400000)%Z))]),
         w')) /\
    (forall e w',
        fetch (mkRequest "POST"
                 (baseUrl localStorage_getItem w ++ "/api/market-data?force=" ++
                  (if forceRefresh then "true" else "false"))
                 (Some card)) w = (Throw e, w') ->
        fetchMarketData Date_now toISOString localStorage_getItem fetch
                        card forceRefresh w =
        (Return (JObj [("cacheExpiry",
                        JStr (toISOString (Date_now w' + 86400000)%Z))]),
         w')).
Proof.
  intros W Date_now toISOString getItem fetch card forceRefresh w.
  split; [| split].
  - intros res w' md Hf Hok Hj. unfold fetchMarketData.
    now rewrite Hf, Hok, Hj.
  - intros res w' Hf [Hok | [e Hj]]; unfold fetchMarketData; rewrite Hf.
    + now rewrite Hok.
    + rewrite Hj. now destruct (ok res).
  - intros e w' Hf. unfold fetchMarketData. now rewrite Hf.
Qed.

Lemma client_market_data_fallback_witness :
  fetchMarketData ClientSample.Date_now ClientSample.toISOString
                  ClientSample.localStorage_getItem ClientSample.fetch
                  (JObj [("id", JStr "c1")]) true tt =
    (Return (JObj [("cacheExpiry", JStr "2030-01-01T00:00:00.000Z")]), tt) /\
  fetchMarketData ClientSample.Date_now ClientSample.toISOString
                  ClientSample.localStorage_getItem ClientSample.fetch
                  (JObj [("id", JStr "c1")]) false tt =
    (Return (JObj [("cacheExpiry", JStr "1700086400000")]), tt).
Proof.
  destruct (client_market_data_fallback unit ClientSample.Date_now
              ClientSample.toISOString ClientSample.localStorage_getItem
              ClientSample.fetch (JObj [("id", JStr "c1")]) true tt)
    as [Hok _].
  destruct (client_market_data_fallback unit ClientSample.Date_now
              ClientSample.toISOString ClientSample.localStorage_getItem
              ClientSample.fetch (JObj [("id", JStr "c1")]) false tt)
    as [_ [_ Hdown]].
  split.
  - exact (Hok _ tt _ eq_refl eq_refl eq_refl).
  - exact (Hdown _ tt eq_refl).
Defined.

End ClientExtras.

(** ** The provider calls of a market-data fetch *)

Section MarketExtras.
Import Js Types Market.
Context {W : Type}.
Variable Date_now : W -> Z.
Variable Date_parse : string -> option Z.
Variable toISOString : Z -> string.
Variable encodeURIComponent : string -> string.
Variable search : string -> string -> string -> W -> option Z * W.
Variable pricing : Z -> W -> option TcgPlayerData * W.

Lemma refetch_log (card : CardMetadata) (w : W) (log : list ProviderCall) :
  exists later,
    snd (snd (refetch (fun wl => Date_now (fst wl)) toISOString
                      encodeURIComponent (loggedSearch search)
                      (loggedPricing pricing) card (w, log))) =
    (log ++ Search (name card) (set card) (game card) :: later)%list.
Proof.
  unfold refetch, loggedSearch.
  destruct (search (name card) (set card) (game card) w) as [[p|] w1].
  - destruct (p =? 0)%Z.
    + now exists [].
    + unfold loggedPricing. destruct (pricing p w1) as [tcg w2].
      exists [Pricing p]. cbn. now rewrite <- app_assoc.
  - now exists [].
Qed.

End MarketExtras.

Section MarketExtraClaims.
Import Js Types Market.

(** X22.  A fetch that does not use the cache calls the provider's product
    search once, and the pricing call only after a search that found a
    product, for that product, and at most once.  The market data it returns
    always has the eBay and the Cardmarket search links, built from the
    encoded name, set and number of the card, and an expiry 86400000
    milliseconds (24 hours) after the start; it has TCGPlayer data exactly
    when the pricing call answered with data. *)
Theorem refetch_call_discipline :
  forall (W : Type) (Date_now : W -> Z) (toISOString : Z -> string)
         (encodeURIComponent : string -> string)
         (search : string -> string -> string -> W -> option Z * W)
         (pricing : Z -> W -> option TcgPlayerData * W)
         (card : CardMetadata) (w : W) (log : list ProviderCall),
    exists fresh w' calls productId w1,
      refetch (fun wl => Date_now (fst wl)) toISOString encodeURIComponent
              (loggedSearch search) (loggedPricing pricing) card (w, log) =
      (fresh, (w', calls)) /\
      search (name card) (set card) (game card) w = (productId, w1) /\
      (productId = None \/ productId = Some 0%Z ->
       calls = (log ++ [Search (name card) (set card) (game card)])%list /\
       tcgplayer fresh = None /\ w' = w1) /\
      (forall p, productId = Some p -> p <> 0%Z ->
                 calls = (log ++ [Search (name card) (set card) (game card);
                                  Pricing p])%list /\
                 (tcgplayer fresh, w') = pricing p w1) /\
      ebay fresh =
        Some (mkLink
                (Some ("https://www.ebay.com/sch/i.html?_nkw=" ++
                       encodeURIComponent
                         (name card ++ " " ++ set card ++ " " ++
                          cardNumber card)))
                (Some (toISOString (Date_now w')))) /\
      cardmarket fresh =
        Some (mkLink
                (Some ("https://www.cardmarket.com/en/" ++ game card ++
                       "/Products/Search?searchString=" ++
                       encodeURIComponent (name card ++ " " ++ set card)))
                (Some (toISOString (Date_now w')))) /\
      cacheExpiry fresh = Some (toISOString (Date_now w + 86400000)%Z).
Proof.
  intros W Date_now toISOString encodeURIComponent search pricing card w log.
  unfold refetch, loggedSearch. cbn [fst].
  destruct (search (name card) (set card) (game card) w) as [[p|] w1] eqn:Hs.
  - destruct (p =? 0)%Z eqn:Hp.
    + apply Z.eqb_eq in Hp. subst p.
      eexists _, _, _, _, _. split; [reflexivity |]. split; [reflexivity |].
      split; [intros _; repeat split |].
      split; [intros p [= <-] Hne; congruence |].
      repeat split.
    + apply Z.eqb_neq in Hp. unfold loggedPricing.
      destruct (pricing p w1) as [tcg w2] eqn:Hpr.
      eexists _, _, _, _, _. split; [reflexivity |]. split; [reflexivity |].
      split; [intros [H | H]; [discriminate | injection H as ->; congruence] |].
      split.
      * intros p' [= <-] _. split; [now rewrite <- app_assoc |].
        now rewrite Hpr.
      * repeat split.
  - eexists _, _, _, _, _. split; [reflexivity |]. split; [reflexivity |].
    split; [intros _; repeat split |].
    split; [intros p H; discriminate H |].
    repeat split.
Qed.

Lemma refetch_call_discipline_witness :
  refetch (fun wl => MarketSample.Date_now (fst wl))
          MarketSample.toISOString MarketSample.encodeURIComponent
          (loggedSearch MarketSample.search)
          (loggedPricing MarketSample.pricing)
          MarketSample.card (tt, []) =
  (mkMarketData
     (Some (mkTcgPlayer (Some 42%Z) None None None None None))
     (Some (mkLink
              (Some "https://www.ebay.com/sch/i.html?_nkw=Pikachu Base Set 58/102")
              (Some "1893452400000")))
     (Some (mkLink
              (Some "https://www.cardmarket.com/en/Pokemon/Products/Search?searchString=Pikachu Base Set")
              (Some "1893452400000")))
     (Some "1893538800000"),
   (tt, [Search "Pikachu" "Base Set" "Pokemon"; Pricing 42])).
Proof.
  destruct (refetch_call_discipline unit MarketSample.Date_now
              MarketSample.toISOString MarketSample.encodeURIComponent
              MarketSample.search MarketSample.pricing MarketSample.card tt [])
    as [fresh [w' [calls [productId [w1 [Hrun [Hsearch [_ [Hfound
       [Hebay [Hmarket Hexpiry]]]]]]]]]]].
  rewrite Hrun.
  injection Hsearch as <- <-.
  destruct (Hfound 42%Z eq_refl) as [Hcalls Hprice]; [discriminate |].
  injection Hprice as Htcg Hw. destruct w'.
  destruct fresh as [t e c x]. cbn in *. subst. reflexivity.
Defined.

(** X23.  A fetch of market data leaves the provider alone in one case
    only: no refresh is forced, the card has market data with an expiry that
    is not empty, the expiry is a valid date, and that date is strictly after
    now.  In every other case (forced, no market data, no expiry, an invalid
    date, a date that is now or past) the provider's search is called. *)
Theorem cache_hit_exactly_when_valid :
  forall (W : Type) (Date_now : W -> Z) (Date_parse : string -> option Z)
         (toISOString : Z -> string) (encodeURIComponent : string -> string)
         (search : string -> string -> string -> W -> option Z * W)
         (pricing : Z -> W -> option TcgPlayerData * W)
         (card : CardMetadata) (forceRefresh : bool) (w : W)
         (log : list ProviderCall),
    snd (snd (fetchMarketData (fun wl => Date_now (fst wl)) Date_parse
                toISOString encodeURIComponent (loggedSearch search)
                (loggedPricing pricing) card forceRefresh (w, log))) = log <->
    (forceRefresh = false /\
     exists cached expiryText expiry,
       marketData card = Some cached /\
       cacheExpiry cached = Some expiryText /\
       expiryText <> "" /\
       Date_parse expiryText = Some expiry /\
       (Date_now w < expiry)%Z).
Proof.
  intros W Date_now Date_parse toISOString encodeURIComponent search pricing
         card forceRefresh w log.
  assert (Hmiss :
    snd (snd (refetch (fun wl => Date_now (fst wl)) toISOString
                      encodeURIComponent (loggedSearch search)
                      (loggedPricing pricing) card (w, log))) <> log).
  { destruct (refetch_log Date_now toISOString encodeURIComponent search
                pricing card w log) as [later ->].
    intros H. rewrite <- (app_nil_r log) in H at 2.
    apply app_inv_head in H. discriminate H. }
  unfold fetchMarketData. split.
  - intros Hlog.
    destruct (marketData card) as [cached|]; [| contradiction].
    destruct forceRefresh; cbn [negb andb] in Hlog; [contradiction |].
    split; [reflexivity |].
    destruct (cacheExpiry cached) as [text|] eqn:Hexp;
      cbn [strTruthy] in Hlog; [| contradiction].
    destruct (text =? "") eqn:Ht; cbn [negb] in Hlog; [contradiction |].
    destruct (Date_parse text) as [t|] eqn:Hparse;
      unfold inFuture in Hlog; cbn [fst] in Hlog; [| contradiction].
    destruct (Date_now w <? t)%Z eqn:Hlt; [| contradiction].
    exists cached, text, t.
    split; [reflexivity |]. split; [exact Hexp |].
    split; [now apply String.eqb_neq |].
    split; [exact Hparse | now apply Z.ltb_lt].
  - intros [-> [cached [text [t [-> [Hexp [Hne [Hparse Hlt]]]]]]]].
    rewrite Hexp. cbn [negb andb strTruthy].
    apply String.eqb_neq in Hne. rewrite Hne. cbn [negb].
    rewrite Hparse. unfold inFuture. cbn [fst].
    apply Z.ltb_lt in Hlt. now rewrite Hlt.
Qed.

Lemma cache_hit_exactly_when_valid_witness :
  snd (snd (fetchMarketData (fun wl => MarketSample.Date_now (fst wl))
              MarketSample.Date_parse MarketSample.toISOString
              MarketSample.encodeURIComponent
              (loggedSearch MarketSample.search)
              (loggedPricing MarketSample.pricing)
              MarketSample.card false (tt, []))) = [].
Proof.
  apply (proj2 (cache_hit_exactly_when_valid unit MarketSample.Date_now
                  MarketSample.Date_parse MarketSample.toISOString
                  MarketSample.encodeURIComponent MarketSample.search
                  MarketSample.pricing MarketSample.card false tt [])).
  split; [reflexivity |].
  exists MarketSample.cached, MarketSample.expiryText, MarketSample.expiryTime.
  repeat split; (discriminate || reflexivity).
Defined.

End MarketExtraClaims.

(** ** The provider token *)

Section TokenExtras.
Import Js Api Reconcile Token.

(** X24.  Getting the provider token.  Without both keys the answer is
    null and no request is made.  With both keys and a cached token whose
    expiry is after now, the cached token is the answer and no request is
    made.  Otherwise one request is made: when it fails in any way the answer
    is null and the cache is left as it was; when it answers with a token
    and a lifetime in seconds, the token is cached with an expiry one minute
    before the end of its lifetime, so a later call before that expiry
    returns the same token without a request. *)
Theorem token_cache_discipline :
  forall (W : Type) (Date_now : W -> Z) (hasLocalStorage : W -> bool)
         (savedKeys : W -> option ResponseText)
         (envPublicKey envPrivateKey : W -> JsVal)
         (ToNumber : JsVal -> option Q)
         (fetchToken : JsVal -> JsVal -> W -> Completion Response Error * W),
    let getToken :=
      getTCGPlayerToken Date_now hasLocalStorage savedKeys envPublicKey
                        envPrivateKey ToNumber fetchToken in
    let keysOf := fun w =>
      spread (getTCGPlayerConfig hasLocalStorage savedKeys envPublicKey
                                 envPrivateKey w) in
    let configured := fun w =>
      (exists props,
          getTCGPlayerConfig hasLocalStorage savedKeys envPublicKey
                             envPrivateKey w = JObj props) /\
      truthy (lookup "publicKey" (keysOf w)) = true /\
      truthy (lookup "privateKey" (keysOf w)) = true in
    (forall tokenCache w props,
        getTCGPlayerConfig hasLocalStorage savedKeys envPublicKey
                           envPrivateKey w = JObj props ->
        truthy (lookup "publicKey" props) = false \/
        truthy (lookup "privateKey" props) = false ->
        getToken tokenCache w = (Return JNull, tokenCache, w)) /\
    (forall c w,
        configured w ->
        cacheValid Date_now (Some c) w = true ->
        getToken (Some c) w = (Return (token c), Some c, w)) /\
    (forall tokenCache w,
        configured w ->
        cacheValid Date_now tokenCache w = false ->
        forall outcome w',
          fetchToken (lookup "publicKey" (keysOf w))
                     (lookup "privateKey" (keysOf w)) w = (outcome, w') ->
          ((exists e, outcome = Throw e) \/
           (exists res, outcome = Return res /\
                        (ok res = false \/ (exists e, json res = Throw e) \/
                         json res = Return JNull)) ->
           getToken tokenCache w = (Return JNull, tokenCache, w')) /\
          (forall res data lifetime,
              outcome = Return res -> ok res = true ->
              json res = Return (JObj data) ->
              lookup "expires_in" data = JNum lifetime ->
              ~ (lifetime == 0)%Q ->
              let fresh :=
                mkTokenCache
                  (lookup "access_token" data)
                  (Some (inject_Z (Date_now w') + lifetime * 1000 - 60000)%Q) in
              getToken tokenCache w =
                (Return (lookup "access_token" data), Some fresh, w') /\
              (forall later,
                  configured later ->
                  (inject_Z (Date_now later) <
                   inject_Z (Date_now w') + lifetime * 1000 - 60000)%Q ->
                  getToken (Some fresh) later =
                  (Return (lookup "access_token" data), Some fresh, later)))).
Proof.
  intros W Date_now hasLocalStorage savedKeys envPublicKey envPrivateKey
         ToNumber fetchToken getToken keysOf configured.
  assert (Hvalid : forall c w,
             configured w ->
             cacheValid Date_now (Some c) w = true ->
             getToken (Some c) w = (Return (token c), Some c, w)).
  { intros c w [[props Hcfg] [Hpk Hsk]] Hv.
    unfold keysOf in Hpk, Hsk. rewrite Hcfg in Hpk, Hsk. cbn [spread] in *.
    unfold getToken, getTCGPlayerToken. rewrite Hcfg. cbn [get].
    rewrite Hpk, Hsk. cbn [negb]. now rewrite Hv. }
  split; [| split; [exact Hvalid |]].
  - intros tokenCache w props Hcfg Hfalsy.
    unfold getToken, getTCGPlayerToken. rewrite Hcfg. cbn [get].
    destruct (truthy (lookup "publicKey" props)) eqn:Hpk; cbn [negb];
      [| reflexivity].
    destruct Hfalsy as [H | H]; [discriminate |]. now rewrite H.
  - intros tokenCache w [[props Hcfg] [Hpk Hsk]] Hinvalid outcome w' Hfetch.
    unfold keysOf in Hpk, Hsk, Hfetch.
    rewrite Hcfg in Hpk, Hsk, Hfetch. cbn [spread] in *.
    assert (Hrun : getToken tokenCache w =
              match requestToken Date_now ToNumber fetchToken
                      (lookup "publicKey" props) (lookup "privateKey" props) w
              with
              | (Return c, w1) => (Return (token c), Some c, w1)
              | (Throw _, w1) => (Return JNull, tokenCache, w1)
              end).
    { unfold getToken, getTCGPlayerToken. rewrite Hcfg. cbn [get].
      rewrite Hpk, Hsk. cbn [negb]. now rewrite Hinvalid. }
    split.
    + intros Hfail. rewrite Hrun. unfold requestToken. rewrite Hfetch.
      destruct Hfail as [[e ->] | [res [-> Hres]]]; [reflexivity |].
      destruct Hres as [Hok | [[e He] | Hnull]].
      * now rewrite Hok.
      * destruct (ok res); cbn [negb]; [now rewrite He | reflexivity].
      * destruct (ok res); cbn [negb]; [now rewrite Hnull | reflexivity].
    + intros res data lifetime -> Hok Hjson Hlife Hnz.
      set (fresh := mkTokenCache (lookup "access_token" data)
                      (Some (inject_Z (Date_now w') + lifetime * 1000 - 60000)%Q)).
      assert (Hfirst : getToken tokenCache w =
                (Return (lookup "access_token" data), Some fresh, w')).
      { rewrite Hrun. unfold requestToken. rewrite Hfetch, Hok. cbn [negb].
        rewrite Hjson. cbn [bind get]. rewrite Hlife.
        unfold or. cbn [truthy].
        destruct (Qeq_bool lifetime 0) eqn:Hz.
        - apply Qeq_bool_eq in Hz. contradiction.
        - reflexivity. }
      split; [exact Hfirst |].
      intros later Hconf Hbefore. apply Hvalid; [exact Hconf |].
      unfold cacheValid, fresh. cbn [expires].
      now apply Qltb_lt.
Qed.

Lemma token_cache_discipline_witness :
  getTCGPlayerToken TokenSample.Date_now TokenSample.hasLocalStorage
                    TokenSample.savedKeys TokenSample.envKey TokenSample.envKey
                    TokenSample.ToNumber TokenSample.fetchToken None 1000%Z =
  (Return (JStr "tok-1"),
   Some (mkTokenCache (JStr "tok-1")
           (Some (inject_Z 1200 + 3600 * 1000 - 60000)%Q)),
   1200%Z) /\
  getTCGPlayerToken TokenSample.Date_now TokenSample.hasLocalStorage
                    TokenSample.savedKeys TokenSample.envKey TokenSample.envKey
                    TokenSample.ToNumber TokenSample.fetchToken
                    (Some (mkTokenCache (JStr "tok-1")
                             (Some (inject_Z 1200 + 3600 * 1000 - 60000)%Q)))
                    3000000%Z =
  (Return (JStr "tok-1"),
   Some (mkTokenCache (JStr "tok-1")
           (Some (inject_Z 1200 + 3600 * 1000 - 60000)%Q)),
   3000000%Z) /\
  getTCGPlayerToken TokenSample.Date_now TokenSample.hasLocalStorage
                    TokenSample.noKeys TokenSample.envKey TokenSample.envKey
                    TokenSample.ToNumber TokenSample.fetchToken None 1000%Z =
  (Return JNull, None, 1000%Z).
Proof.
  destruct (token_cache_discipline Z TokenSample.Date_now
              TokenSample.hasLocalStorage TokenSample.savedKeys
              TokenSample.envKey TokenSample.envKey TokenSample.ToNumber
              TokenSample.fetchToken) as [_ [_ Hrefresh]].
  destruct (token_cache_discipline Z TokenSample.Date_now
              TokenSample.hasLocalStorage TokenSample.noKeys
              TokenSample.envKey TokenSample.envKey TokenSample.ToNumber
              TokenSample.fetchToken) as [Hnone _].
  assert (Hconf : forall w : Z,
             (exists props,
                 getTCGPlayerConfig TokenSample.hasLocalStorage
                   TokenSample.savedKeys TokenSample.envKey TokenSample.envKey
                   w = JObj props) /\
             truthy (lookup "publicKey"
                       (spread (getTCGPlayerConfig TokenSample.hasLocalStorage
                                  TokenSample.savedKeys TokenSample.envKey
                                  TokenSample.envKey w))) = true /\
             truthy (lookup "privateKey"
                       (spread (getTCGPlayerConfig TokenSample.hasLocalStorage
                                  TokenSample.savedKeys TokenSample.envKey
                                  TokenSample.envKey w))) = true).
  { intros w. split; [eexists; reflexivity | split; reflexivity]. }
  destruct (Hrefresh None 1000%Z (Hconf 1000%Z) eq_refl _ _ eq_refl)
    as [_ Hok].
  destruct (Hok _ _ 3600%Q eq_refl eq_refl eq_refl eq_refl) as [Hfirst Hsecond].
  { discriminate. }
  split; [exact Hfirst |]. split.
  - apply Hsecond; [apply Hconf | reflexivity].
  - eapply Hnone; [reflexivity | left; reflexivity].
Defined.

End TokenExtras.

(** ** The card routes of the server *)

Section ServerExtras.
Import Js Server.

Lemma findIndex_miss (id : string) (cards : list JsVal) :
  Forall (fun c => exists v, get c "id" = Return v /\ eqString v id = false)
         cards ->
  forall i, findIndex id i cards = Return None.
Proof.
  induction 1 as [| c rest [v [Hget Hne]] _ IH]; intros i; [reflexivity |].
  cbn [findIndex]. rewrite Hget. cbn [bind]. rewrite Hne. apply IH.
Qed.

Lemma findIndex_hit (id : string) (pre : list JsVal) (c : JsVal)
      (post : list JsVal) (v : JsVal) :
  Forall (fun c => exists v, get c "id" = Return v /\ eqString v id = false)
         pre ->
  get c "id" = Return v -> eqString v id = true ->
  forall i,
    findIndex id i (pre ++ c :: post)%list =
    Return (Some (i + List.length pre)%nat).
Proof.
  intros Hpre Hget Heq.
  induction Hpre as [| p rest [pv [Hp Hne]] _ IH]; intros i.
  - cbn [app findIndex List.length]. rewrite Hget. cbn [bind]. rewrite Heq.
    now rewrite Nat.add_0_r.
  - cbn [app findIndex List.length]. rewrite Hp. cbn [bind]. rewrite Hne.
    rewrite IH. do 2 f_equal. lia.
Qed.

Lemma assignAt_middle (value : JsVal) (pre : list JsVal) (c : JsVal)
      (post : list JsVal) :
  assignAt (List.length pre) value (pre ++ c :: post)%list =
  (pre ++ value :: post)%list.
Proof.
  induction pre as [| p pre IH]; [reflexivity |].
  cbn [List.length app assignAt]. now rewrite IH.
Qed.

Lemma findIndex_unreadable (id : string) (pre : list JsVal) (c : JsVal)
      (post : list JsVal) :
  Forall (fun c => exists v, get c "id" = Return v /\ eqString v id = false)
         pre ->
  c = JNull \/ c = JUndefined ->
  forall i,
    findIndex id i (pre ++ c :: post)%list =
    Throw (TypeError "Cannot read properties").
Proof.
  intros Hpre Hc.
  induction Hpre as [| p rest [pv [Hp Hne]] _ IH]; intros i.
  - destruct Hc as [-> | ->]; reflexivity.
  - cbn [app findIndex]. rewrite Hp. cbn [bind]. rewrite Hne. apply IH.
Qed.

(** X25.  An update replaces the first stored card whose id is the id of the
    path by the whole body of the request and answers with that body; the
    cards before and after it stay as they are, also a later card with the
    same id.  The id of the body is not compared with the id of the path, so
    the stored card may have another id afterwards.  When an entry before
    the first match is null, the handler fails before it answers. *)
Theorem put_replaces_first_match :
  forall (id : string) (body : JsVal) (pre : list JsVal) (c : JsVal)
         (post : list JsVal),
    Forall (fun c => exists v, get c "id" = Return v /\ eqString v id = false)
           pre ->
    (get c "id" = Return (JStr id) ->
     putCard id body (pre ++ c :: post)%list =
     Return (Json 200 body, (pre ++ body :: post)%list)) /\
    (c = JNull \/ c = JUndefined ->
     putCard id body (pre ++ c :: post)%list =
     Throw (TypeError "Cannot read properties")).
Proof.
  intros id body pre c post Hpre. split.
  - intros Hget. unfold putCard.
    rewrite (findIndex_hit id pre c post (JStr id) Hpre Hget);
      [| cbn [eqString]; apply String.eqb_refl].
    cbn [bind Nat.add]. now rewrite assignAt_middle.
  - intros Hc. unfold putCard.
    now rewrite (findIndex_unreadable id pre c post Hpre Hc).
Qed.

Lemma put_replaces_first_match_witness :
  putCard "b" (JObj [("id", JStr "z"); ("name", JStr "Mew")])
          [ JObj [("id", JStr "a")]; JObj [("id", JStr "b")];
            JObj [("id", JStr "b"); ("name", JStr "Abra")] ] =
  Return (Json 200 (JObj [("id", JStr "z"); ("name", JStr "Mew")]),
          [ JObj [("id", JStr "a")];
            JObj [("id", JStr "z"); ("name", JStr "Mew")];
            JObj [("id", JStr "b"); ("name", JStr "Abra")] ]).
Proof.
  refine (proj1 (put_replaces_first_match "b"
                   (JObj [("id", JStr "z"); ("name", JStr "Mew")])
                   [ JObj [("id", JStr "a")] ] (JObj [("id", JStr "b")])
                   [ JObj [("id", JStr "b"); ("name", JStr "Abra")] ] _)
                eq_refl).
  constructor; [| constructor].
  exists (JStr "a"). split; reflexivity.
Defined.

(** X26.  A new card is stored at the end without any check of its id, and
    reading the cards gives the stored list and changes nothing.  An update
    for an id that no stored card has answers 404 and changes nothing; after
    the card with that id is stored the same update replaces it, at the end,
    and when the card was stored twice, the first of the two only. *)
Theorem post_then_put :
  forall (id : string) (card body : JsVal) (cards : list JsVal),
    Forall (fun c => exists v, get c "id" = Return v /\ eqString v id = false)
           cards ->
    get card "id" = Return (JStr id) ->
    putCard id body cards = Return (Text 404 "Card not found", cards) /\
    getCards (snd (postCard card cards)) =
      (Json 200 (JArr (cards ++ [card])%list), (cards ++ [card])%list) /\
    putCard id body (snd (postCard card cards)) =
      Return (Json 200 body, (cards ++ [body])%list) /\
    putCard id body (snd (postCard card (snd (postCard card cards)))) =
      Return (Json 200 body, (cards ++ [body; card])%list).
Proof.
  intros id card body cards Hcards Hget. split; [| split; [| split]].
  - unfold putCard. now rewrite findIndex_miss.
  - reflexivity.
  - cbn [postCard snd]. unfold putCard.
    rewrite (findIndex_hit id cards card [] (JStr id) Hcards Hget);
      [| cbn [eqString]; apply String.eqb_refl].
    cbn [bind Nat.add]. now rewrite assignAt_middle.
  - cbn [postCard snd]. rewrite <- app_assoc. cbn [app]. unfold putCard.
    rewrite (findIndex_hit id cards card [card] (JStr id) Hcards Hget);
      [| cbn [eqString]; apply String.eqb_refl].
    cbn [bind Nat.add]. now rewrite assignAt_middle.
Qed.

Lemma post_then_put_witness :
  putCard "b" (JObj [("id", JStr "b"); ("name", JStr "Mew")])
          [ JObj [("id", JStr "a")] ] =
    Return (Text 404 "Card not found", [ JObj [("id", JStr "a")] ]) /\
  putCard "b" (JObj [("id", JStr "b"); ("name", JStr "Mew")])
          (snd (postCard (JObj [("id", JStr "b")])
                         [ JObj [("id", JStr "a")] ])) =
    Return (Json 200 (JObj [("id", JStr "b"); ("name", JStr "Mew")]),
            [ JObj [("id", JStr "a")];
              JObj [("id", JStr "b"); ("name", JStr "Mew")] ]).
Proof.
  assert (H : Forall (fun c => exists v, get c "id" = Return v /\
                                         eqString v "b" = false)
                     [ JObj [("id", JStr "a")] ]).
  { constructor; [| constructor]. exists (JStr "a"). split; reflexivity. }
  destruct (post_then_put "b" (JObj [("id", JStr "b")])
              (JObj [("id", JStr "b"); ("name", JStr "Mew")])
              [ JObj [("id", JStr "a")] ] H eq_refl) as [H1 [_ [H2 _]]].
  split; [exact H1 | exact H2].
Defined.

End ServerExtras.

(** ** The inventory of the application *)

Section AppExtras.
Import Js Types App.

Lemma replaceById_ids (u : CardMetadata) (prev : list CardMetadata) :
  map id (replaceById u prev) = map id prev.
Proof.
  unfold replaceById. rewrite map_map. apply map_ext. intros c.
  destruct (id c =? id u) eqn:E; [| reflexivity].
  apply String.eqb_eq in E. now symmetry.
Qed.

Lemma replaceById_absent (u : CardMetadata) (prev : list CardMetadata) :
  ~ In (id u) (map id prev) -> replaceById u prev = prev.
Proof.
  unfold replaceById. induction prev as [| c prev IH]; [reflexivity |].
  cbn [map In]. intros Hnot.
  destruct (id c =? id u) eqn:E.
  - apply String.eqb_eq in E. exfalso. apply Hnot. now left.
  - f_equal. apply IH. intros Hin. apply Hnot. now right.
Qed.

Lemma replaceAll_step (u : CardMetadata) (rest prev : list CardMetadata) :
  replaceAll (u :: rest) prev = replaceAll rest (replaceById u prev).
Proof.
  unfold replaceAll, replaceById. rewrite map_map. apply map_ext. intros c.
  cbn [mapGet]. rewrite (String.eqb_sym (id u) (id c)).
  destruct (id c =? id u) eqn:E.
  - apply String.eqb_eq in E. rewrite <- E.
    now destruct (mapGet (id c) rest).
  - now destruct (mapGet (id c) rest).
Qed.

Lemma replaceAll_fold (updatedCards prev : list CardMetadata) :
  replaceAll updatedCards prev =
  fold_left (fun inv u => replaceById u inv) updatedCards prev.
Proof.
  revert prev. induction updatedCards as [| u rest IH]; intros prev.
  - unfold replaceAll. cbn [mapGet fold_left]. apply map_id.
  - rewrite replaceAll_step. cbn [fold_left]. apply IH.
Qed.

(** X27.  Updating a card never throws, and never changes the view, the
    selected card, the number of cards or their ids.  When the server
    refuses the update, the inventory stays as it was.  When it accepts,
    every card with the id of the updated card is the updated card, the
    other cards stay at their places, and an id that is not in the inventory
    leaves the inventory as it was. *)
Theorem update_card_replaces_by_id :
  forall (W : Type)
         (updateCard : CardMetadata -> W -> Completion CardMetadata Error * W)
         (updatedCard : CardMetadata) (s : State) (w : W),
    snd (handleUpdateCard updateCard updatedCard s w) =
      snd (updateCard updatedCard w) /\
    view (fst (handleUpdateCard updateCard updatedCard s w)) = view s /\
    selectedCard (fst (handleUpdateCard updateCard updatedCard s w)) =
      selectedCard s /\
    map id (inventory (fst (handleUpdateCard updateCard updatedCard s w))) =
      map id (inventory s) /\
    (forall e, fst (updateCard updatedCard w) = Throw e ->
               fst (handleUpdateCard updateCard updatedCard s w) = s) /\
    (forall saved,
        fst (updateCard updatedCard w) = Return saved ->
        (forall c,
            In c (inventory (fst (handleUpdateCard updateCard updatedCard s w))) ->
            id c = id updatedCard -> c = updatedCard) /\
        (forall i c,
            nth_error (inventory s) i = Some c -> id c <> id updatedCard ->
            nth_error
              (inventory (fst (handleUpdateCard updateCard updatedCard s w))) i =
            Some c) /\
        (~ In (id updatedCard) (map id (inventory s)) ->
         fst (handleUpdateCard updateCard updatedCard s w) = s)).
Proof.
  intros W updateCard u s w. unfold handleUpdateCard.
  destruct (updateCard u w) as [[saved|e] w'] eqn:Hu; cbn [fst snd].
  - cbn [view selectedCard inventory].
    split; [reflexivity |]. split; [reflexivity |]. split; [reflexivity |].
    split; [apply replaceById_ids |]. split; [discriminate |].
    intros _ _. split; [| split].
    + intros c Hin Hid. unfold replaceById in Hin.
      apply in_map_iff in Hin. destruct Hin as [c0 [Hc0 _]].
      destruct (id c0 =? id u) eqn:E; [now symmetry |].
      subst c0. apply String.eqb_neq in E. contradiction.
    + intros i c Hnth Hne. unfold replaceById.
      rewrite nth_error_map, Hnth. cbn [option_map].
      apply String.eqb_neq in Hne. now rewrite Hne.
    + intros Hnot. rewrite (replaceById_absent u _ Hnot). now destruct s.
  - split; [reflexivity |]. split; [reflexivity |]. split; [reflexivity |].
    split; [reflexivity |]. split; [reflexivity |]. discriminate.
Qed.

Lemma update_card_replaces_by_id_witness :
  handleUpdateCard AppSample.saveCard
    (CardSamples.card "B" "Bulbasaur" listing 8 None)
    (mkState LISTINGS [ViewSample.cardA; ViewSample.cardB; ViewSample.cardC]
             None) tt =
  (mkState LISTINGS [ViewSample.cardA;
                     CardSamples.card "B" "Bulbasaur" listing 8 None;
                     ViewSample.cardC] None, tt) /\
  handleUpdateCard AppSample.saveCard
    (CardSamples.card "Z" "Zubat" listing 8 None)
    (mkState LISTINGS [ViewSample.cardA; ViewSample.cardB; ViewSample.cardC]
             None) tt =
  (mkState LISTINGS [ViewSample.cardA; ViewSample.cardB; ViewSample.cardC]
           None, tt).
Proof.
  split; [reflexivity |].
  destruct (update_card_replaces_by_id unit AppSample.saveCard
              (CardSamples.card "Z" "Zubat" listing 8 None)
              (mkState LISTINGS
                 [ViewSample.cardA; ViewSample.cardB; ViewSample.cardC] None)
              tt) as [Hw [_ [_ [_ [_ Hok]]]]].
  destruct (Hok _ eq_refl) as [_ [_ Habsent]].
  apply injective_projections; [apply Habsent | exact Hw].
  cbn. intros [H | [H | [H | []]]]; discriminate H.
Defined.

Lemma updateEach_step (W : Type)
      (updateCard : CardMetadata -> W -> Completion CardMetadata Error * W)
      (card : CardMetadata) (rest : list CardMetadata) (w : W)
      (log : list CardMetadata) :
  updateEach (AppSample.loggedUpdate updateCard) (card :: rest) (w, log) =
  match updateCard card w with
  | (Return _, w1) =>
      updateEach (AppSample.loggedUpdate updateCard) rest
                 (w1, (log ++ [card])%list)
  | (Throw e, w1) => (Throw e, (w1, (log ++ [card])%list))
  end.
Proof.
  cbn [updateEach]. unfold AppSample.loggedUpdate at 1. cbn [fst snd].
  now destruct (updateCard card w) as [[saved|e] w1].
Qed.

Lemma updateEach_log (W : Type)
      (updateCard : CardMetadata -> W -> Completion CardMetadata Error * W)
      (updatedCards : list CardMetadata) :
  forall (w : W) (log : list CardMetadata),
    (exists w',
        updateEach (AppSample.loggedUpdate updateCard) updatedCards (w, log) =
        (Return tt, (w', (log ++ updatedCards)%list))) \/
    (exists done bad rest e w',
        updatedCards = (done ++ bad :: rest)%list /\
        updateEach (AppSample.loggedUpdate updateCard) updatedCards (w, log) =
        (Throw e, (w', (log ++ done ++ [bad])%list))).
Proof.
  induction updatedCards as [| card rest IH]; intros w log.
  - left. exists w. cbn [updateEach]. now rewrite app_nil_r.
  - rewrite updateEach_step.
    destruct (updateCard card w) as [[saved|e] w1].
    + destruct (IH w1 (log ++ [card])%list)
        as [[w' Hall] | [done [bad [rest' [e [w' [Hsplit Hfail]]]]]]].
      * left. exists w'. rewrite Hall. now rewrite <- app_assoc.
      * right. exists (card :: done), bad, rest', e, w'. split.
        -- now rewrite Hsplit.
        -- rewrite Hfail. now rewrite <- app_assoc.
    + right. exists [], card, rest, e, w1. split; reflexivity.
Qed.

Lemma updateEach_accepted (W : Type)
      (updateCard : CardMetadata -> W -> Completion CardMetadata Error * W)
      (updatedCards : list CardMetadata) :
  (forall card, In card updatedCards ->
                forall w, exists saved, fst (updateCard card w) = Return saved) ->
  forall (w : W) (log : list CardMetadata),
    exists w',
      updateEach (AppSample.loggedUpdate updateCard) updatedCards (w, log) =
      (Return tt, (w', (log ++ updatedCards)%list)).
Proof.
  induction updatedCards as [| card rest IH]; intros Hacc w log.
  - exists w. cbn [updateEach]. now rewrite app_nil_r.
  - rewrite updateEach_step.
    destruct (Hacc card (or_introl eq_refl) w) as [saved Hsaved].
    destruct (updateCard card w) as [[saved'|e] w1]; [| discriminate Hsaved].
    destruct (IH (fun c Hc => Hacc c (or_intror Hc)) w1 (log ++ [card])%list)
      as [w' Hall].
    exists w'. rewrite Hall. now rewrite <- app_assoc.
Qed.

Lemma updateEach_refused (W : Type)
      (updateCard : CardMetadata -> W -> Completion CardMetadata Error * W)
      (done : list CardMetadata) (bad : CardMetadata)
      (rest : list CardMetadata) :
  (forall card, In card done ->
                forall w, exists saved, fst (updateCard card w) = Return saved) ->
  (forall w, exists e, fst (updateCard bad w) = Throw e) ->
  forall (w : W) (log : list CardMetadata),
    exists e w',
      updateEach (AppSample.loggedUpdate updateCard) (done ++ bad :: rest)%list
                 (w, log) =
      (Throw e, (w', (log ++ done ++ [bad])%list)).
Proof.
  induction done as [| card done IH]; intros Hacc Hbad w log.
  - cbn [app]. rewrite updateEach_step.
    destruct (Hbad w) as [e He].
    destruct (updateCard bad w) as [[saved|e'] w1]; [discriminate He |].
    now exists e', w1.
  - cbn [app]. rewrite updateEach_step.
    destruct (Hacc card (or_introl eq_refl) w) as [saved Hsaved].
    destruct (updateCard card w) as [[saved'|e] w1]; [| discriminate Hsaved].
    destruct (IH (fun c Hc => Hacc c (or_intror Hc)) Hbad w1
                 (log ++ [card])%list) as [e [w' Hfail]].
    exists e, w'. rewrite Hfail. now rewrite <- app_assoc.
Qed.

(** X28.  A bulk update sends the cards to the server one after the other
    and stops at the first that is refused.  When all are accepted, the
    inventory is what updating the cards one by one would give, so for cards
    with the same id the last one wins.  When one is refused, the view, the
    selected card and the whole inventory stay as they were, although the
    cards before it have been sent.  No other outcome exists: the handler
    never throws. *)
Theorem bulk_update_all_or_nothing :
  forall (W : Type)
         (updateCard : CardMetadata -> W -> Completion CardMetadata Error * W)
         (s : State) (w : W) (log : list CardMetadata),
    (forall updatedCards,
        (forall card, In card updatedCards ->
                      forall w, exists saved,
                          fst (updateCard card w) = Return saved) ->
        exists w',
          handleUpdateCards (AppSample.loggedUpdate updateCard) updatedCards s
                            (w, log) =
          (mkState (view s)
                   (fold_left (fun inv u => replaceById u inv) updatedCards
                              (inventory s))
                   (selectedCard s),
           (w', (log ++ updatedCards)%list))) /\
    (forall done bad rest,
        (forall card, In card done ->
                      forall w, exists saved,
                          fst (updateCard card w) = Return saved) ->
        (forall w, exists e, fst (updateCard bad w) = Throw e) ->
        exists w',
          handleUpdateCards (AppSample.loggedUpdate updateCard)
                            (done ++ bad :: rest)%list s (w, log) =
          (s, (w', (log ++ done ++ [bad])%list))) /\
    (forall updatedCards,
        (exists w',
            handleUpdateCards (AppSample.loggedUpdate updateCard) updatedCards
                              s (w, log) =
            (mkState (view s)
                     (fold_left (fun inv u => replaceById u inv) updatedCards
                                (inventory s))
                     (selectedCard s),
             (w', (log ++ updatedCards)%list))) \/
        (exists done bad rest w',
            updatedCards = (done ++ bad :: rest)%list /\
            handleUpdateCards (AppSample.loggedUpdate updateCard) updatedCards
                              s (w, log) =
            (s, (w', (log ++ done ++ [bad])%list)))).
Proof.
  intros W updateCard s w log. split; [| split].
  - intros updatedCards Hacc. unfold handleUpdateCards.
    destruct (updateEach_accepted W updateCard updatedCards Hacc w log)
      as [w' Hall].
    exists w'. rewrite Hall. now rewrite replaceAll_fold.
  - intros done bad rest Hacc Hbad. unfold handleUpdateCards.
    destruct (updateEach_refused W updateCard done bad rest Hacc Hbad w log)
      as [e [w' Hfail]].
    exists w'. now rewrite Hfail.
  - intros updatedCards. unfold handleUpdateCards.
    destruct (updateEach_log W updateCard updatedCards w log)
      as [[w' Hall] | [done [bad [rest [e [w' [Hsplit Hfail]]]]]]].
    + left. exists w'. rewrite Hall. now rewrite replaceAll_fold.
    + right. exists done, bad, rest, w'. split; [exact Hsplit |].
      now rewrite Hfail.
Qed.

Lemma bulk_update_all_or_nothing_witness :
  handleUpdateCards (AppSample.loggedUpdate AppSample.updateCard)
    [CardSamples.card "A" "Abra" sold 5 None;
     CardSamples.card "B" "Bulbasaur" sold 7 None;
     CardSamples.card "A" "Abra" sold 6 None]
    (mkState LISTINGS [ViewSample.cardA; ViewSample.cardB; ViewSample.cardC]
             None) (tt, []) =
  (mkState LISTINGS [CardSamples.card "A" "Abra" sold 6 None;
                     CardSamples.card "B" "Bulbasaur" sold 7 None;
                     ViewSample.cardC] None,
   (tt, [CardSamples.card "A" "Abra" sold 5 None;
         CardSamples.card "B" "Bulbasaur" sold 7 None;
         CardSamples.card "A" "Abra" sold 6 None])) /\
  handleUpdateCards (AppSample.loggedUpdate AppSample.updateCard)
    [CardSamples.card "A" "Abra" sold 5 None;
     CardSamples.card "C" "Charmander" sold 9 None;
     CardSamples.card "B" "Bulbasaur" sold 7 None]
    (mkState LISTINGS [ViewSample.cardA; ViewSample.cardB; ViewSample.cardC]
             None) (tt, []) =
  (mkState LISTINGS [ViewSample.cardA; ViewSample.cardB; ViewSample.cardC]
           None,
   (tt, [CardSamples.card "A" "Abra" sold 5 None;
         CardSamples.card "C" "Charmander" sold 9 None])).
Proof.
  destruct (bulk_update_all_or_nothing unit AppSample.updateCard
              (mkState LISTINGS
                 [ViewSample.cardA; ViewSample.cardB; ViewSample.cardC] None)
              tt []) as [Hall [Hstop _]].
  split.
  - destruct (Hall [CardSamples.card "A" "Abra" sold 5 None;
                    CardSamples.card "B" "Bulbasaur" sold 7 None;
                    CardSamples.card "A" "Abra" sold 6 None]) as [[] H].
    + intros card [<- | [<- | [<- | []]]] w0; eexists; reflexivity.
    + exact H.
  - destruct (Hstop [CardSamples.card "A" "Abra" sold 5 None]
                    (CardSamples.card "C" "Charmander" sold 9 None)
                    [CardSamples.card "B" "Bulbasaur" sold 7 None])
      as [[] H].
    + intros card [<- | []] w0; eexists; reflexivity.
    + intros w0; eexists; reflexivity.
    + exact H.
Defined.

Lemma uploadAll_length (W : Type) (uploadImage : string -> W -> string * W)
      (images : list string) :
  forall w : W,
    List.length (fst (uploadAll uploadImage images w)) = List.length images.
Proof.
  induction images as [| img rest IH]; intros w; [reflexivity |].
  cbn [uploadAll]. destruct (uploadImage img w) as [url w1].
  specialize (IH w1).
  destruct (uploadAll uploadImage rest w1) as [urls w2].
  cbn [fst List.length] in *. now rewrite IH.
Qed.

Lemma uploadAll_map (W : Type) (uploadImage : string -> W -> string * W)
      (answer : string -> string) (images : list string) :
  (forall img w, fst (uploadImage img w) = answer img) ->
  forall w : W, fst (uploadAll uploadImage images w) = map answer images.
Proof.
  intros Hans. induction images as [| img rest IH]; intros w; [reflexivity |].
  cbn [uploadAll map]. specialize (Hans img w).
  destruct (uploadImage img w) as [url w1]. cbn [fst] in Hans. subst url.
  specialize (IH w1).
  destruct (uploadAll uploadImage rest w1) as [urls w2].
  cbn [fst] in *. now rewrite IH.
Qed.

Lemma recentCards_newest (inventory : list CardMetadata)
      (card : CardMetadata) :
  hd_error (Dashboard.recentCards (inventory ++ [card])%list) = Some card.
Proof.
  unfold Dashboard.recentCards, Dashboard.sliceLast.
  rewrite length_app. cbn [List.length]. rewrite skipn_app.
  replace (List.length inventory + 1 - 4 - List.length inventory)%nat
    with 0%nat by lia.
  cbn [skipn]. rewrite rev_app_distr. reflexivity.
Qed.

(** X29.  For an analysed card every image is uploaded, then the card is
    saved.  The card that is saved has the answers of the uploads as its
    images, one for each image and in their order, and every other field as
    the analysed card has it.  When the save succeeds, that card is added at
    the end of the inventory whatever ids are there, becomes the selected
    card and the first recent scan, and the details view opens; what the
    server answered to the save is not used.  When the save fails, the
    inventory, the selected card and the view stay as they were although the
    images have been uploaded.  When every upload answers the image itself,
    as the client does when the server cannot be reached, the card saved is
    the analysed card with its own images. *)
Theorem analyzed_card_is_appended :
  forall (W : Type) (uploadImage : string -> W -> string * W)
         (saveCard : CardMetadata -> W -> Completion CardMetadata Error * W)
         (card : CardMetadata) (s : State) (w : W),
    exists finalCard uploaded w1,
      uploadAll uploadImage (images card) w = (uploaded, w1) /\
      List.length uploaded = List.length (images card) /\
      (images finalCard = uploaded /\
       id finalCard = id card /\ game finalCard = game card /\
       name finalCard = name card /\ set finalCard = set card /\
       cardNumber finalCard = cardNumber card /\
       rarity finalCard = rarity card /\ isHolo finalCard = isHolo card /\
       grading finalCard = grading card /\
       strictness finalCard = strictness card /\
       status finalCard = status card /\ tags finalCard = tags card /\
       suggestedPrice finalCard = suggestedPrice card /\
       agents finalCard = agents card /\
       historicalData finalCard = historicalData card /\
       groundingSources finalCard = groundingSources card /\
       cardIdentifier finalCard = cardIdentifier card /\
       marketData finalCard = marketData card /\
       listingInfo finalCard = listingInfo card) /\
      (forall saved w2,
          saveCard finalCard w1 = (Return saved, w2) ->
          handleCardAnalyzed uploadImage saveCard card s w =
          (mkState DETAILS (inventory s ++ [finalCard])%list (Some finalCard),
           w2) /\
          hd_error (Dashboard.recentCards (inventory s ++ [finalCard])%list) =
          Some finalCard) /\
      (forall e w2,
          saveCard finalCard w1 = (Throw e, w2) ->
          handleCardAnalyzed uploadImage saveCard card s w = (s, w2)) /\
      ((forall img w0, fst (uploadImage img w0) = img) -> finalCard = card) /\
      (forall answer : string -> string,
          (forall img w0, fst (uploadImage img w0) = answer img) ->
          images finalCard = map answer (images card)).
Proof.
  intros W uploadImage saveCard card s w.
  destruct (uploadAll uploadImage (images card) w) as [uploaded w1] eqn:Hup.
  exists (withImages card uploaded), uploaded, w1.
  split; [reflexivity |]. split.
  { pose proof (uploadAll_length W uploadImage (images card) w) as Hlen.
    now rewrite Hup in Hlen. }
  split; [repeat split |]. split; [| split].
  - intros saved w2 Hsave. split; [| apply recentCards_newest].
    unfold handleCardAnalyzed. now rewrite Hup, Hsave.
  - intros e w2 Hsave. unfold handleCardAnalyzed. now rewrite Hup, Hsave.
  - split.
    + intros Hback.
      pose proof (uploadAll_map W uploadImage (fun img => img) (images card)
                                Hback w) as Hsame.
      rewrite Hup, map_id in Hsame. cbn [fst] in Hsame. subst uploaded.
      now destruct card.
    + intros answer Hans.
      pose proof (uploadAll_map W uploadImage answer (images card) Hans w)
        as Hsame.
      now rewrite Hup in Hsame.
Qed.

Lemma analyzed_card_is_appended_witness :
  handleCardAnalyzed AppSample.uploadImage AppSample.saveCard
    AppSample.scanned (mkState SCANNER [ViewSample.cardA] None) tt =
  (mkState DETAILS
     [ViewSample.cardA;
      mkCard "c9" "Pokemon" "Mew" "Promo" "8" "Rare" true
             CardSamples.nmGrading Reconcile.standard
             ["http://192.168.1.20:3001/uploads/front.jpg";
              "http://192.168.1.20:3001/uploads/back.jpg"]
             Types.inventory [] (mkSuggested 20 30 40) CardSamples.noAgents
             [] [] None None None]
     (Some (mkCard "c9" "Pokemon" "Mew" "Promo" "8" "Rare" true
                   CardSamples.nmGrading Reconcile.standard
                   ["http://192.168.1.20:3001/uploads/front.jpg";
                    "http://192.168.1.20:3001/uploads/back.jpg"]
                   Types.inventory [] (mkSuggested 20 30 40)
                   CardSamples.noAgents [] [] None None None)), tt).
Proof.
  destruct (analyzed_card_is_appended unit AppSample.uploadImage
              AppSample.saveCard AppSample.scanned
              (mkState SCANNER [ViewSample.cardA] None) tt)
    as [finalCard [uploaded [w1 [Hup [_ [Hfields [Hsave _]]]]]]].
  destruct (Hsave finalCard w1 eq_refl) as [Hrun _]. rewrite Hrun.
  injection Hup as <- <-.
  destruct finalCard. cbn in Hfields.
  repeat match goal with H : _ /\ _ |- _ => destruct H end.
  subst. reflexivity.
Defined.

End AppExtras.
